(** * Mainframe copilot: screen fingerprinting, field extraction, redaction,
      flow execution and the session driver

    A shallow embedding of the Python sources

    - [herc_step8/tools/screen_fingerprint.py]   (module [Fingerprint])
    - [herc_step8/bridge/tn3270_bridge/parser.py] (module [Parser])
    - [herc_step8/ai/observability.py]            (module [Observability])
    - [herc_step8/bridge/tn3270_bridge/session.py] (module [Session])
    - [herc_step8/tools/flow_runner.py]           (module [FlowRunner])

    Part I holds the definitions, Part II the lemmas and theorems.

    Conventions.  A Python [str] is a list of characters ([Py.str]); the
    characters are the code points below 256.  A Python [int] is a [Z].
    A dictionary read through a fixed set of keys is a record of options, one
    field per key, [None] standing for an absent key.  A function that can
    raise returns a [Py.result]. *)

From Stdlib Require Import ZArith NArith String Ascii Bool Lia List.
From Stdlib Require Import DecimalString.
Import ListNotations.
Open Scope string_scope.
Open Scope list_scope.
Open Scope Z_scope.

Set Warnings "-register-all".

(* ===================================================================== *)
(** * Part I: the embedding                                               *)
(* ===================================================================== *)

(** ** Python strings and builtins *)

Module Py.

Definition str := list ascii.

Coercion list_ascii_of_string : string >-> list.

(** [str.isspace] on one character, for the code points below 256:
    TAB..CR, FS..US, SPACE, NEL and NBSP. *)
Definition isspace (c : ascii) : bool :=
  let n := N_of_ascii c in
  (((9 <=? n) && (n <=? 13)) || ((28 <=? n) && (n <=? 32))
   || (n =? 133) || (n =? 160))%N.

Fixpoint dropwhile {A : Type} (p : A -> bool) (l : list A) : list A :=
  match l with
  | [] => []
  | x :: l' => if p x then dropwhile p l' else l
  end.

(** Dropping from the right end, as [while l and p(l[-1]): l.pop()]. *)
Definition rdropwhile {A : Type} (p : A -> bool) (l : list A) : list A :=
  rev (dropwhile p (rev l)).

Definition lstrip (s : str) : str := dropwhile isspace s.
Definition rstrip (s : str) : str := rdropwhile isspace s.
Definition strip (s : str) : str := rstrip (lstrip s).

(** [s.split(sep)] for a separator of one character: never empty. *)
Fixpoint split (sep : ascii) (s : str) : list str :=
  match s with
  | [] => [[]]
  | c :: s' =>
      if Ascii.eqb c sep then [] :: split sep s'
      else match split sep s' with
           | [] => [[c]]
           | l :: ls => (c :: l) :: ls
           end
  end.

(** [sep.join(ls)]. *)
Fixpoint join (sep : str) (ls : list str) : str :=
  match ls with
  | [] => []
  | [l] => l
  | l :: ls' => l ++ sep ++ join sep ls'
  end.

(** [s.split(sep, 1)] when [sep in s]: the text before the first [sep] and
    the text after it; [None] when [sep] does not occur. *)
Fixpoint split1 (sep : ascii) (s : str) : option (str * str) :=
  match s with
  | [] => None
  | c :: s' =>
      if Ascii.eqb c sep then Some ([], s')
      else match split1 sep s' with
           | Some (k, v) => Some (c :: k, v)
           | None => None
           end
  end.

Fixpoint startswith (p s : str) : bool :=
  match p, s with
  | [], _ => true
  | _ :: _, [] => false
  | a :: p', b :: s' => Ascii.eqb a b && startswith p' s'
  end.

(** [needle in hay]. *)
Fixpoint contains (needle hay : str) : bool :=
  startswith needle hay ||
  match hay with
  | [] => false
  | _ :: hay' => contains needle hay'
  end.

(** [not s], for a string. *)
Definition blank_str (s : str) : bool :=
  match s with [] => true | _ => false end.

Fixpoint str_eqb (s t : str) : bool :=
  match s, t with
  | [], [] => true
  | a :: s', b :: t' => Ascii.eqb a b && str_eqb s' t'
  | _, _ => false
  end.

(** [str.lower] on one character below 256: A..Z, and the capital letters
    of Latin-1 (0xC0..0xDE without the multiplication sign 0xD7). *)
Definition lower_char (c : ascii) : ascii :=
  let n := N_of_ascii c in
  if (((65 <=? n) && (n <=? 90))
      || ((192 <=? n) && (n <=? 222) && negb (n =? 215)))%N
  then ascii_of_N (n + 32) else c.

Definition lower (s : str) : str := map lower_char s.

(** [any(r in s for r in words)]. *)
Definition any_in (words : list str) (s : str) : bool :=
  existsb (fun r => contains r s) words.

(** [str(n)] for an [int]. *)
Definition str_of_int (n : Z) : str :=
  list_ascii_of_string (NilZero.string_of_int (Z.to_int n)).

(** [s[:n]]. *)
Definition prefix (n : nat) (s : str) : str := firstn n s.

(** [s.encode()]: UTF-8, one byte below 128 and two from 128 to 255. *)
Definition encode_char (c : ascii) : list Z :=
  let n := Z.of_N (N_of_ascii c) in
  if n <? 128 then [n]
  else [Z.lor 192 (Z.shiftr n 6); Z.lor 128 (Z.land n 63)].

Definition encode (s : str) : list Z := flat_map encode_char s.

(** Exceptions: the class and the message ([str(e)]). *)
Inductive exn_class : Type :=
| ValueError | KeyError | IndexError | RuntimeError | ReError
| RequestException | OSError.

Record exn : Type := Exn { exn_cls : exn_class; exn_msg : str }.

Inductive result (A : Type) : Type :=
| Ok (a : A)
| Raise (e : exn).
Arguments Ok {A} a.
Arguments Raise {A} e.

Definition bind {A B : Type} (r : result A) (k : A -> result B) : result B :=
  match r with
  | Ok a => k a
  | Raise e => Raise e
  end.

End Py.

Import Py.

Notation "x <- r ;; k" := (Py.bind r (fun x => k))
  (at level 61, r at next level, right associativity).

(** ** Methods: state passing with exceptions *)

Module Eff.

(** A method on an object of state [S]: it leaves a state behind, and
    returns or raises.  What it changed before raising stays changed. *)
Definition M (S A : Type) : Type := S -> S * Py.result A.

Definition ret {S A : Type} (a : A) : M S A := fun s => (s, Ok a).

Definition raise {S A : Type} (e : Py.exn) : M S A := fun s => (s, Raise e).

Definition mbind {S A B : Type} (c : M S A) (k : A -> M S B) : M S B :=
  fun s =>
    match c s with
    | (s', Ok a) => k a s'
    | (s', Raise e) => (s', Raise e)
    end.

Definition gets {S A : Type} (f : S -> A) : M S A := fun s => (s, Ok (f s)).

Definition modify {S : Type} (f : S -> S) : M S unit := fun s => (f s, Ok tt).

(** [try: c  except Exception as e: h e]. *)
Definition try_except {S A : Type} (c : M S A) (h : Py.exn -> M S A) : M S A :=
  fun s =>
    match c s with
    | (s', Ok a) => (s', Ok a)
    | (s', Raise e) => h e s'
    end.

End Eff.

Notation "x <~ c ;; k" := (Eff.mbind c (fun x => k))
  (at level 61, c at next level, right associativity).
Notation "c ;;; k" := (Eff.mbind c (fun _ => k))
  (at level 61, right associativity).

(** ** hashlib.sha256 (FIPS 180-4), on bytes given as integers 0..255 *)

Module Sha256.

Definition mask32 : Z := 4294967295.

Definition w32 (x : Z) : Z := Z.land x mask32.

Definition add32 (x y : Z) : Z := w32 (x + y).

Definition rotr (n x : Z) : Z :=
  Z.lor (Z.shiftr x n) (w32 (Z.shiftl x (32 - n))).

Definition Ch (x y z : Z) : Z :=
  Z.lxor (Z.land x y) (Z.land (Z.lxor x mask32) z).

Definition Maj (x y z : Z) : Z :=
  Z.lxor (Z.lxor (Z.land x y) (Z.land x z)) (Z.land y z).

Definition Sigma0 (x : Z) : Z :=
  Z.lxor (Z.lxor (rotr 2 x) (rotr 13 x)) (rotr 22 x).

Definition Sigma1 (x : Z) : Z :=
  Z.lxor (Z.lxor (rotr 6 x) (rotr 11 x)) (rotr 25 x).

Definition sigma0 (x : Z) : Z :=
  Z.lxor (Z.lxor (rotr 7 x) (rotr 18 x)) (Z.shiftr x 3).

Definition sigma1 (x : Z) : Z :=
  Z.lxor (Z.lxor (rotr 17 x) (rotr 19 x)) (Z.shiftr x 10).

(** The round constants, four to a row as FIPS 180-4 prints them. *)
Definition K : list Z :=
     [0x428a2f98; 0x71374491; 0xb5c0fbcf; 0xe9b5dba5]
  ++ [0x3956c25b; 0x59f111f1; 0x923f82a4; 0xab1c5ed5]
  ++ [0xd807aa98; 0x12835b01; 0x243185be; 0x550c7dc3]
  ++ [0x72be5d74; 0x80deb1fe; 0x9bdc06a7; 0xc19bf174]
  ++ [0xe49b69c1; 0xefbe4786; 0x0fc19dc6; 0x240ca1cc]
  ++ [0x2de92c6f; 0x4a7484aa; 0x5cb0a9dc; 0x76f988da]
  ++ [0x983e5152; 0xa831c66d; 0xb00327c8; 0xbf597fc7]
  ++ [0xc6e00bf3; 0xd5a79147; 0x06ca6351; 0x14292967]
  ++ [0x27b70a85; 0x2e1b2138; 0x4d2c6dfc; 0x53380d13]
  ++ [0x650a7354; 0x766a0abb; 0x81c2c92e; 0x92722c85]
  ++ [0xa2bfe8a1; 0xa81a664b; 0xc24b8b70; 0xc76c51a3]
  ++ [0xd192e819; 0xd6990624; 0xf40e3585; 0x106aa070]
  ++ [0x19a4c116; 0x1e376c08; 0x2748774c; 0x34b0bcb5]
  ++ [0x391c0cb3; 0x4ed8aa4a; 0x5b9cca4f; 0x682e6ff3]
  ++ [0x748f82ee; 0x78a5636f; 0x84c87814; 0x8cc70208]
  ++ [0x90befffa; 0xa4506ceb; 0xbef9a3f7; 0xc67178f2].

(** The eight working variables, and the hash value. *)
Record regs : Type := Regs {
  ra : Z; rb : Z; rc : Z; rd : Z; re : Z; rf : Z; rg : Z; rh : Z }.

Definition H0 : regs :=
  Regs 0x6a09e667 0xbb67ae85 0x3c6ef372 0xa54ff53a
       0x510e527f 0x9b05688c 0x1f83d9ab 0x5be0cd19.

(** Padding: 0x80, zeros up to 56 mod 64, the bit length on 8 bytes. *)
Definition be_bytes (n : nat) (x : Z) : list Z :=
  map (fun i => Z.land (Z.shiftr x (8 * Z.of_nat i)) 255) (rev (seq 0 n)).

Definition pad (msg : list Z) : list Z :=
  let l := Z.of_nat (length msg) in
  let k := (55 - l) mod 64 in
  msg ++ [128] ++ repeat 0 (Z.to_nat k) ++ be_bytes 8 (8 * l).

Definition word_of (b3 b2 b1 b0 : Z) : Z :=
  Z.lor (Z.lor (Z.shiftl b3 24) (Z.shiftl b2 16)) (Z.lor (Z.shiftl b1 8) b0).

(** The first [n] big-endian words of a byte list. *)
Fixpoint words (n : nat) (bs : list Z) : list Z :=
  match n, bs with
  | S n', b3 :: b2 :: b1 :: b0 :: bs' => word_of b3 b2 b1 b0 :: words n' bs'
  | _, _ => []
  end.

(** The message schedule: [win] holds W(t-16) .. W(t-1). *)
Definition next_w (win : list Z) : Z :=
  add32 (add32 (sigma1 (nth 14 win 0)) (nth 9 win 0))
        (add32 (sigma0 (nth 1 win 0)) (nth 0 win 0)).

Fixpoint schedule (n : nat) (win : list Z) : list Z :=
  match n with
  | O => []
  | S n' => let x := next_w win in x :: schedule n' (tl win ++ [x])
  end.

Definition round (r : regs) (kw : Z * Z) : regs :=
  let t1 := add32 (add32 (add32 (rh r) (Sigma1 (re r)))
                         (add32 (Ch (re r) (rf r) (rg r)) (fst kw)))
                  (snd kw) in
  let t2 := add32 (Sigma0 (ra r)) (Maj (ra r) (rb r) (rc r)) in
  Regs (add32 t1 t2) (ra r) (rb r) (rc r) (add32 (rd r) t1) (re r) (rf r) (rg r).

Definition compress (h : regs) (block : list Z) : regs :=
  let w16 := words 16 block in
  let w := w16 ++ schedule 48 w16 in
  let r := fold_left round (combine K w) h in
  Regs (add32 (ra h) (ra r)) (add32 (rb h) (rb r))
       (add32 (rc h) (rc r)) (add32 (rd h) (rd r))
       (add32 (re h) (re r)) (add32 (rf h) (rf r))
       (add32 (rg h) (rg r)) (add32 (rh h) (rh r)).

Fixpoint blocks (n : nat) (h : regs) (bs : list Z) : regs :=
  match n with
  | O => h
  | S n' => blocks n' (compress h (firstn 64 bs)) (skipn 64 bs)
  end.

Definition sha256 (msg : list Z) : regs :=
  let p := pad msg in
  blocks (Nat.div (length p) 64) H0 p.

Definition hexchars : Py.str := "0123456789abcdef".

Definition hex_nibble (x : Z) : ascii :=
  nth (Z.to_nat (Z.land x 15)) hexchars "0"%char.

Definition hex32 (x : Z) : Py.str :=
  map (fun i => hex_nibble (Z.shiftr x (4 * Z.of_nat i))) (rev (seq 0 8)).

(** [hashlib.sha256(msg).hexdigest()]. *)
Definition hexdigest (msg : list Z) : Py.str :=
  let r := sha256 msg in
  hex32 (ra r) ++ hex32 (rb r) ++ hex32 (rc r) ++ hex32 (rd r) ++
  hex32 (re r) ++ hex32 (rf r) ++ hex32 (rg r) ++ hex32 (rh r).

End Sha256.

(** ** bridge/tn3270_bridge/parser.py *)

Module Parser.

(** *** [int(value, 16)] *)

Definition hex_digit (c : ascii) : option Z :=
  let n := Z.of_N (N_of_ascii c) in
  if (48 <=? n) && (n <=? 57) then Some (n - 48)
  else if (97 <=? n) && (n <=? 102) then Some (n - 87)
  else if (65 <=? n) && (n <=? 70) then Some (n - 55)
  else None.

(** The white space [int] skips at both ends: TAB..CR and SPACE, and NEL and
    NBSP, which it first turns into SPACE. *)
Definition int_space (c : ascii) : bool :=
  let n := N_of_ascii c in
  (((9 <=? n) && (n <=? 13)) || (n =? 32) || (n =? 133) || (n =? 160))%N.

(** The digits, with single underscores between them; the value read and
    the text left.  [None] on a doubled or a trailing underscore. *)
Fixpoint scan_digits (s : Py.str) (acc : Z) (prev_us : bool)
  : option (Z * Py.str) :=
  match s with
  | [] => if prev_us then None else Some (acc, [])
  | c :: s' =>
      if Ascii.eqb c "_" then
        if prev_us then None else scan_digits s' acc true
      else match hex_digit c with
           | Some d => scan_digits s' (16 * acc + d) false
           | None => if prev_us then None else Some (acc, s)
           end
  end.

(** [int(s, 16)]; [None] stands for [ValueError]. *)
Definition int16 (s : Py.str) : option Z :=
  let s1 := Py.dropwhile int_space s in
  let '(sign, s2) :=
    match s1 with
    | c :: r => if Ascii.eqb c "+" then (1, r)
                else if Ascii.eqb c "-" then (-1, r)
                else (1, s1)
    | [] => (1, s1)
    end in
  let s3 :=
    match s2 with
    | z :: x :: r =>
        if Ascii.eqb z "0" && (Ascii.eqb x "x" || Ascii.eqb x "X") then
          match r with
          | u :: r' => if Ascii.eqb u "_" then r' else r
          | [] => r
          end
        else s2
    | _ => s2
    end in
  match s3 with
  | [] => None
  | c :: _ =>
      match hex_digit c with
      | None => None
      | Some _ =>
          match scan_digits s3 0 false with
          | Some (v, rest) =>
              if forallb int_space rest then Some (sign * v) else None
          | None => None
          end
      end
  end.

(** *** [parse_color] *)

Definition colors : list (Py.str * Py.str) :=
  [ ("f0" : Py.str, "neutral" : Py.str);
    ("f1" : Py.str, "blue" : Py.str);
    ("f2" : Py.str, "red" : Py.str);
    ("f3" : Py.str, "pink" : Py.str);
    ("f4" : Py.str, "green" : Py.str);
    ("f5" : Py.str, "turquoise" : Py.str);
    ("f6" : Py.str, "yellow" : Py.str);
    ("f7" : Py.str, "white" : Py.str);
    ("f8" : Py.str, "black" : Py.str);
    ("f9" : Py.str, "deep_blue" : Py.str) ].

Fixpoint dict_get (d : list (Py.str * Py.str)) (k : Py.str) (default : Py.str)
  : Py.str :=
  match d with
  | [] => default
  | (k', v) :: d' => if Py.str_eqb k' k then v else dict_get d' k default
  end.

Definition parse_color (color_code : Py.str) : Py.str :=
  dict_get colors (Py.lower color_code) color_code.

(** *** [parse_field_attributes] *)

Record Attrs : Type := mkAttrs {
  protected : bool;
  numeric : bool;
  intensified : bool;
  hidden : bool;
  modified : bool;
  detectable : bool;
  highlighting : option Py.str;
  fg_color : option Py.str;
  bg_color : option Py.str }.

Definition attrs0 : Attrs :=
  mkAttrs false false false false false false None None None.

(** [bool(attr_byte & m)]. *)
Definition bit (attr_byte m : Z) : bool := negb (Z.land attr_byte m =? 0).

(** The body of the [for pair in attrs_str.split(',')] loop. *)
Definition parse_pair (attrs : Attrs) (pair : Py.str) : Attrs :=
  let pair := Py.strip pair in
  match Py.split1 "=" pair with
  | None => attrs
  | Some (key, value) =>
      let key := Py.strip key in
      let value := Py.strip value in
      if Py.str_eqb key "c0" then
        match int16 value with
        | Some attr_byte =>
            mkAttrs (bit attr_byte 0x20)
                    (bit attr_byte 0x10)
                    (bit attr_byte 0x08)
                    (Z.land attr_byte 0x0C =? 0x0C)
                    (bit attr_byte 0x01)
                    (bit attr_byte 0x04)
                    (highlighting attrs) (fg_color attrs) (bg_color attrs)
        | None => attrs
        end
      else if Py.str_eqb key "41" then
        mkAttrs (protected attrs) (numeric attrs) (intensified attrs)
                (hidden attrs) (modified attrs) (detectable attrs)
                (Some value) (fg_color attrs) (bg_color attrs)
      else if Py.str_eqb key "42" then
        mkAttrs (protected attrs) (numeric attrs) (intensified attrs)
                (hidden attrs) (modified attrs) (detectable attrs)
                (highlighting attrs) (Some (parse_color value)) (bg_color attrs)
      else if Py.str_eqb key "45" then
        mkAttrs (protected attrs) (numeric attrs) (intensified attrs)
                (hidden attrs) (modified attrs) (detectable attrs)
                (highlighting attrs) (fg_color attrs) (Some (parse_color value))
      else attrs
  end.

Definition parse_field_attributes (attrs_str : Py.str) : Attrs :=
  fold_left parse_pair (Py.split "," attrs_str) attrs0.

(** *** [re.finditer(r'SF\(([^)]+)\)', line)] *)

(** The text up to the first closing parenthesis, when there is one. *)
Fixpoint until_close (s : Py.str) : option Py.str :=
  match s with
  | [] => None
  | c :: s' =>
      if Ascii.eqb c ")" then Some []
      else option_map (cons c) (until_close s')
  end.

(** A match anchored at the head of [s]: group 1 and the length of the
    whole match. *)
Definition match_SF (s : Py.str) : option (Py.str * nat) :=
  match s with
  | c1 :: c2 :: c3 :: rest =>
      if Ascii.eqb c1 "S" && Ascii.eqb c2 "F" && Ascii.eqb c3 "(" then
        match until_close rest with
        | Some (g :: gs) => Some (g :: gs, (4 + length (g :: gs))%nat)
        | _ => None
        end
      else None
  | _ => None
  end.

(** One regex match: [match.start()], [match.group(1)] and
    [len(match.group(0))]. *)
Record Match : Type := mkMatch {
  m_start : nat;
  m_group1 : Py.str;
  m_len : nat }.

(** The matches of [s], left to right and without overlap: [pos] is the
    index of the head of [s] in the line, [skip] the number of characters
    still covered by the previous match. *)
Fixpoint finditer_SF (skip pos : nat) (s : Py.str) : list Match :=
  match s with
  | [] => []
  | _ :: s' =>
      match skip with
      | S k => finditer_SF k (S pos) s'
      | O =>
          match match_SF s with
          | Some (g, n) => mkMatch pos g n :: finditer_SF (n - 1) (S pos) s'
          | None => finditer_SF 0 (S pos) s'
          end
      end
  end.

(** *** [parse_readbuffer_ascii] *)

Record Field : Type := mkField {
  row : Z;
  col : Z;
  len : Z;
  field_protected : bool;
  attrs : Attrs }.

Definition set_len (f : Field) (n : Z) : Field :=
  mkField (row f) (col f) n (field_protected f) (attrs f).

(** The variables of the scan. *)
Record Scan : Type := mkScan {
  fields : list Field;
  current_field : option Field;
  current_row : Z;
  current_col : Z }.

(** The body of the loop over the markers of one line; [col_offset] is
    threaded along with the scan. *)
Definition on_marker (cols : Z) (st : Scan * Z) (m : Match) : Scan * Z :=
  let '(sc, col_offset) := st in
  let field_start := Z.of_nat (m_start m) in
  let attrs_str := m_group1 m in
  let fields' :=
    match current_field sc with
    | Some cf =>
        let field_end_row := current_row sc in
        let field_end_col := col_offset + field_start in
        let n :=
          if field_end_row =? row cf then field_end_col - col cf
          else (cols - col cf + 1)
               + ((field_end_row - row cf - 1) * cols)
               + field_end_col in
        fields sc ++ [set_len cf n]
    | None => fields sc
    end in
  let attrs := parse_field_attributes attrs_str in
  let new_field :=
    mkField (current_row sc) (current_col sc + col_offset + field_start) 0
            (protected attrs) attrs in
  (mkScan fields' (Some new_field) (current_row sc) (current_col sc),
   col_offset + Z.of_nat (m_len m)).

(** The lines the scan reads: not empty, not ["ok"] or ["error"], and
    starting with ["data:"]. *)
Definition is_data (line : Py.str) : bool :=
  negb (Py.blank_str line || Py.str_eqb line "ok" || Py.str_eqb line "error")
  && Py.startswith "data:" line.

(** The body of the loop over the lines. *)
Definition on_line (cols : Z) (sc : Scan) (line : Py.str) : Scan :=
  if is_data line then
    let line := skipn 5 line in
    let '(sc', _) := fold_left (on_marker cols) (finditer_SF 0 0 line) (sc, 0) in
    mkScan (fields sc') (current_field sc') (current_row sc' + 1) 1
  else sc.

Definition parse_readbuffer_ascii (lines : list Py.str) (rows cols : Z)
  : list Field :=
  let sc := fold_left (on_line cols) lines (mkScan [] None 1 1) in
  match current_field sc with
  | Some cf =>
      let remaining_on_line := cols - col cf + 1 in
      let remaining_lines := rows - row cf in
      fields sc ++ [set_len cf (remaining_on_line + remaining_lines * cols)]
  | None => fields sc
  end.

End Parser.

(** ** tools/screen_fingerprint.py *)

Module Fingerprint.

Definition newline : ascii := ascii_of_N 10.

(** [not line], for a string. *)
Definition blank (l : Py.str) : bool :=
  match l with [] => true | _ => false end.

(** [normalize_screen]: the lines of the text, right-trimmed, without the
    leading and the trailing empty lines, joined by a newline. *)
Definition normalize_screen (ascii_text : Py.str) : Py.str :=
  let lines := Py.split newline ascii_text in
  let lines := map Py.rstrip lines in
  let lines := Py.dropwhile blank lines in
  let lines := Py.rdropwhile blank lines in
  Py.join [newline] lines.

(** [compute_digest]. *)
Definition compute_digest (ascii_text : Py.str) : Py.str :=
  let normalized := normalize_screen ascii_text in
  Sha256.hexdigest (Py.encode normalized).

(** *** Snapshots and screen IDs *)

(** A screen snapshot, as the bridge returns it. *)
Record Snapshot : Type := mkSnapshot {
  snap_rows : option Z;
  snap_cols : option Z;
  snap_cursor : option (Z * Z);
  snap_ascii : option Py.str;
  snap_fields : option (list Parser.Field);
  snap_digest : option Py.str }.

(** [snapshot.get('ascii', '')]. *)
Definition ascii_of (snapshot : Snapshot) : Py.str :=
  match snap_ascii snapshot with Some t => t | None => [] end.

(** A sub-rule of an [any] or [all] list. *)
Record Rule : Type := mkRule {
  ascii_contains : option Py.str;
  ascii_regex : option Py.str }.

(** The dictionary under the key ['match']. *)
Record MatchRules : Type := mkMatchRules {
  m_cols : option Z;
  m_rows : option Z;
  m_any : option (list Rule);
  m_all : option (list Rule) }.

(** The dictionary under the key ['stability']. *)
Record Stability : Type := mkStability { min_chars : option Z }.

(** A screen ID: the keys [match_screen] reads. *)
Record ScreenId : Type := mkScreenId {
  sid_match : option MatchRules;
  sid_stability : option Stability;
  sid_ascii_contains : option Py.str;
  sid_ascii_regex : option Py.str;
  sid_any : option (list Rule) }.

Definition opt_Z_eqb (a : option Z) (b : Z) : bool :=
  match a with Some x => x =? b | None => false end.

(** [len(text.replace(' ', '').replace('\n', ''))]. *)
Definition count_chars (text : Py.str) : Z :=
  Z.of_nat (length (filter (fun c => negb (Ascii.eqb c " " || Ascii.eqb c newline))
                           text)).

Section Matching.

(** [re.search(pattern, text)] as a truth value; it raises on a pattern
    that does not compile. *)
Variable re_search : Py.str -> Py.str -> Py.result bool.

(** One rule of an [any] list: the description of the predicate that
    matched, if one did. *)
Definition rule_any (ascii_text : Py.str) (rule : Rule)
  : Py.result (option Py.str) :=
  let by_regex :=
    match ascii_regex rule with
    | Some p =>
        b <- re_search p ascii_text ;;
        Ok (if b then Some ("ascii_regex: " ++ p) else None)
    | None => Ok None
    end in
  match ascii_contains rule with
  | Some t =>
      if Py.contains t ascii_text then Ok (Some ("ascii_contains: " ++ t))
      else by_regex
  | None => by_regex
  end.

(** The loop over an [any] list: the first hit wins. *)
Fixpoint any_rules (ascii_text : Py.str) (rules : list Rule)
  : Py.result (option Py.str) :=
  match rules with
  | [] => Ok None
  | rule :: rules' =>
      hit <- rule_any ascii_text rule ;;
      match hit with
      | Some d => Ok (Some d)
      | None => any_rules ascii_text rules'
      end
  end.

(** The loop over an [all] list: [all_matched] and [matched_rules]. *)
Fixpoint all_rules (ascii_text : Py.str) (rules : list Rule)
         (matched_rules : list Py.str) : Py.result (bool * list Py.str) :=
  match rules with
  | [] => Ok (true, matched_rules)
  | rule :: rules' =>
      let '(matched, matched_rules) :=
        match ascii_contains rule with
        | Some t =>
            if Py.contains t ascii_text
            then (true, matched_rules ++ ["ascii_contains: " ++ t])
            else (false, matched_rules)
        | None => (false, matched_rules)
        end in
      st <- match ascii_regex rule with
            | Some p =>
                b <- re_search p ascii_text ;;
                Ok (if b then (true, matched_rules ++ ["ascii_regex: " ++ p])
                    else (matched, matched_rules))
            | None => Ok (matched, matched_rules)
            end ;;
      let '(matched, matched_rules) := st in
      if negb matched then Ok (false, matched_rules)
      else all_rules ascii_text rules' matched_rules
  end.

(** [match_screen], after the checks of the dimensions and of the
    stability.  The source tries, in this order: [ascii_contains] and
    [ascii_regex] of the screen ID itself, [match.any], [match.all], and
    the [any] of the screen ID.  Each part below is what is left to try
    when the part before it has not returned, so they are bound last
    first. *)
Definition match_content (ascii_text : Py.str) (screen_id : ScreenId)
  : Py.result (bool * option Py.str) :=
  let top_any :=
    match sid_any screen_id with
    | Some rules =>
        hit <- any_rules ascii_text rules ;;
        Ok (match hit with
            | Some d => (true, Some d)
            | None => (false, None)
            end)
    | None => Ok (false, None)
    end in
  let in_match :=
    match sid_match screen_id with
    | Some match_rules =>
        let by_all :=
          match m_all match_rules with
          | Some rules =>
              st <- all_rules ascii_text rules [] ;;
              let '(all_matched, matched_rules) := st in
              if all_matched && negb (Nat.eqb (length matched_rules) 0)
              then Ok (true, Some (Py.join " AND " matched_rules))
              else top_any
          | None => top_any
          end in
        match m_any match_rules with
        | Some rules =>
            hit <- any_rules ascii_text rules ;;
            match hit with
            | Some d => Ok (true, Some d)
            | None => by_all
            end
        | None => by_all
        end
    | None => top_any
    end in
  let by_regex :=
    match sid_ascii_regex screen_id with
    | Some p =>
        b <- re_search p ascii_text ;;
        if b then Ok (true, Some ("ascii_regex: " ++ p)) else in_match
    | None => in_match
    end in
  match sid_ascii_contains screen_id with
  | Some t =>
      if Py.contains t ascii_text then Ok (true, Some ("ascii_contains: " ++ t))
      else by_regex
  | None => by_regex
  end.

(** [match_screen]. *)
Definition match_screen (snapshot : Snapshot) (screen_id : ScreenId)
  : Py.result (bool * option Py.str) :=
  let dims_differ :=
    match sid_match screen_id with
    | Some match_rules =>
        match m_cols match_rules with
        | Some c => negb (opt_Z_eqb (snap_cols snapshot) c)
        | None => false
        end
        || match m_rows match_rules with
           | Some r => negb (opt_Z_eqb (snap_rows snapshot) r)
           | None => false
           end
    | None => false
    end in
  if dims_differ then Ok (false, None)
  else
    let unstable :=
      match sid_stability screen_id with
      | Some stability =>
          match min_chars stability with
          | Some n => count_chars (ascii_of snapshot) <? n
          | None => false
          end
      | None => false
      end in
    if unstable then Ok (false, None)
    else match_content (ascii_of snapshot) screen_id.

End Matching.

(** *** Golden snapshots *)

(** The two files of a golden: the text, and the metadata. *)
Record GoldenFiles : Type := mkGoldenFiles {
  g_text : Py.str;
  g_digest : option Py.str;
  g_rows : Z;
  g_cols : Z;
  g_field_count : Z;
  g_cursor : Z * Z }.

(** The directory of the goldens, by name; a later [save_golden] of a name
    hides the earlier ones. *)
Definition GoldenDir : Type := list (Py.str * GoldenFiles).

Fixpoint lookup (name : Py.str) (dir : GoldenDir) : option GoldenFiles :=
  match dir with
  | [] => None
  | (n, g) :: dir' => if Py.str_eqb n name then Some g else lookup name dir'
  end.

Definition opt_default {A : Type} (o : option A) (d : A) : A :=
  match o with Some a => a | None => d end.

(** [save_golden]. *)
Definition save_golden (name : Py.str) (snapshot : Snapshot) (dir : GoldenDir)
  : GoldenDir :=
  let metadata :=
    mkGoldenFiles
      (ascii_of snapshot)
      (Some (opt_default (snap_digest snapshot) (compute_digest (ascii_of snapshot))))
      (opt_default (snap_rows snapshot) 24)
      (opt_default (snap_cols snapshot) 80)
      (Z.of_nat (length (opt_default (snap_fields snapshot) [])))
      (opt_default (snap_cursor snapshot) (0, 0)) in
  (name, metadata) :: dir.

(** [load_golden]; [None] stands for [FileNotFoundError]. *)
Definition load_golden (name : Py.str) (dir : GoldenDir) : option Snapshot :=
  match lookup name dir with
  | None => None
  | Some g =>
      Some (mkSnapshot (Some (g_rows g)) (Some (g_cols g)) (Some (g_cursor g))
                       (Some (g_text g)) (Some []) (g_digest g))
  end.

(** [str.splitlines()], for the line boundaries below 256: LF, CR, CR LF,
    VT, FF, FS, GS, RS and NEL. *)
Definition is_linebreak (c : ascii) : bool :=
  let n := N_of_ascii c in
  (((10 <=? n) && (n <=? 13)) || ((28 <=? n) && (n <=? 30)) || (n =? 133))%N.

Fixpoint splitlines_from (cur : Py.str) (s : Py.str) : list Py.str :=
  match s with
  | [] => match cur with [] => [] | _ => [rev cur] end
  | c :: s' =>
      if is_linebreak c then
        match s' with
        | d :: s'' =>
            if (N_of_ascii c =? 13)%N && (N_of_ascii d =? 10)%N
            then rev cur :: splitlines_from [] s''
            else rev cur :: splitlines_from [] s'
        | [] => [rev cur]
        end
      else splitlines_from (c :: cur) s'
  end.

Definition splitlines (s : Py.str) : list Py.str := splitlines_from [] s.

Section Golden.

(** [difflib.unified_diff(a, b, fromfile, tofile, lineterm='', n=3)], as
    the list of its lines. *)
Variable unified_diff :
  list Py.str -> list Py.str -> Py.str -> Py.str -> list Py.str.

(** [assert_golden]. *)
Definition assert_golden (name : Py.str) (snapshot : Snapshot) (dir : GoldenDir)
  : bool * Py.str :=
  match load_golden name dir with
  | None => (false, "Golden '" ++ name ++ "' not found")
  | Some golden =>
      let current_digest := compute_digest (ascii_of snapshot) in
      let golden_digest := snap_digest golden in
      let same :=
        match golden_digest with
        | Some d => Py.str_eqb current_digest d
        | None => false
        end in
      if same then (true, "Digests match" : Py.str)
      else
        let golden_lines := splitlines (ascii_of golden) in
        let current_lines := splitlines (ascii_of snapshot) in
        let diff := unified_diff golden_lines current_lines
                                 ("golden/" ++ name) "current" in
        (false, Py.join [newline] diff)
  end.

End Golden.

End Fingerprint.

(** ** ai/observability.py *)

Module Observability.

(** The values a parameter dictionary holds. *)
Inductive value : Type :=
| VNone
| VBool (b : bool)
| VInt (n : Z)
| VStr (s : Py.str)
| VList (l : list value)
| VDict (d : list (Py.str * value)).

(** A dictionary, as its items in insertion order; the keys of a Python
    dictionary are pairwise distinct. *)
Definition dict : Type := list (Py.str * value).

(** [self.redact_keys]. *)
Definition redact_keys : list Py.str :=
  [ "pwd" : Py.str; "pass" : Py.str; "password" : Py.str; "pin" : Py.str;
    "secret" : Py.str; "key" : Py.str; "token" : Py.str;
    "credential" : Py.str; "auth" : Py.str; "api_key" : Py.str;
    "private" : Py.str ].

Definition REDACTED : Py.str := "***REDACTED***".

(** The value stored under [key] by one turn of the loop of
    [_redact_params], the recursive call on a nested dictionary included. *)
Fixpoint redact_item (key : Py.str) (v : value) {struct v} : value :=
  if Py.any_in redact_keys (Py.lower key) then VStr REDACTED
  else
    match v with
    | VDict d =>
        VDict ((fix items (d : list (Py.str * value)) :=
                  match d with
                  | [] => []
                  | (k, x) :: d' => (k, redact_item k x) :: items d'
                  end) d)
    | VStr s =>
        if (4 <? Z.of_nat (length s))
           && Py.any_in ["user" : Py.str; "id" : Py.str] (Py.lower key)
        then VStr s
        else if Py.any_in redact_keys (Py.lower s) then VStr REDACTED
        else VStr s
    | _ => v
    end.

(** [JSONLLogger._redact_params]: every key of [params] keeps its place
    and gets the value [redact_item] gives it; an empty [params] gives the
    empty dictionary. *)
Fixpoint _redact_params (params : dict) : dict :=
  match params with
  | [] => []
  | (key, v) :: params' => (key, redact_item key v) :: _redact_params params'
  end.

End Observability.

(** ** bridge/tn3270_bridge/session.py *)

Module Session.

(** [StatusLine], without [exec_time]. *)
Record StatusLine : Type := mkStatusLine {
  keyboard_state : Py.str;
  screen_formatting : Py.str;
  field_protection : Py.str;
  connection_state : Py.str;
  emulator_mode : Py.str;
  model_number : Py.str;
  rows : Z;
  cols : Z;
  cursor_row : Z;
  cursor_col : Z;
  window_id : Py.str }.

(** [line.split()]: the words between runs of white space. *)
Fixpoint split_ws_from (cur : Py.str) (s : Py.str) : list Py.str :=
  match s with
  | [] => match cur with [] => [] | _ => [rev cur] end
  | c :: s' =>
      if Py.isspace c then
        match cur with
        | [] => split_ws_from [] s'
        | _ => rev cur :: split_ws_from [] s'
        end
      else split_ws_from (c :: cur) s'
  end.

Definition split_ws (s : Py.str) : list Py.str := split_ws_from [] s.

(** [line and line[0] in "LUEFN" and len(line.split()) >= 12]. *)
Definition looks_like_status (line : Py.str) : bool :=
  match line with
  | [] => false
  | c :: _ =>
      existsb (Ascii.eqb c) ("LUEFN" : Py.str)
      && (12 <=? length (split_ws line))%nat
  end.

Section Driver.

(** The s3270 subprocess, with its pipes, its reader thread and the queue
    of its output. *)
Variable Proc : Type.

(** [subprocess.Popen] of s3270, with the trace file if there is one. *)
Variable popen : option Py.str -> Py.result Proc.

(** [process.poll() is None]. *)
Variable running : Proc -> bool.

(** A command written to the process, and the lines collected in answer
    until "ok", "error" or the timeout. *)
Variable exchange : Py.str -> Proc -> Proc * list Py.str.

(** [StatusLine.parse]; [None] stands for [ValueError]. *)
Variable parse : Py.str -> option StatusLine.

Record S3270Session : Type := mkSession {
  process : option Proc;
  trace_file : option Py.str;
  connected : bool;
  last_status : option StatusLine;
  model : Py.str }.

Definition set_process (p : option Proc) (s : S3270Session) : S3270Session :=
  mkSession p (trace_file s) (connected s) (last_status s) (model s).

Definition set_connected (b : bool) (s : S3270Session) : S3270Session :=
  mkSession (process s) (trace_file s) b (last_status s) (model s).

Definition set_last_status (st : option StatusLine) (s : S3270Session)
  : S3270Session :=
  mkSession (process s) (trace_file s) (connected s) st (model s).

(** [start]. *)
Definition start : Eff.M S3270Session unit :=
  fun s =>
    let already :=
      match process s with Some p => running p | None => false end in
    if already then (s, Ok tt)
    else match popen (trace_file s) with
         | Ok p => (set_process (Some p) s, Ok tt)
         | Raise e => (s, Raise e)
         end.

(** The status line kept from a response: the last line that looks like
    one and parses. *)
Definition note_status (st : option StatusLine) (line : Py.str)
  : option StatusLine :=
  if looks_like_status line then
    match parse line with Some st' => Some st' | None => st end
  else st.

(** [_send_command]. *)
Definition _send_command (command : Py.str) : Eff.M S3270Session (list Py.str) :=
  fun s =>
    match process s with
    | None => (s, Raise (Exn RuntimeError "s3270 process not running"))
    | Some p =>
        if negb (running p)
        then (s, Raise (Exn RuntimeError "s3270 process not running"))
        else
          let '(p', response) := exchange command p in
          let s' := set_process (Some p') s in
          (set_last_status (fold_left note_status response (last_status s')) s',
           Ok response)
    end.

(** [connect]. *)
Definition connect (host : Py.str) : Eff.M S3270Session bool :=
  if negb (Py.startswith "127.0.0.1:" host || Py.startswith "localhost:" host)
  then Eff.raise (Exn ValueError "Only localhost connections allowed")
  else
    no_process <~ Eff.gets (fun s => match process s with
                                     | None => true | Some _ => false end) ;;
    (if no_process then start else Eff.ret tt) ;;;
    response <~ _send_command ("Connect(" ++ host ++ ")") ;;
    status <~ Eff.gets last_status ;;
    match status with
    | Some st =>
        if Py.str_eqb (connection_state st) "C" then
          Eff.modify (set_connected true) ;;;
          _send_command "Wait(InputField)" ;;;
          Eff.ret true
        else Eff.ret false
    | None => Eff.ret false
    end.

End Driver.

End Session.

(** ** tools/flow_runner.py *)

Module FlowRunner.
Import Fingerprint.

(** One entry of the transcript. *)
Record Entry : Type := mkEntry {
  e_timestamp : Py.str;
  e_action : Py.str;
  e_result : Py.str;
  e_digest : option Py.str }.

(** The parameters of a step: the keys [execute_step] reads, and the
    screen ID that [assert_screen] and [assert_not_screen] hand to
    [match_screen]. *)
Record Params : Type := mkParams {
  p_timeout_ms : option Z;
  p_aid : option Py.str;
  p_row : option Z;
  p_col : option Z;
  p_value_env : option Py.str;
  p_value : option Py.str;
  p_secret : option bool;
  p_label : option Py.str;
  p_offset : option Z;
  p_name : option Py.str;
  p_ms : option Z;
  p_screen_id : ScreenId }.

(** The empty dictionary. *)
Definition no_params : Params :=
  mkParams None None None None None None None None None None None
           (mkScreenId None None None None None).

(** What a step holds under its key: a dictionary, an integer, or
    something else. *)
Inductive StepValue : Type :=
| SDict (params : Params)
| SInt (n : Z)
| SOther.

(** A step: a dictionary, as its items in order. *)
Definition Step : Type := list (Py.str * StepValue).

(** A recovery rule. *)
Record RecoveryRule : Type := mkRecoveryRule {
  when_ascii_contains : option Py.str;
  rule_do : option (list Step) }.

(** A flow.  Each import is the name of a file of the flows directory and
    the flow that file holds, when it exists. *)
Inductive Flow : Type :=
| mkFlow (name : option Py.str)
         (imports : option (list (Py.str * option Flow)))
         (steps : option (list Step))
         (recovery : option (list RecoveryRule)).

(** The collaborators of the runner: the bridge API, the clocks, the regex
    engine and difflib.  [W] is the state of the world they act on. *)
Record Driver (W : Type) : Type := mkDriver {
  (** GET /screen, [raise_for_status], [json] *)
  api_screen : W -> W * Py.result Snapshot;
  (** GET /status, [json], [get('connected')] *)
  api_status : W -> W * Py.result bool;
  (** POST /press: the status code *)
  api_press : Py.str -> W -> W * Py.result Z;
  (** POST /fill: the status code *)
  api_fill : Z -> Z -> Py.str -> W -> W * Py.result Z;
  (** POST /fill_by_label: the status code *)
  api_fill_by_label : Py.str -> Z -> Py.str -> W -> W * Py.result Z;
  (** [datetime.now().isoformat()] *)
  now_iso : W -> W * Py.str;
  (** [datetime.now().strftime("%Y%m%d_%H%M%S")] *)
  now_stamp : W -> W * Py.str;
  (** [time.time()], in milliseconds *)
  time_ms : W -> W * Z;
  (** [time.sleep], in milliseconds *)
  sleep : Z -> W -> W;
  re_search : Py.str -> Py.str -> Py.result bool;
  unified_diff : list Py.str -> list Py.str -> Py.str -> Py.str -> list Py.str;
  (** the polls a wait loop makes at most before its timeout *)
  max_polls : nat }.

Arguments api_screen {W}.
Arguments api_status {W}.
Arguments api_press {W}.
Arguments api_fill {W}.
Arguments api_fill_by_label {W}.
Arguments now_iso {W}.
Arguments now_stamp {W}.
Arguments time_ms {W}.
Arguments sleep {W}.
Arguments re_search {W}.
Arguments unified_diff {W}.
Arguments max_polls {W}.

(** The runner: its attributes, the files it writes, what it prints, and
    the world. *)
Record Runner (W : Type) : Type := mkRunner {
  trace : bool;
  env_vars : list (Py.str * Py.str);
  current_digest : option Py.str;
  transcript : list Entry;
  save_goldens_flag : bool;
  assert_goldens_flag : bool;
  goldens : GoldenDir;
  failure_files : list (Py.str * Py.str);
  stdout : list Py.str;
  world : W }.

Arguments mkRunner {W}.
Arguments trace {W}.
Arguments env_vars {W}.
Arguments current_digest {W}.
Arguments transcript {W}.
Arguments save_goldens_flag {W}.
Arguments assert_goldens_flag {W}.
Arguments goldens {W}.
Arguments failure_files {W}.
Arguments stdout {W}.
Arguments world {W}.

Section Run.
Context {W : Type} (drv : Driver W).

Let R : Type := Runner W.

Definition set_world (w : W) (r : R) : R :=
  mkRunner (trace r) (env_vars r) (current_digest r) (transcript r)
           (save_goldens_flag r) (assert_goldens_flag r) (goldens r)
           (failure_files r) (stdout r) w.

Definition set_current_digest (d : option Py.str) (r : R) : R :=
  mkRunner (trace r) (env_vars r) d (transcript r)
           (save_goldens_flag r) (assert_goldens_flag r) (goldens r)
           (failure_files r) (stdout r) (world r).

Definition add_entry (e : Entry) (r : R) : R :=
  mkRunner (trace r) (env_vars r) (current_digest r) (transcript r ++ [e])
           (save_goldens_flag r) (assert_goldens_flag r) (goldens r)
           (failure_files r) (stdout r) (world r).

Definition set_goldens (g : GoldenDir) (r : R) : R :=
  mkRunner (trace r) (env_vars r) (current_digest r) (transcript r)
           (save_goldens_flag r) (assert_goldens_flag r) g
           (failure_files r) (stdout r) (world r).

Definition add_failure_file (f : Py.str * Py.str) (r : R) : R :=
  mkRunner (trace r) (env_vars r) (current_digest r) (transcript r)
           (save_goldens_flag r) (assert_goldens_flag r) (goldens r)
           (failure_files r ++ [f]) (stdout r) (world r).

Definition print (line : Py.str) (r : R) : R :=
  mkRunner (trace r) (env_vars r) (current_digest r) (transcript r)
           (save_goldens_flag r) (assert_goldens_flag r) (goldens r)
           (failure_files r) (stdout r ++ [line]) (world r).

(** A call that acts on the world and returns. *)
Definition call {A : Type} (f : W -> W * A) : Eff.M R A :=
  fun r => let '(w, a) := f (world r) in (set_world w r, Ok a).

(** A call that acts on the world and returns or raises. *)
Definition call_result {A : Type} (f : W -> W * Py.result A) : Eff.M R A :=
  fun r => let '(w, a) := f (world r) in (set_world w r, a).

(** [self.current_digest[:16] if self.current_digest else None]. *)
Definition short_digest (d : option Py.str) : option Py.str :=
  match d with
  | Some (c :: t) => Some (Py.prefix 16 (c :: t))
  | _ => None
  end.

(** The runner after [log_transcript], given the time it reads. *)
Definition logged (timestamp action result : Py.str) (secret : bool) (r : R)
  : R :=
  let result :=
    if secret && negb (Py.blank_str result) then "***REDACTED***" : Py.str
    else result in
  let r := add_entry (mkEntry timestamp action result
                              (short_digest (current_digest r))) r in
  if trace r
  then print ("[" ++ timestamp ++ "] " ++ action ++ ": " ++ result) r
  else r.

(** [log_transcript]. *)
Definition log_transcript (action result : Py.str) (secret : bool)
  : Eff.M R unit :=
  timestamp <~ call (now_iso drv) ;;
  Eff.modify (logged timestamp action result secret).

(** [save_failure_screen]. *)
Definition save_failure_screen (flow_name screen_text : Py.str)
  : Eff.M R unit :=
  timestamp <~ call (now_stamp drv) ;;
  Eff.modify (add_failure_file
    (flow_name ++ "_" ++ timestamp ++ "_fail.txt",
     "Failed screen dump at " ++ timestamp ++ [newline]
     ++ repeat "="%char 80 ++ [newline]
     ++ screen_text
     ++ [newline] ++ repeat "="%char 80 ++ [newline])).

(** [get_screen]. *)
Definition get_screen : Eff.M R Snapshot :=
  snapshot <~ call_result (api_screen drv) ;;
  Eff.modify (set_current_digest (snap_digest snapshot)) ;;;
  Eff.ret snapshot.

(** The loop of [wait_ready]: the status is asked for while the timeout
    has not elapsed; an exception counts as not connected. *)
Fixpoint wait_ready_loop (polls : nat) (start timeout_ms : Z) : Eff.M R bool :=
  match polls with
  | O => Eff.ret false
  | S polls' =>
      now <~ call (time_ms drv) ;;
      if now - start <? timeout_ms then
        connected <~ Eff.try_except (call_result (api_status drv))
                                    (fun _ => Eff.ret false) ;;
        if connected then Eff.ret true
        else
          call (fun w => (sleep drv 100 w, tt)) ;;;
          wait_ready_loop polls' start timeout_ms
      else Eff.ret false
  end.

Definition wait_ready (timeout_ms : Z) : Eff.M R bool :=
  start <~ call (time_ms drv) ;;
  wait_ready_loop (max_polls drv) start timeout_ms.

Definition opt_str_eqb (a b : option Py.str) : bool :=
  match a, b with
  | Some x, Some y => Py.str_eqb x y
  | None, None => true
  | _, _ => false
  end.

(** The loop of [wait_change]. *)
Fixpoint wait_change_loop (polls : nat) (start timeout_ms : Z)
         (initial_digest : option Py.str) : Eff.M R bool :=
  match polls with
  | O => Eff.ret false
  | S polls' =>
      now <~ call (time_ms drv) ;;
      if now - start <? timeout_ms then
        snapshot <~ get_screen ;;
        if negb (opt_str_eqb (snap_digest snapshot) initial_digest)
        then Eff.ret true
        else
          call (fun w => (sleep drv 100 w, tt)) ;;;
          wait_change_loop polls' start timeout_ms initial_digest
      else Eff.ret false
  end.

Definition wait_change (timeout_ms : Z) : Eff.M R bool :=
  start <~ call (time_ms drv) ;;
  initial_digest <~ Eff.gets current_digest ;;
  wait_change_loop (max_polls drv) start timeout_ms initial_digest.

(** [press]. *)
Definition press (aid : Py.str) : Eff.M R bool :=
  log_transcript ("press: " ++ aid) "" false ;;;
  status_code <~ call_result (api_press drv aid) ;;
  Eff.ret (status_code =? 200).

(** [fill_at]. *)
Definition fill_at (row col : Z) (value : Py.str) (secret : bool)
  : Eff.M R bool :=
  let display_value := if secret then "***REDACTED***" : Py.str else value in
  log_transcript ("fill_at: (" ++ Py.str_of_int row ++ ","
                  ++ Py.str_of_int col ++ ") = " ++ display_value) "" secret ;;;
  status_code <~ call_result (api_fill drv row col value) ;;
  Eff.ret (status_code =? 200).

(** [fill_by_label]. *)
Definition fill_by_label (label : Py.str) (offset : Z) (value : Py.str)
           (secret : bool) : Eff.M R bool :=
  let display_value := if secret then "***REDACTED***" : Py.str else value in
  log_transcript ("fill_by_label: " ++ label ++ "+" ++ Py.str_of_int offset
                  ++ " = " ++ display_value) "" secret ;;;
  status_code <~ call_result (api_fill_by_label drv label offset value) ;;
  Eff.ret (status_code =? 200).

(** [params[key]]. *)
Definition item {A : Type} (o : option A) (key : Py.str) : Eff.M R A :=
  match o with
  | Some a => Eff.ret a
  | None => Eff.raise (Exn KeyError ("'" ++ key ++ "'"))
  end.

(** [d.get(key, default)]. *)
Definition get_default {A : Type} (o : option A) (default : A) : A :=
  match o with Some a => a | None => default end.

Fixpoint env_get (env : list (Py.str * Py.str)) (key default : Py.str)
  : Py.str :=
  match env with
  | [] => default
  | (k, v) :: env' => if Py.str_eqb k key then v else env_get env' key default
  end.

(** The value of a fill step: from the environment or from the step. *)
Definition fill_value (params : Params) : Eff.M R Py.str :=
  match p_value_env params with
  | Some var => Eff.gets (fun r => env_get (env_vars r) var "")
  | None => Eff.ret (get_default (p_value params) "")
  end.

(** The body of the [try] of [execute_step]. *)
Definition dispatch (step_type : Py.str) (params : Params) : Eff.M R bool :=
  if Py.str_eqb step_type "wait_ready" then
    let timeout := get_default (p_timeout_ms params) 5000 in
    success <~ wait_ready timeout ;;
    log_transcript ("wait_ready: " ++ Py.str_of_int timeout ++ "ms")
                   (if success then "ready" else "timeout") false ;;;
    Eff.ret success
  else if Py.str_eqb step_type "wait_change" then
    let timeout := get_default (p_timeout_ms params) 5000 in
    success <~ wait_change timeout ;;
    log_transcript ("wait_change: " ++ Py.str_of_int timeout ++ "ms")
                   (if success then "changed" else "timeout") false ;;;
    Eff.ret success
  else if Py.str_eqb step_type "press" then
    press (get_default (p_aid params) "Enter")
  else if Py.str_eqb step_type "fill_at" then
    row <~ item (p_row params) "row" ;;
    col <~ item (p_col params) "col" ;;
    value <~ fill_value params ;;
    fill_at row col value (get_default (p_secret params) false)
  else if Py.str_eqb step_type "fill_by_label" then
    label <~ item (p_label params) "label" ;;
    let offset := get_default (p_offset params) 1 in
    value <~ fill_value params ;;
    fill_by_label label offset value (get_default (p_secret params) false)
  else if Py.str_eqb step_type "assert_screen" then
    snapshot <~ get_screen ;;
    m <~ (fun r => (r, match_screen (re_search drv) snapshot
                                    (p_screen_id params))) ;;
    let '(matched, rule) := m in
    (if matched then
       log_transcript "assert_screen"
                      ("matched: " ++ get_default rule "None") false
     else
       log_transcript "assert_screen" "FAILED" false ;;;
       save_failure_screen "assert_fail" (ascii_of snapshot)) ;;;
    Eff.ret matched
  else if Py.str_eqb step_type "assert_not_screen" then
    snapshot <~ get_screen ;;
    m <~ (fun r => (r, match_screen (re_search drv) snapshot
                                    (p_screen_id params))) ;;
    let '(matched, rule) := m in
    (if negb matched then
       log_transcript "assert_not_screen" "passed" false
     else
       log_transcript "assert_not_screen"
                      ("FAILED: matched " ++ get_default rule "None") false ;;;
       save_failure_screen "assert_fail" (ascii_of snapshot)) ;;;
    Eff.ret (negb matched)
  else if Py.str_eqb step_type "snapshot" then
    let name := get_default (p_name params) "snapshot" in
    snapshot <~ get_screen ;;
    log_transcript ("snapshot: " ++ name) "" false ;;;
    save <~ Eff.gets save_goldens_flag ;;
    (if save
     then Eff.modify (fun r => set_goldens (save_golden name snapshot (goldens r)) r)
     else Eff.ret tt) ;;;
    Eff.ret true
  else if Py.str_eqb step_type "golden:save" then
    name <~ item (p_name params) "name" ;;
    snapshot <~ get_screen ;;
    Eff.modify (fun r => set_goldens (save_golden name snapshot (goldens r)) r) ;;;
    log_transcript ("golden:save: " ++ name) "" false ;;;
    Eff.ret true
  else if Py.str_eqb step_type "golden:assert" then
    name <~ item (p_name params) "name" ;;
    snapshot <~ get_screen ;;
    res <~ Eff.gets (fun r => assert_golden (unified_diff drv) name snapshot
                                            (goldens r)) ;;
    let '(matches, diff) := res in
    (if matches then
       log_transcript ("golden:assert: " ++ name) "matches" false
     else
       log_transcript ("golden:assert: " ++ name) "FAILED" false ;;;
       tr <~ Eff.gets trace ;;
       if tr then Eff.modify (print ("Diff:" ++ [newline] ++ diff))
       else Eff.ret tt) ;;;
    Eff.ret matches
  else if Py.str_eqb step_type "sleep_ms" then
    let ms := get_default (p_ms params) 1000 in
    (if ms <? 0
     then Eff.raise (Exn ValueError "sleep length must be non-negative")
     else call (fun w => (sleep drv ms w, tt))) ;;;
    log_transcript ("sleep: " ++ Py.str_of_int ms ++ "ms") "" false ;;;
    Eff.ret true
  else
    log_transcript ("unknown step: " ++ step_type) "SKIPPED" false ;;;
    Eff.ret true.

(** [execute_step].  The first key of the step is read outside the [try]:
    an empty step raises. *)
Definition execute_step (step : Step) : Eff.M R bool :=
  match step with
  | [] => Eff.raise (Exn IndexError "list index out of range")
  | (step_type, v) :: _ =>
      let params := match v with SDict d => d | _ => no_params end in
      Eff.try_except
        (dispatch step_type params)
        (fun e =>
           log_transcript step_type ("ERROR: " ++ exn_msg e) false ;;;
           Eff.ret false)
  end.

(** The loop over the actions of a recovery rule. *)
Fixpoint run_actions (actions : list Step) : Eff.M R bool :=
  match actions with
  | [] => Eff.ret true
  | action :: actions' =>
      ok <~ execute_step action ;;
      if ok then run_actions actions' else Eff.ret false
  end.

(** The loop over the rules of [handle_recovery]. *)
Fixpoint scan_rules (ascii_text : Py.str) (rules : list RecoveryRule)
  : Eff.M R bool :=
  match rules with
  | [] => Eff.ret false
  | rule :: rules' =>
      match when_ascii_contains rule with
      | Some t =>
          if Py.contains t ascii_text then
            log_transcript ("Recovery triggered: " ++ t) "" false ;;;
            run_actions (get_default (rule_do rule) [])
          else scan_rules ascii_text rules'
      | None => scan_rules ascii_text rules'
      end
  end.

(** [handle_recovery]. *)
Definition handle_recovery (recovery : list RecoveryRule) : Eff.M R bool :=
  snapshot <~ get_screen ;;
  scan_rules (ascii_of snapshot) recovery.

(** The loop over the steps of [execute_flow]; [i] is the index of the
    head of [steps]. *)
Fixpoint run_steps (recovery : option (list RecoveryRule)) (i : nat)
         (steps : list Step) : Eff.M R bool :=
  match steps with
  | [] => Eff.ret true
  | step :: steps' =>
      ok <~ execute_step step ;;
      if ok then run_steps recovery (S i) steps'
      else
        recovered <~ match recovery with
                     | Some rules => handle_recovery rules
                     | None => Eff.ret false
                     end ;;
        if recovered then run_steps recovery (S i) steps'
        else
          log_transcript ("Flow failed at step "
                          ++ Py.str_of_int (Z.of_nat i + 1)) "" false ;;;
          Eff.ret false
  end.

(** [execute_flow]. *)
Fixpoint execute_flow (flow : Flow) {struct flow} : Eff.M R bool :=
  match flow with
  | mkFlow name imports steps recovery =>
      let flow_name := get_default name "unnamed" in
      let run_imports :=
        fix run_imports (l : list (Py.str * option Flow)) {struct l}
          : Eff.M R bool :=
          match l with
          | [] => Eff.ret true
          | (import_file, Some imported) :: l' =>
              log_transcript ("Importing: " ++ import_file) "" false ;;;
              ok <~ execute_flow imported ;;
              if ok then run_imports l' else Eff.ret false
          | (_, None) :: l' => run_imports l'
          end in
      log_transcript ("Starting flow: " ++ flow_name) "" false ;;;
      imported_ok <~ match imports with
                     | Some l => run_imports l
                     | None => Eff.ret true
                     end ;;
      if negb imported_ok then Eff.ret false
      else
        ok <~ run_steps recovery 0 (get_default steps []) ;;
        if ok then
          log_transcript ("Flow completed: " ++ flow_name) "" false ;;;
          Eff.ret true
        else Eff.ret false
  end.

End Run.

End FlowRunner.

(** ** parser.py and screen_fingerprint.py: the queries on fields *)

Module FieldQueries.
Import Parser.

(** [find_fields_at_position]: the first field whose span, on a screen of
    80 columns, holds the position. *)
Fixpoint find_fields_at_position (fields : list Field) (row col : Z)
  : option Field :=
  match fields with
  | [] => None
  | field :: fields' =>
      let field_start := (Parser.row field - 1) * 80 + Parser.col field in
      let field_end := field_start + len field in
      let pos := (row - 1) * 80 + col in
      if (field_start <=? pos) && (pos <? field_end) then Some field
      else find_fields_at_position fields' row col
  end.

(** [find_unprotected_fields]. *)
Definition find_unprotected_fields (fields : list Field) : list Field :=
  filter (fun f => negb (protected (attrs f))) fields.

(** [screen_fingerprint.find_input_fields], on the field list of the
    snapshot ([snapshot.get('fields', [])]). *)
Definition find_input_fields (snapshot : Fingerprint.Snapshot) : list Field :=
  filter (fun f => negb (field_protected f))
         (Fingerprint.opt_default (Fingerprint.snap_fields snapshot) []).

(** [line.index(label)], when [label in line]. *)
Fixpoint index (label line : Py.str) : nat :=
  if Py.startswith label line then O
  else match line with
       | [] => O
       | _ :: line' => S (index label line')
       end.

(** The first element that satisfies [p]: a [for] loop that returns on
    the first hit. *)
Fixpoint first_such {A : Type} (p : A -> bool) (l : list A) : option A :=
  match l with
  | [] => None
  | x :: l' => if p x then Some x else first_such p l'
  end.

(** The loop of [find_field_by_preceding_text] over the lines; [row] is
    the number of the head of [lines]. *)
Fixpoint preceding_text_loop (fields : list Field) (label : Py.str) (row : Z)
         (lines : list Py.str) : option Field :=
  match lines with
  | [] => None
  | line :: lines' =>
      if Py.contains label line then
        let label_col := Z.of_nat (index label line) + Z.of_nat (length label) in
        match first_such (fun f => (Parser.row f =? row) && (label_col <? Parser.col f))
                         (find_unprotected_fields fields) with
        | Some f => Some f
        | None =>
            match first_such (fun f => row <? Parser.row f)
                             (find_unprotected_fields fields) with
            | Some f => Some f
            | None => preceding_text_loop fields label (row + 1) lines'
            end
        end
      else preceding_text_loop fields label (row + 1) lines'
  end.

(** [find_field_by_preceding_text]. *)
Definition find_field_by_preceding_text (fields : list Field)
           (ascii_text label : Py.str) : option Field :=
  preceding_text_loop fields label 1 (Py.split Fingerprint.newline ascii_text).

End FieldQueries.

(** ** screen_fingerprint.py: the position of a label *)

Module LabelQueries.
Import Fingerprint.

(** The loop [while field_col > cols: field_row += 1; field_col -= cols]
    of [get_field_at_label], run for at most [turns] turns; [None] when the
    loop has not ended by then. *)
Fixpoint wrap_loop (turns : nat) (cols field_row field_col : Z)
  : option (Z * Z) :=
  match turns with
  | O => if field_col >? cols then None else Some (field_row, field_col)
  | S turns' =>
      if field_col >? cols
      then wrap_loop turns' cols (field_row + 1) (field_col - cols)
      else Some (field_row, field_col)
  end.

(** The loop of [get_field_at_label] over the lines; [row_idx] is the index
    of the head of [lines]. *)
Fixpoint label_loop (turns : nat) (label : Py.str) (offset cols row_idx : Z)
         (lines : list Py.str) : option (option (Z * Z)) :=
  match lines with
  | [] => Some None
  | line :: lines' =>
      if Py.contains label line then
        let label_pos := Z.of_nat (FieldQueries.index label line) in
        let field_col := label_pos + Z.of_nat (length label) + offset in
        let field_row := row_idx + 1 in
        option_map Some (wrap_loop turns cols field_row field_col)
      else label_loop turns label offset cols (row_idx + 1) lines'
  end.

(** [get_field_at_label]: [Some (Some (row, col))] for the dictionary
    [{'row', 'col', 'found': True}], [Some None] for [None], and [None] when
    the wrapping loop has not ended after [turns] turns. *)
Definition get_field_at_label (turns : nat) (snapshot : Snapshot)
           (label : Py.str) (offset : Z) : option (option (Z * Z)) :=
  label_loop turns label offset (opt_default (snap_cols snapshot) 80) 0
             (Py.split newline (ascii_of snapshot)).

End LabelQueries.

(** ** session.py: the operations on a connected session *)

Module SessionOps.
Import Session.

Definition dquote : ascii := ascii_of_N 34.
Definition backslash : ascii := ascii_of_N 92.

(** [s.replace(old, new)] for [old] of one character. *)
Definition replace_char (old : ascii) (new s : Py.str) : Py.str :=
  flat_map (fun c => if Ascii.eqb c old then new else [c]) s.

(** [str.upper] on one character below 256, as code points: the capital
    of the sharp s is two letters, and the capitals of the micro sign and
    of the y with diaeresis lie above 255. *)
Definition upper_char (c : ascii) : list N :=
  let n := N_of_ascii c in
  (if ((97 <=? n) && (n <=? 122))
      || ((224 <=? n) && (n <=? 254) && negb (n =? 247))
   then [n - 32]
   else if n =? 223 then [83; 83]
   else if n =? 181 then [924]
   else if n =? 255 then [376]
   else [n])%N.

Definition upper (s : Py.str) : list N := flat_map upper_char s.

(** The code points of a string. *)
Definition codes (s : Py.str) : list N := map N_of_ascii s.

Fixpoint codes_eqb (a b : list N) : bool :=
  match a, b with
  | [], [] => true
  | x :: a', y :: b' => (x =? y)%N && codes_eqb a' b'
  | _, _ => false
  end.

Fixpoint codes_startswith (p s : list N) : bool :=
  match p, s with
  | [], _ => true
  | _ :: _, [] => false
  | x :: p', y :: s' => (x =? y)%N && codes_startswith p' s'
  end.

(** The text [send_text] puts between the quotes of [String("...")]. *)
Definition escape (text : Py.str) : Py.str :=
  replace_char backslash [backslash; backslash]
    (replace_char dquote [backslash; dquote] text).

(** The position [fill_by_label] fills, for a label found on the line of
    index [i] with [col_pos = line.index(label) + len(label) + offset]. *)
Definition label_position (i : nat) (col_pos : Z) : Z * Z :=
  let row_pos := Z.of_nat i + 1 in
  if col_pos >? 80 then (row_pos + col_pos / 80, col_pos mod 80)
  else (row_pos, col_pos).

Section Driver.

Variable Proc : Type.
Variable running : Proc -> bool.
Variable exchange : Py.str -> Proc -> Proc * list Py.str.
Variable parse : Py.str -> option StatusLine.

Let S : Type := S3270Session Proc.

Definition send (command : Py.str) : Eff.M S (list Py.str) :=
  _send_command Proc running exchange parse command.

(** [disconnect]. *)
Definition disconnect : Eff.M S unit :=
  is_connected <~ Eff.gets (@connected Proc) ;;
  if is_connected then
    send "Disconnect" ;;;
    Eff.modify (set_connected Proc false)
  else Eff.ret tt.

(** [send_text]. *)
Definition send_text (text : Py.str) : Eff.M S unit :=
  let text := escape text in
  send ("String(" ++ [dquote] ++ text ++ [dquote] ++ ")") ;;;
  Eff.ret tt.

(** [press]. *)
Definition press (aid : Py.str) : Eff.M S unit :=
  if codes_eqb (upper aid) (codes "ENTER") then
    send "Enter" ;;; Eff.ret tt
  else if codes_startswith (codes "PF") (upper aid) then
    let num := skipn 2 aid in
    send ("PF(" ++ num ++ ")") ;;; Eff.ret tt
  else if codes_startswith (codes "PA") (upper aid) then
    let num := skipn 2 aid in
    send ("PA(" ++ num ++ ")") ;;; Eff.ret tt
  else if codes_eqb (upper aid) (codes "CLEAR") then
    send "Clear" ;;; Eff.ret tt
  else Eff.raise (Exn ValueError ("Unknown AID key: " ++ aid)).

(** [move_cursor]. *)
Definition move_cursor (row col : Z) : Eff.M S unit :=
  send ("MoveCursor(" ++ Py.str_of_int row ++ "," ++ Py.str_of_int col ++ ")") ;;;
  Eff.ret tt.

(** [fill_at]; it returns the row, the column and the length of the
    text. *)
Definition fill_at (row col : Z) (text : Py.str) (enter : bool)
  : Eff.M S (Z * Z * Z) :=
  move_cursor row col ;;;
  send_text text ;;;
  (if enter then press "Enter" else Eff.ret tt) ;;;
  Eff.ret (row, col, Z.of_nat (length text)).

(** The loop of [fill_by_label] over the lines of the screen. *)
Fixpoint fill_first (label : Py.str) (offset : Z) (text : Py.str) (i : nat)
         (lines : list Py.str) : Eff.M S bool :=
  match lines with
  | [] => Eff.ret false
  | line :: lines' =>
      if Py.contains label line then
        let col_pos := Z.of_nat (FieldQueries.index label line)
                       + Z.of_nat (length label) + offset in
        let '(row_pos, col_pos) := label_position i col_pos in
        fill_at row_pos col_pos text false ;;;
        Eff.ret true
      else fill_first label offset text (Datatypes.S i) lines'
  end.

(** [fill_by_label]. *)
Definition fill_by_label (label : Py.str) (offset : Z) (text : Py.str)
  : Eff.M S bool :=
  ascii_lines <~ send "Ascii" ;;
  fill_first label offset text 0 ascii_lines.

(** [execute_actions]. *)
Fixpoint execute_actions_from (results : list Py.str) (actions : list Py.str)
  : Eff.M S (list Py.str) :=
  match actions with
  | [] => Eff.ret results
  | action :: actions' =>
      response <~ send action ;;
      execute_actions_from (results ++ response) actions'
  end.

Definition execute_actions (actions : list Py.str) : Eff.M S (list Py.str) :=
  execute_actions_from [] actions.

End Driver.

End SessionOps.

(** ** flow_runner.py: running a flow file *)

Module FlowRun.
Import Fingerprint FlowRunner.

(** The bridge as [run] uses it: the collaborators of the steps, and the
    two requests that open and close the connection. *)
Record Bridge (W : Type) : Type := mkBridge {
  driver : Driver W;
  (** POST /connect with the host 127.0.0.1:3270: the status code *)
  api_connect : W -> W * Py.result Z;
  (** POST /disconnect *)
  api_disconnect : W -> W * Py.result unit;
  (** [str(self.logs_dir)] *)
  logs_dir : Py.str }.

Arguments driver {W}.
Arguments api_connect {W}.
Arguments api_disconnect {W}.
Arguments logs_dir {W}.

(** The runner and the transcripts it has saved, as pairs of a file name
    in the logs directory and the text written. *)
Record Run (W : Type) : Type := mkRun {
  runner : Runner W;
  log_files : list (Py.str * Py.str) }.

Arguments mkRun {W}.
Arguments runner {W}.
Arguments log_files {W}.

(** One line of a saved transcript. *)
Definition render_entry (entry : Entry) : Py.str :=
  "[" ++ e_timestamp entry ++ "] " ++ e_action entry
  ++ (match e_result entry with
      | [] => []
      | result => ": " ++ result
      end)
  ++ (match e_digest entry with
      | Some (c :: d) => " (digest: " ++ (c :: d) ++ "...)"
      | _ => []
      end)
  ++ [newline].

Definition render (entries : list Entry) : Py.str :=
  flat_map render_entry entries.

Section Run.
Context {W : Type} (br : Bridge W).

Let drv : Driver W := driver br.

(** A method of the runner, on the runner of a run. *)
Definition lift {A : Type} (c : Eff.M (Runner W) A) : Eff.M (Run W) A :=
  fun s => let '(r, x) := c (runner s) in (mkRun r (log_files s), x).

Definition set_run_options (env : list (Py.str * Py.str))
           (save_goldens assert_goldens : bool) (r : Runner W) : Runner W :=
  mkRunner (trace r) env (current_digest r) (transcript r)
           save_goldens assert_goldens (goldens r)
           (failure_files r) (stdout r) (world r).

(** [save_transcript]; it returns the path of the file. *)
Definition save_transcript (flow_name : Py.str) (success : bool)
  : Eff.M (Run W) Py.str :=
  timestamp <~ lift (call (now_stamp drv)) ;;
  let suffix : Py.str := if success then "" else "_fail" in
  let log_file := flow_name ++ "_" ++ timestamp ++ suffix ++ ".log" in
  Eff.modify (fun s => mkRun (runner s)
                             (log_files s
                              ++ [(log_file, render (transcript (runner s)))])) ;;;
  Eff.ret (logs_dir br ++ "/" ++ log_file).

(** [connect]. *)
Definition connect : Eff.M (Runner W) bool :=
  status_code <~ call_result (api_connect br) ;;
  if status_code =? 200 then
    log_transcript drv "Connected to 127.0.0.1:3270" "" false ;;;
    Eff.ret true
  else Eff.ret false.

(** [disconnect]. *)
Definition disconnect : Eff.M (Runner W) unit :=
  call_result (api_disconnect br) ;;;
  log_transcript drv "Disconnected" "" false.

(** [try: c  finally: f]: [f] runs whatever [c] did, and an exception of
    [f] replaces the outcome of [c]. *)
Definition finally {S A : Type} (c : Eff.M S A) (f : Eff.M S unit)
  : Eff.M S A :=
  fun s =>
    let '(s1, x) := c s in
    match f s1 with
    | (s2, Ok _) => (s2, x)
    | (s2, Raise e) => (s2, Raise e)
    end.

(** The body of the [try] of [run]. *)
Definition run_body (flow : Flow) (flow_name : Py.str) : Eff.M (Run W) bool :=
  connected <~ lift connect ;;
  if negb connected then
    lift (Eff.modify (print "Failed to connect")) ;;;
    Eff.ret false
  else
    success <~ lift (execute_flow drv flow) ;;
    log_file <~ save_transcript flow_name success ;;
    lift (Eff.modify (print ("Transcript saved to: " ++ log_file))) ;;;
    Eff.ret success.

(** The handler of [run]: the path of the failure screen is the name of
    the file [save_failure_screen] has just added. *)
Definition run_handler (flow_name : Py.str) (e : Py.exn)
  : Eff.M (Run W) bool :=
  lift (log_transcript drv ("Error: " ++ exn_msg e) "" false) ;;;
  log_file <~ save_transcript flow_name false ;;
  lift (Eff.modify (print ("Error transcript saved to: " ++ log_file))) ;;;
  Eff.try_except
    (lift (snapshot <~ get_screen drv ;;
           save_failure_screen drv flow_name (ascii_of snapshot) ;;;
           fail_file <~ Eff.gets (fun r => fst (last (failure_files r)
                                                     ([], []))) ;;
           Eff.modify (print ("Failure screen saved to: "
                              ++ logs_dir br ++ "/" ++ fail_file))))
    (fun _ => Eff.ret tt) ;;;
  Eff.ret false.

(** [run], given what loading the flow file gave, and the stem of its
    name. *)
Definition run (loaded : Py.result Flow) (flow_name : Py.str)
           (env : list (Py.str * Py.str)) (save_goldens assert_goldens : bool)
  : Eff.M (Run W) bool :=
  lift (Eff.modify (set_run_options env save_goldens assert_goldens)) ;;;
  match loaded with
  | Raise e => Eff.raise e
  | Ok flow =>
      finally (Eff.try_except (run_body flow flow_name)
                              (run_handler flow_name))
              (lift disconnect)
  end.

End Run.

End FlowRun.

(** ** session.py: the status line *)

Module StatusParse.
Import Session.

(** *** [int(value)] *)

Definition digit (c : ascii) : option Z :=
  let n := Z.of_N (N_of_ascii c) in
  if (48 <=? n) && (n <=? 57) then Some (n - 48) else None.

(** The digits, with single underscores between them. *)
Fixpoint scan_decimal (s : Py.str) (acc : Z) (prev_us : bool)
  : option (Z * Py.str) :=
  match s with
  | [] => if prev_us then None else Some (acc, [])
  | c :: s' =>
      if Ascii.eqb c "_" then
        if prev_us then None else scan_decimal s' acc true
      else match digit c with
           | Some d => scan_decimal s' (10 * acc + d) false
           | None => if prev_us then None else Some (acc, s)
           end
  end.

(** [int(s)]; [None] stands for [ValueError]. *)
Definition int10 (s : Py.str) : option Z :=
  let s1 := Py.dropwhile Parser.int_space s in
  let '(sign, s2) :=
    match s1 with
    | c :: r => if Ascii.eqb c "+" then (1, r)
                else if Ascii.eqb c "-" then (-1, r)
                else (1, s1)
    | [] => (1, s1)
    end in
  match s2 with
  | [] => None
  | c :: _ =>
      match digit c with
      | None => None
      | Some _ =>
          match scan_decimal s2 0 false with
          | Some (v, rest) =>
              if forallb Parser.int_space rest then Some (sign * v) else None
          | None => None
          end
      end
  end.

(** [int(s) if s else default]. *)
Definition int_or (default : Z) (s : Py.str) : option Z :=
  match s with
  | [] => Some default
  | _ => int10 s
  end.

(** [int(l[1]) if len(l) > 1 and l[1] else default]. *)
Definition second_or (default : Z) (l : list Py.str) : option Z :=
  match l with
  | _ :: s :: _ => int_or default s
  | _ => Some default
  end.

(** The body of the [try]: rows, columns and cursor, or [None] when a
    conversion raises. *)
Definition dimensions (parts : list Py.str) : option (Z * Z * Z * Z) :=
  let dims := Py.split "," (nth 6 parts []) in
  match int_or 24 (nth 0 dims []) with
  | None => None
  | Some rows =>
      match second_or 80 dims with
      | None => None
      | Some cols =>
          let cursor := Py.split "," (nth 8 parts []) in
          match int_or 0 (nth 0 cursor []) with
          | None => None
          | Some cursor_row =>
              match second_or 0 cursor with
              | None => None
              | Some cursor_col => Some (rows, cols, cursor_row, cursor_col)
              end
          end
      end
  end.

(** [parts[3][0] if '(' in parts[3] else parts[3]]. *)
Definition connection_word (word : Py.str) : Py.str :=
  if existsb (Ascii.eqb "(") word then firstn 1 word else word.

Section Parse.

(** [float(word)] returns. *)
Variable float_ok : Py.str -> bool.

(** [StatusLine.parse]; [None] stands for [ValueError]. *)
Definition parse (line : Py.str) : option StatusLine :=
  let parts := split_ws (Py.strip line) in
  if (length parts <? 11)%nat then None
  else
    let '(rows, cols, cursor_row, cursor_col) :=
      match dimensions parts with
      | Some d => d
      | None => (24, 80, 0, 0)
      end in
    if float_ok (nth 10 parts []) then
      Some (mkStatusLine (nth 0 parts []) (nth 1 parts []) (nth 2 parts [])
                         (connection_word (nth 3 parts []))
                         (nth 4 parts []) (nth 5 parts [])
                         rows cols cursor_row cursor_col
                         (nth 9 parts []))
    else None.

End Parse.

End StatusParse.

(** ** observability.py: the metrics *)

Module Metrics.

Record Action : Type := mkAction {
  a_tool : Py.str;
  a_latency_ms : Z;
  a_outcome : Py.str;
  a_timestamp : Py.str }.

(** [self.session_metrics]. *)
Record SessionMetrics : Type := mkSessionMetrics {
  start_time : Py.str;
  actions : list Action;
  errors : Z;
  fallbacks : Z }.

Section Floats.

(** The floating-point numbers, and the operations of [end_session] on
    them: the quotient of two integers, the mean of two numbers, and the
    test [x == 0].  [zero] stands for 0 and for 0.0.  The latencies are
    integers, so that their mean is positive exactly when their sum is. *)
Variable F : Type.
Variable zero : F.
Variable quotient : Z -> Z -> F.
Variable mean2 : F -> F -> F.
Variable is_zero : F -> bool.

Record HistoryEntry : Type := mkHistoryEntry {
  h_timestamp : Py.str;
  h_success : bool;
  h_actions : Z;
  h_errors : Z;
  h_fallbacks : Z;
  h_avg_latency_ms : F }.

(** [self.metrics]. *)
Record Totals : Type := mkTotals {
  total_runs : Z;
  successful_runs : Z;
  failed_runs : Z;
  total_actions : Z;
  total_errors : Z;
  total_fallbacks : Z;
  success_rate : F;
  mean_actions_per_run : F;
  mean_latency_ms : F;
  fallback_rate : F;
  flow_usage_rate : F;
  last_updated : option Py.str;
  history : list HistoryEntry }.

(** The collector, and what the metrics file holds. *)
Record Collector : Type := mkCollector {
  metrics : Totals;
  session_metrics : SessionMetrics;
  metrics_file : option Totals }.


(** [record_action], at the time [now]. *)
Definition record_action (tool : Py.str) (latency_ms : Z) (outcome now : Py.str)
           (c : Collector) : Collector :=
  let s := session_metrics c in
  let actions := actions s ++ [mkAction tool latency_ms outcome now] in
  let errors := if Py.str_eqb outcome "error" then errors s + 1 else errors s in
  mkCollector (metrics c)
              (mkSessionMetrics (start_time s) actions errors (fallbacks s))
              (metrics_file c).

(** [record_fallback]. *)
Definition record_fallback (c : Collector) : Collector :=
  let s := session_metrics c in
  mkCollector (metrics c)
              (mkSessionMetrics (start_time s) (actions s) (errors s)
                                (fallbacks s + 1))
              (metrics_file c).

(** [l[-100:]]. *)
Definition last_100 {A : Type} (l : list A) : list A :=
  skipn (length l - 100) l.

(** [end_session]; the clock is read three times. *)
Definition end_session (success : bool) (now_history now_updated now_start : Py.str)
           (c : Collector) : Collector :=
  let s := session_metrics c in
  let m := metrics c in
  let action_count := Z.of_nat (length (actions s)) in
  let latency_sum := fold_right Z.add 0 (map a_latency_ms (actions s)) in
  let positive_latency := (0 <? action_count) && (0 <? latency_sum) in
  let avg_latency := if 0 <? action_count
                     then quotient latency_sum action_count
                     else zero in
  let total_runs := total_runs m + 1 in
  let successful_runs :=
    if success then successful_runs m + 1 else successful_runs m in
  let failed_runs := if success then failed_runs m else failed_runs m + 1 in
  let total_actions := total_actions m + action_count in
  let total_errors := total_errors m + errors s in
  let total_fallbacks := total_fallbacks m + fallbacks s in
  let rated := 0 <? total_runs in
  let mean_latency :=
    if positive_latency then
      if is_zero (mean_latency_ms m) then avg_latency
      else mean2 (mean_latency_ms m) avg_latency
    else mean_latency_ms m in
  let history :=
    history m ++ [mkHistoryEntry now_history success action_count
                                 (errors s) (fallbacks s) avg_latency] in
  let history :=
    if (100 <? length history)%nat then last_100 history else history in
  let m' :=
    mkTotals total_runs successful_runs failed_runs
             total_actions total_errors total_fallbacks
             (if rated then quotient successful_runs total_runs
              else success_rate m)
             (if rated then quotient total_actions total_runs
              else mean_actions_per_run m)
             mean_latency
             (if rated then quotient total_fallbacks total_runs
              else fallback_rate m)
             (flow_usage_rate m)
             (Some now_updated)
             history in
  mkCollector m' (mkSessionMetrics now_start [] 0 0) (Some m').

End Floats.

End Metrics.

(* ===================================================================== *)
(** * Part II: lemmas and theorems                                        *)
(* ===================================================================== *)

Example sha256_empty :
  Sha256.hexdigest (Py.encode "") =
  "e3b0c44298fc1c149afbf4c8996fb92427ae41e4649b934ca495991b7852b855".
Proof. vm_compute. reflexivity. Qed.

Example sha256_abc :
  Sha256.hexdigest (Py.encode "abc") =
  "ba7816bf8f01cfea414140de5dae2223b00361a396177a9cb410ff61f20015ad".
Proof. vm_compute. reflexivity. Qed.

Example sha256_two_blocks :
  Sha256.hexdigest
    (Py.encode "abcdbcdecdefdefgefghfghighijhijkijkljklmklmnlmnomnopnopq") =
  "248d6a61d20638b8e5c026930c3e6039a33ce45964ff2167f6ecedd419db06c1".
Proof. vm_compute. reflexivity. Qed.

(** ** Facts about the string builtins *)

Module PyFacts.

Section Dropwhile.
Context {A : Type} (p : A -> bool).

Lemma dropwhile_idem (l : list A) :
  Py.dropwhile p (Py.dropwhile p l) = Py.dropwhile p l.
Proof.
  induction l as [|x l IH]; simpl; [reflexivity|].
  destruct (p x) eqn:E; [exact IH|]. simpl. now rewrite E.
Qed.

Lemma dropwhile_incl (l : list A) : incl (Py.dropwhile p l) l.
Proof.
  induction l as [|x l IH]; simpl; [apply incl_refl|].
  destruct (p x); [now apply incl_tl | apply incl_refl].
Qed.

Lemma dropwhile_snoc_keep (l : list A) (x : A) :
  p x = false -> Py.dropwhile p (l ++ [x]) = Py.dropwhile p l ++ [x].
Proof.
  intros Hx. induction l as [|y l IH]; simpl.
  - now rewrite Hx.
  - destruct (p y); [exact IH | reflexivity].
Qed.

Lemma dropwhile_fixed (l : list A) :
  match l with [] => True | x :: _ => p x = false end ->
  Py.dropwhile p l = l.
Proof. destruct l as [|x l]; simpl; [reflexivity|]. now intros ->. Qed.

Lemma rdropwhile_idem (l : list A) :
  Py.rdropwhile p (Py.rdropwhile p l) = Py.rdropwhile p l.
Proof.
  unfold Py.rdropwhile. now rewrite rev_involutive, dropwhile_idem.
Qed.

Lemma rdropwhile_incl (l : list A) : incl (Py.rdropwhile p l) l.
Proof.
  unfold Py.rdropwhile. intros x Hx.
  apply in_rev in Hx. apply dropwhile_incl in Hx. now apply in_rev.
Qed.

Lemma rdropwhile_cons_keep (x : A) (l : list A) :
  p x = false -> Py.rdropwhile p (x :: l) = x :: Py.rdropwhile p l.
Proof.
  intros Hx. unfold Py.rdropwhile. simpl.
  rewrite dropwhile_snoc_keep by exact Hx.
  now rewrite rev_app_distr.
Qed.

Lemma rdropwhile_all (l : list A) :
  forallb p l = true -> Py.rdropwhile p l = [].
Proof.
  intros H. unfold Py.rdropwhile.
  assert (E : Py.dropwhile p (rev l) = []).
  { assert (F : forallb p (rev l) = true).
    { rewrite forallb_forall in *. intros x Hx. apply H. now apply in_rev. }
    clear H. induction (rev l) as [|y r IH]; simpl in *; [reflexivity|].
    apply andb_prop in F as [-> F]. now apply IH. }
  now rewrite E.
Qed.

End Dropwhile.

Lemma split_nonempty (sep : ascii) (s : Py.str) : Py.split sep s <> [].
Proof.
  destruct s as [|c s]; simpl; [discriminate|].
  destruct (Ascii.eqb c sep); [discriminate|].
  destruct (Py.split sep s); discriminate.
Qed.

Lemma split_no_sep (sep : ascii) (s : Py.str) :
  Forall (fun l => ~ In sep l) (Py.split sep s).
Proof.
  induction s as [|c s IH]; simpl.
  - constructor; [intros []|constructor].
  - destruct (Ascii.eqb c sep) eqn:E.
    + constructor; [intros []|exact IH].
    + destruct (Py.split sep s) as [|l ls].
      * constructor; [|constructor].
        intros [->|[]]. now rewrite Ascii.eqb_refl in E.
      * inversion IH as [|? ? Hl Hls]; subst. constructor; [|exact Hls].
        intros [->|H]; [now rewrite Ascii.eqb_refl in E | now apply Hl].
Qed.

Lemma split_no_sep_id (sep : ascii) (s : Py.str) :
  ~ In sep s -> Py.split sep s = [s].
Proof.
  induction s as [|c s IH]; simpl; intros H; [reflexivity|].
  destruct (Ascii.eqb c sep) eqn:E.
  - apply Ascii.eqb_eq in E. subst. exfalso. apply H. now left.
  - rewrite IH; [reflexivity|]. intros Hin. apply H. now right.
Qed.

Lemma split_app_sep (sep : ascii) (l rest : Py.str) :
  ~ In sep l ->
  Py.split sep (l ++ sep :: rest) = l :: Py.split sep rest.
Proof.
  induction l as [|c l IH]; simpl; intros H.
  - now rewrite Ascii.eqb_refl.
  - destruct (Ascii.eqb c sep) eqn:E.
    + apply Ascii.eqb_eq in E. subst. exfalso. apply H. now left.
    + rewrite IH; [reflexivity|]. intros Hin. apply H. now right.
Qed.

(** Splitting undoes joining, for lines free of the separator. *)
Lemma split_join (sep : ascii) (ls : list Py.str) :
  ls <> [] -> Forall (fun l => ~ In sep l) ls ->
  Py.split sep (Py.join [sep] ls) = ls.
Proof.
  induction ls as [|l ls IH]; intros Hne Hall; [congruence|].
  inversion Hall as [|? ? Hl Hls]; subst.
  destruct ls as [|l' ls].
  - simpl. now apply split_no_sep_id.
  - change (Py.join [sep] (l :: l' :: ls))
      with (l ++ sep :: Py.join [sep] (l' :: ls)).
    rewrite split_app_sep by exact Hl.
    now rewrite IH.
Qed.

Lemma rstrip_idem (s : Py.str) : Py.rstrip (Py.rstrip s) = Py.rstrip s.
Proof. apply rdropwhile_idem. Qed.

Lemma rstrip_incl (s : Py.str) : incl (Py.rstrip s) s.
Proof. apply rdropwhile_incl. Qed.

End PyFacts.

(** ** screen_fingerprint.py: normalization *)

Module FingerprintFacts.
Import Fingerprint PyFacts.

(** The lines that [normalize_screen] joins. *)
Definition normal_lines (t : Py.str) : list Py.str :=
  Py.rdropwhile blank (Py.dropwhile blank (map Py.rstrip (Py.split newline t))).

Lemma normalize_screen_eq (t : Py.str) :
  normalize_screen t = Py.join [newline] (normal_lines t).
Proof. reflexivity. Qed.

Lemma normal_lines_incl (t : Py.str) :
  incl (normal_lines t) (map Py.rstrip (Py.split newline t)).
Proof.
  unfold normal_lines. intros l Hl.
  apply rdropwhile_incl in Hl. now apply dropwhile_incl in Hl.
Qed.

Lemma normal_lines_no_newline (t : Py.str) :
  Forall (fun l => ~ In newline l) (normal_lines t).
Proof.
  apply Forall_forall. intros l Hl.
  apply normal_lines_incl, in_map_iff in Hl as [l0 [<- Hl0]].
  pose proof (split_no_sep newline t) as F.
  rewrite Forall_forall in F. intros Hin. apply (F l0 Hl0).
  now apply rstrip_incl.
Qed.

Lemma normal_lines_rstripped (t : Py.str) :
  map Py.rstrip (normal_lines t) = normal_lines t.
Proof.
  rewrite <- (map_id (normal_lines t)) at 2.
  apply map_ext_in. intros l Hl.
  apply normal_lines_incl, in_map_iff in Hl as [l0 [<- _]].
  apply rstrip_idem.
Qed.

Lemma dropwhile_blank_head (ls : list Py.str) :
  match Py.dropwhile blank ls with
  | [] => True
  | l :: _ => blank l = false
  end.
Proof.
  induction ls as [|l ls IH]; simpl; [exact I|].
  destruct (blank l) eqn:E; [exact IH | exact E].
Qed.

Lemma normal_lines_head (t : Py.str) :
  Py.dropwhile blank (normal_lines t) = normal_lines t.
Proof.
  unfold normal_lines.
  pose proof (dropwhile_blank_head (map Py.rstrip (Py.split newline t))) as H.
  destruct (Py.dropwhile blank (map Py.rstrip (Py.split newline t)))
    as [|l ls]; [reflexivity|].
  rewrite rdropwhile_cons_keep by exact H.
  simpl. now rewrite H.
Qed.

Lemma normal_lines_last (t : Py.str) :
  Py.rdropwhile blank (normal_lines t) = normal_lines t.
Proof. apply rdropwhile_idem. Qed.

Lemma normal_lines_fixed (t : Py.str) :
  normal_lines (normalize_screen t) = normal_lines t.
Proof.
  rewrite normalize_screen_eq.
  destruct (normal_lines t) as [|l ls] eqn:E; [reflexivity|].
  rewrite <- E. unfold normal_lines at 1.
  rewrite split_join.
  - rewrite normal_lines_rstripped, normal_lines_head.
    apply normal_lines_last.
  - rewrite E. discriminate.
  - apply normal_lines_no_newline.
Qed.

(** C5.  Normalizing screen text is idempotent: normalizing an already
    normalized text (lines right-trimmed, blank leading and trailing lines
    removed, joined by newline) returns it unchanged. *)
Theorem normalize_screen_idempotent (T : Py.str) :
  normalize_screen (normalize_screen T) = normalize_screen T.
Proof.
  rewrite (normalize_screen_eq (normalize_screen T)).
  rewrite normal_lines_fixed.
  symmetry. apply normalize_screen_eq.
Qed.

(** The scenario of the specification, with the trailing blanks of the
    first line trimmed as [rstrip] does. *)
Example normalize_screen_scenario :
  normalize_screen
    ("  A  " ++ [newline] ++ [newline] ++ "  B " ++ [newline] ++ [newline])
  = "  A" ++ [newline] ++ [newline] ++ "  B".
Proof. reflexivity. Qed.

End FingerprintFacts.

(** ** screen_fingerprint.py: the digest *)

Module DigestFacts.
Import Fingerprint PyFacts FingerprintFacts.



















End DigestFacts.

(** ** parser.py: attribute decoding *)

Module AttrFacts.
Import Parser.

(** The six flags of an attribute record. *)
Definition flags (a : Attrs) : list bool :=
  [protected a; numeric a; intensified a; hidden a; modified a; detectable a].

(** Hidden fields are intensified and detectable. *)
Definition hidden_implies (a : Attrs) : Prop :=
  hidden a = true -> intensified a = true /\ detectable a = true.

(** The value of a [c0=...] pair, as [parse_field_attributes] reads it. *)
Definition c0_value (pair : Py.str) : option Py.str :=
  match Py.split1 "=" (Py.strip pair) with
  | Some (key, value) =>
      if Py.str_eqb (Py.strip key) "c0" then Some (Py.strip value) else None
  | None => None
  end.

Definition c0_values (attrs_str : Py.str) : list Py.str :=
  flat_map (fun pair => match c0_value pair with Some v => [v] | None => [] end)
           (Py.split "," attrs_str).

Lemma land_12_bits (b : Z) :
  Z.land b 12 = 12 -> Z.land b 8 = 8 /\ Z.land b 4 = 4.
Proof.
  intros H. split.
  - change 8 with (Z.land 12 8) at 1. now rewrite Z.land_assoc, H.
  - change 4 with (Z.land 12 4) at 1. now rewrite Z.land_assoc, H.
Qed.

Lemma parse_pair_hidden (a : Attrs) (pair : Py.str) :
  hidden_implies a -> hidden_implies (parse_pair a pair).
Proof.
  intros Ha. unfold parse_pair.
  destruct (Py.split1 "=" (Py.strip pair)) as [[key value]|]; [|exact Ha].
  destruct (Py.str_eqb (Py.strip key) "c0").
  - destruct (int16 (Py.strip value)) as [b|]; [|exact Ha].
    unfold hidden_implies, bit. simpl. intros Hh.
    apply Z.eqb_eq, land_12_bits in Hh as [H8 H4].
    now rewrite H8, H4.
  - destruct (Py.str_eqb (Py.strip key) "41"); [exact Ha|].
    destruct (Py.str_eqb (Py.strip key) "42"); [exact Ha|].
    destruct (Py.str_eqb (Py.strip key) "45"); exact Ha.
Qed.

Lemma fold_parse_pair_hidden (pairs : list Py.str) (a : Attrs) :
  hidden_implies a -> hidden_implies (fold_left parse_pair pairs a).
Proof.
  revert a. induction pairs as [|p pairs IH]; intros a Ha; [exact Ha|].
  simpl. apply IH. now apply parse_pair_hidden.
Qed.

Lemma parse_pair_flags (a : Attrs) (pair : Py.str) :
  match c0_value pair with Some v => int16 v = None | None => True end ->
  flags (parse_pair a pair) = flags a.
Proof.
  unfold c0_value, parse_pair.
  destruct (Py.split1 "=" (Py.strip pair)) as [[key value]|]; [|reflexivity].
  destruct (Py.str_eqb (Py.strip key) "c0").
  - now intros ->.
  - intros _.
    destruct (Py.str_eqb (Py.strip key) "41"); [reflexivity|].
    destruct (Py.str_eqb (Py.strip key) "42"); [reflexivity|].
    destruct (Py.str_eqb (Py.strip key) "45"); reflexivity.
Qed.

Lemma fold_parse_pair_flags (pairs : list Py.str) (a : Attrs) :
  Forall (fun v => int16 v = None)
         (flat_map (fun pair => match c0_value pair with
                                | Some v => [v] | None => [] end) pairs) ->
  flags (fold_left parse_pair pairs a) = flags a.
Proof.
  revert a. induction pairs as [|p pairs IH]; intros a H; [reflexivity|].
  simpl in *. apply Forall_app in H as [Hp Hrest].
  rewrite IH by exact Hrest. apply parse_pair_flags.
  destruct (c0_value p); [now inversion Hp | exact I].
Qed.

(** C10.  Whatever the attribute string, a decoded field marked hidden
    (bits 0x08 and 0x04 of the c0 byte both set) is also marked intensified
    and detectable; and when no c0 value of the string parses as
    hexadecimal, decoding returns with all six flags False. *)
Theorem parse_field_attributes_flags (attrs_str : Py.str) :
  (hidden (parse_field_attributes attrs_str) = true ->
   intensified (parse_field_attributes attrs_str) = true
   /\ detectable (parse_field_attributes attrs_str) = true)
  /\ (Forall (fun v => int16 v = None) (c0_values attrs_str) ->
      flags (parse_field_attributes attrs_str)
      = [false; false; false; false; false; false]).
Proof.
  split.
  - apply (fold_parse_pair_hidden (Py.split "," attrs_str) attrs0).
    intros H. discriminate H.
  - intros H. unfold parse_field_attributes.
    now rewrite fold_parse_pair_flags.
Qed.

Lemma parse_field_attributes_flags_witness :
  (hidden (parse_field_attributes "c0=2c,41=f2") = true
   /\ intensified (parse_field_attributes "c0=2c,41=f2") = true
   /\ detectable (parse_field_attributes "c0=2c,41=f2") = true)
  /\ (Forall (fun v => int16 v = None) (c0_values "c0=zz,42=f4")
      /\ flags (parse_field_attributes "c0=zz,42=f4")
         = [false; false; false; false; false; false]).
Proof.
  split.
  - split; [reflexivity|].
    apply (proj1 (parse_field_attributes_flags "c0=2c,41=f2")). reflexivity.
  - assert (H : Forall (fun v => int16 v = None) (c0_values "c0=zz,42=f4")).
    { repeat constructor. }
    split; [exact H|].
    apply (proj2 (parse_field_attributes_flags "c0=zz,42=f4")). exact H.
Defined.

(** The decoding of the docstring's examples. *)
Example parse_field_attributes_examples :
  map (fun s => flags (parse_field_attributes s))
      ["c0=20" : Py.str; "c0=30" : Py.str; "c0=0c" : Py.str; "c0=28" : Py.str]
  = [ [true; false; false; false; false; false];
      [true; true; false; false; false; false];
      [false; false; true; true; false; true];
      [true; false; true; false; false; false] ].
Proof. reflexivity. Qed.

End AttrFacts.

(** ** parser.py: field extraction *)

Module ParserFacts.
Import Parser.

(** The number of field-start markers of a dump: the regex matches of its
    data lines. *)
Definition line_markers (line : Py.str) : list Match :=
  if is_data line then finditer_SF 0 0 (skipn 5 line) else [].

Definition count_markers (lines : list Py.str) : nat :=
  length (flat_map line_markers lines).

(** Row-major position of a field's start, and of the end of its span. *)
Definition offset (cols : Z) (f : Field) : Z := (row f - 1) * cols + col f.

Definition span_end (cols : Z) (f : Field) : Z := offset cols f + len f.

(** Each field starts at or after [e], and after the end of the one before. *)
Fixpoint chain_spans (cols e : Z) (fs : list Field) : Prop :=
  match fs with
  | [] => True
  | f :: fs' => e <= offset cols f /\ chain_spans cols (span_end cols f) fs'
  end.

Definition disjoint_spans (cols : Z) (fs : list Field) : Prop :=
  match fs with
  | [] => True
  | f :: fs' => chain_spans cols (span_end cols f) fs'
  end.

Definition opt_list {A : Type} (o : option A) : list A :=
  match o with Some a => [a] | None => [] end.

(** Fields in hand: the closed ones and the open one. *)
Definition open_fields (sc : Scan) : list Field :=
  fields sc ++ opt_list (current_field sc).

(** *** Counting *)

Lemma on_marker_count (cols : Z) (sc : Scan) (off : Z) (m : Match) :
  length (open_fields (fst (on_marker cols (sc, off) m)))
  = S (length (open_fields sc)).
Proof.
  unfold on_marker, open_fields. simpl.
  destruct (current_field sc); simpl; rewrite !length_app; simpl; lia.
Qed.

Lemma fold_on_marker_count (cols : Z) (ms : list Match) (st : Scan * Z) :
  length (open_fields (fst (fold_left (on_marker cols) ms st)))
  = (length (open_fields (fst st)) + length ms)%nat.
Proof.
  revert st. induction ms as [|m ms IH]; intros [sc off];
    cbn [fold_left length fst]; [lia|].
  rewrite IH, on_marker_count. lia.
Qed.

Lemma on_line_count (cols : Z) (sc : Scan) (line : Py.str) :
  length (open_fields (on_line cols sc line))
  = (length (open_fields sc) + length (line_markers line))%nat.
Proof.
  unfold on_line, line_markers. destruct (is_data line); [|simpl; lia].
  pose proof (fold_on_marker_count cols (finditer_SF 0 0 (skipn 5 line)) (sc, 0))
    as H.
  destruct (fold_left (on_marker cols) (finditer_SF 0 0 (skipn 5 line)) (sc, 0))
    as [sc' off']. exact H.
Qed.

Lemma fold_on_line_count (cols : Z) (lines : list Py.str) (sc : Scan) :
  length (open_fields (fold_left (on_line cols) lines sc))
  = (length (open_fields sc) + count_markers lines)%nat.
Proof.
  unfold count_markers. revert sc.
  induction lines as [|l lines IH]; intros sc;
    cbn [fold_left flat_map length]; [lia|].
  rewrite IH, on_line_count, length_app. lia.
Qed.

Lemma parse_readbuffer_ascii_count (lines : list Py.str) (rows cols : Z) :
  length (parse_readbuffer_ascii lines rows cols) = count_markers lines.
Proof.
  unfold parse_readbuffer_ascii.
  pose proof (fold_on_line_count cols lines (mkScan [] None 1 1)) as H.
  unfold open_fields in H.
  destruct (current_field (fold_left (on_line cols) lines (mkScan [] None 1 1)));
    simpl in *; rewrite ?length_app in *; simpl in *; lia.
Qed.

(** *** The matches of a line are in order *)

(** Each match starts at or after [lb], is not empty, and ends before the
    next one starts. *)
Fixpoint ordered (lb : nat) (ms : list Match) : Prop :=
  match ms with
  | [] => True
  | m :: ms' =>
      (lb <= m_start m)%nat /\ (1 <= m_len m)%nat
      /\ ordered (m_start m + m_len m) ms'
  end.

Lemma ordered_weaken (lb lb' : nat) (ms : list Match) :
  (lb' <= lb)%nat -> ordered lb ms -> ordered lb' ms.
Proof. destruct ms as [|m ms]; simpl; [trivial|]. intros; intuition lia. Qed.

Lemma match_SF_len (s g : Py.str) (n : nat) :
  match_SF s = Some (g, n) -> (5 <= n)%nat.
Proof.
  unfold match_SF. destruct s as [|c1 [|c2 [|c3 rest]]]; try discriminate.
  destruct (Ascii.eqb c1 "S" && Ascii.eqb c2 "F" && Ascii.eqb c3 "(");
    [|discriminate].
  destruct (until_close rest) as [[|g0 gs]|]; try discriminate.
  intros H. inversion H. simpl. lia.
Qed.

Lemma finditer_SF_ordered (s : Py.str) (skip pos : nat) :
  ordered (pos + skip) (finditer_SF skip pos s).
Proof.
  revert skip pos. induction s as [|c s IH]; intros skip pos;
    cbn [finditer_SF]; [exact I|].
  destruct skip as [|k].
  - destruct (match_SF (c :: s)) as [[g n]|] eqn:E.
    + apply match_SF_len in E. cbn [ordered m_start m_len].
      repeat split; try lia.
      apply (ordered_weaken (S pos + (n - 1))); [lia | apply IH].
    + apply (ordered_weaken (S pos + 0)); [lia | apply IH].
  - apply (ordered_weaken (S pos + k)); [lia | apply IH].
Qed.

(** *** Spans *)

Lemma chain_spans_last (cols e : Z) (l : list Field) (x x' : Field) :
  offset cols x = offset cols x' ->
  chain_spans cols e (l ++ [x]) -> chain_spans cols e (l ++ [x']).
Proof.
  intros Hx. revert e. induction l as [|a l IH]; simpl; intros e.
  - now rewrite Hx.
  - intros [Ha Hl]. split; [exact Ha | now apply IH].
Qed.

Lemma chain_spans_snoc (cols e : Z) (l : list Field) (x y : Field) :
  span_end cols x <= offset cols y ->
  chain_spans cols e (l ++ [x]) -> chain_spans cols e ((l ++ [x]) ++ [y]).
Proof.
  intros Hxy. revert e. induction l as [|a l IH]; simpl; intros e.
  - intros [He _]. repeat split; assumption.
  - intros [Ha Hl]. split; [exact Ha | now apply IH].
Qed.

Lemma disjoint_spans_last (cols : Z) (l : list Field) (x x' : Field) :
  offset cols x = offset cols x' ->
  disjoint_spans cols (l ++ [x]) -> disjoint_spans cols (l ++ [x']).
Proof.
  intros Hx. destruct l as [|a l]; simpl; [trivial|].
  now apply chain_spans_last.
Qed.

Lemma disjoint_spans_snoc (cols : Z) (l : list Field) (x y : Field) :
  span_end cols x <= offset cols y ->
  disjoint_spans cols (l ++ [x]) -> disjoint_spans cols ((l ++ [x]) ++ [y]).
Proof.
  intros Hxy. destruct l as [|a l]; simpl.
  - intros _. split; [exact Hxy | exact I].
  - now apply chain_spans_snoc.
Qed.

Lemma chain_spans_nth (cols : Z) (fs : list Field) (e : Z) (i : nat)
      (f g : Field) :
  chain_spans cols e fs ->
  nth_error fs i = Some f -> nth_error fs (S i) = Some g ->
  span_end cols f <= offset cols g.
Proof.
  revert e i. induction fs as [|a fs IH]; intros e i H Hf Hg.
  - destruct i; discriminate.
  - destruct H as [_ H]. destruct i as [|i].
    + simpl in Hf. inversion Hf; subst a.
      destruct fs as [|b fs]; [discriminate|].
      simpl in Hg. inversion Hg; subst b. now destruct H.
    + simpl in Hf. now apply (IH _ i H).
Qed.

Lemma disjoint_spans_nth (cols : Z) (fs : list Field) (i : nat) (f g : Field) :
  disjoint_spans cols fs ->
  nth_error fs i = Some f -> nth_error fs (S i) = Some g ->
  span_end cols f <= offset cols g.
Proof.
  intros H Hf Hg. destruct fs as [|a fs]; [destruct i; discriminate|].
  apply (chain_spans_nth cols (a :: fs) (offset cols a) i f g); try assumption.
  simpl. split; [lia | exact H].
Qed.

(** *** The invariant of the scan *)

Section Scan.
Variables rows cols : Z.

(** A field that starts on the declared screen has a length that is not
    negative. *)
Definition fits (f : Field) : Prop :=
  col f <= cols + 1 -> row f <= rows -> 0 <= len f.

(** Inside a line: [off] is [col_offset], and the next match starts at
    [lb] or later. *)
Record inv (lb : nat) (sc : Scan) (off : Z) : Prop := mkInv {
  inv_col : current_col sc = 1;
  inv_off : 0 <= off;
  inv_spans : disjoint_spans cols (open_fields sc);
  inv_fits : Forall fits (fields sc);
  inv_none : current_field sc = None -> fields sc = [];
  inv_cur : forall cf, current_field sc = Some cf ->
      1 <= col cf /\ row cf <= current_row sc
      /\ (row cf = current_row sc -> col cf <= off + Z.of_nat lb) }.

(** Between two lines. *)
Record line_inv (sc : Scan) : Prop := mkLineInv {
  li_col : current_col sc = 1;
  li_spans : disjoint_spans cols (open_fields sc);
  li_fits : Forall fits (fields sc);
  li_none : current_field sc = None -> fields sc = [];
  li_cur : forall cf, current_field sc = Some cf ->
      1 <= col cf /\ row cf < current_row sc }.

Lemma on_marker_inv (lb : nat) (sc : Scan) (off : Z) (m : Match) :
  inv lb sc off -> (lb <= m_start m)%nat -> (1 <= m_len m)%nat ->
  inv (m_start m + m_len m) (fst (on_marker cols (sc, off) m))
      (snd (on_marker cols (sc, off) m))
  /\ current_row (fst (on_marker cols (sc, off) m)) = current_row sc.
Proof.
  intros [Hcol Hoff Hsp Hfit Hnone Hcur] Hlb Hlen.
  unfold on_marker. cbn [fst snd].
  destruct (current_field sc) as [cf|] eqn:E.
  - destruct (Hcur cf eq_refl) as [Hc1 [Hrow Hsame]].
    split; [|reflexivity]. constructor; cbn [current_col fields current_field
      current_row]; try assumption; try lia.
    + unfold open_fields in *. cbn [fields current_field opt_list] in *.
      rewrite E in Hsp. cbn [opt_list] in Hsp.
      apply disjoint_spans_snoc.
      * unfold span_end, offset, set_len. cbn [row col len]. rewrite Hcol.
        destruct (Z.eqb_spec (current_row sc) (row cf)) as [->|Hne]; lia.
      * now apply (disjoint_spans_last cols (fields sc) cf).
    + apply Forall_app. split; [exact Hfit|]. constructor; [|constructor].
      unfold fits, set_len. cbn [row col len]. intros Hc Hr.
      destruct (Z.eqb_spec (current_row sc) (row cf)) as [Heq|Hne].
      * symmetry in Heq. specialize (Hsame Heq). lia.
      * assert (0 <= (current_row sc - row cf - 1) * cols) by nia. lia.
    + intros H. discriminate H.
    + intros nf Hnf. inversion Hnf; subst nf. cbn [row col]. lia.
  - split; [|reflexivity]. constructor; cbn [current_col fields current_field
      current_row]; try assumption; try lia.
    + unfold open_fields. cbn [fields current_field opt_list].
      rewrite (Hnone eq_refl). exact I.
    + intros H. discriminate H.
    + intros nf Hnf. inversion Hnf; subst nf. cbn [row col]. lia.
Qed.

Lemma fold_on_marker_inv (ms : list Match) (lb : nat) (sc : Scan) (off : Z) :
  ordered lb ms -> inv lb sc off ->
  exists lb',
    inv lb' (fst (fold_left (on_marker cols) ms (sc, off)))
        (snd (fold_left (on_marker cols) ms (sc, off)))
    /\ current_row (fst (fold_left (on_marker cols) ms (sc, off)))
       = current_row sc.
Proof.
  revert lb sc off. induction ms as [|m ms IH]; intros lb sc off Hord Hinv.
  - exists lb. now split.
  - destruct Hord as [Hlb [Hlen Hord]].
    destruct (on_marker_inv lb sc off m Hinv Hlb Hlen) as [Hinv' Hrow].
    cbn [fold_left].
    destruct (on_marker cols (sc, off) m) as [sc1 off1]. cbn [fst snd] in *.
    destruct (IH _ sc1 off1 Hord Hinv') as [lb' [Hi Hr]].
    exists lb'. split; [exact Hi | congruence].
Qed.

Lemma on_line_inv (sc : Scan) (line : Py.str) :
  line_inv sc -> line_inv (on_line cols sc line).
Proof.
  intros [Hcol Hsp Hfit Hnone Hcur]. unfold on_line.
  destruct (is_data line); [|now constructor].
  assert (Hinv : inv 0 sc 0).
  { constructor; try assumption; try lia.
    intros cf Hcf. destruct (Hcur cf Hcf). lia. }
  pose proof (finditer_SF_ordered (skipn 5 line) 0 0) as Hord.
  destruct (fold_on_marker_inv _ _ _ _ Hord Hinv) as [lb' [Hi Hr]].
  destruct (fold_left (on_marker cols) (finditer_SF 0 0 (skipn 5 line)) (sc, 0))
    as [sc' off']. cbn [fst snd] in *.
  destruct Hi as [_ _ Hsp' Hfit' Hnone' Hcur'].
  constructor; cbn [current_col fields current_field current_row];
    try assumption; try reflexivity.
  intros cf Hcf. destruct (Hcur' cf Hcf) as [? [? _]]. lia.
Qed.

Lemma fold_on_line_inv (lines : list Py.str) (sc : Scan) :
  line_inv sc -> line_inv (fold_left (on_line cols) lines sc).
Proof.
  revert sc. induction lines as [|l lines IH]; intros sc H; [exact H|].
  cbn [fold_left]. apply IH. now apply on_line_inv.
Qed.

Lemma line_inv_init : line_inv (mkScan [] None 1 1).
Proof.
  constructor; cbn; try reflexivity; try constructor; try discriminate.
Qed.

Lemma parse_readbuffer_ascii_spans (lines : list Py.str) :
  disjoint_spans cols (parse_readbuffer_ascii lines rows cols).
Proof.
  unfold parse_readbuffer_ascii.
  destruct (fold_on_line_inv lines _ line_inv_init) as [_ Hsp _ _ _].
  unfold open_fields in Hsp.
  destruct (current_field (fold_left (on_line cols) lines (mkScan [] None 1 1)))
    as [cf|]; cbn [opt_list] in Hsp.
  - now apply (disjoint_spans_last cols _ cf).
  - now rewrite app_nil_r in Hsp.
Qed.

Lemma parse_readbuffer_ascii_fits (lines : list Py.str) :
  Forall fits (parse_readbuffer_ascii lines rows cols).
Proof.
  unfold parse_readbuffer_ascii.
  destruct (fold_on_line_inv lines _ line_inv_init) as [_ _ Hfit _ Hcur].
  destruct (current_field (fold_left (on_line cols) lines (mkScan [] None 1 1)))
    as [cf|]; [|exact Hfit].
  apply Forall_app. split; [exact Hfit|]. constructor; [|constructor].
  destruct (Hcur cf eq_refl) as [Hc _].
  unfold fits, set_len. cbn [row col len]. intros Hcol Hrow.
  assert (0 <= (rows - row cf) * cols) by nia. lia.
Qed.

End Scan.

(** *** The claim on field extraction *)

(** One 80-column row with markers that put the fields at columns 5
    and 20. *)
Definition scenario_dump : list Py.str :=
  ["data:xxxxSF(a)xxxxxSF(b)" : Py.str].

(** A 24x80 dump whose first row is wider than the declared 80 columns. *)
Definition wide_dump : list Py.str :=
  [ "data:" ++ repeat " "%char 100 ++ "SF(c0=20)";
    "data:SF(c0=00)" : Py.str ].

(** The claim of C1 as the specification states it, at one dump. *)
Definition extraction_exhaustive (lines : list Py.str) (rows cols : Z) : Prop :=
  length (parse_readbuffer_ascii lines rows cols) = count_markers lines
  /\ Forall (fun f => 0 <= len f) (parse_readbuffer_ascii lines rows cols)
  /\ (forall i f g,
        nth_error (parse_readbuffer_ascii lines rows cols) i = Some f ->
        nth_error (parse_readbuffer_ascii lines rows cols) (S i) = Some g ->
        span_end cols f <= offset cols g).

(** On the scenario the fields start at columns 5 and 20; the first has
    length 14 and the second 61. *)
Example parse_readbuffer_ascii_scenario :
  map (fun f => (row f, col f, len f))
      (parse_readbuffer_ascii scenario_dump 1 80)
  = [(1, 5, 14); (1, 20, 61)].
Proof. reflexivity. Qed.

(** C1, refuted as stated.  A field that starts beyond the declared width
    gets a negative length: the marker of the first row of [wide_dump] is at
    column 101 of 80, and the field it opens has length -20. *)
Theorem extraction_exhaustive_refuted : ~ extraction_exhaustive wide_dump 24 80.
Proof.
  intros [_ [H _]]. vm_compute in H.
  inversion H as [|f fs Hneg _]. apply Hneg. reflexivity.
Qed.

(** C1, amended.  A dump with N field-start markers yields exactly N
    fields; each field that starts on the declared screen (column at most
    cols + 1, row at most rows) has a length that is not negative; the
    row-major spans of consecutive fields do not overlap; and on the
    single-row scenario (80 columns, fields at columns 5 and 20) the second
    field extends to the end of the screen, with length 61. *)
Theorem parse_readbuffer_ascii_exhaustive
        (lines : list Py.str) (rows cols : Z) :
  length (parse_readbuffer_ascii lines rows cols) = count_markers lines
  /\ (forall f, In f (parse_readbuffer_ascii lines rows cols) ->
        col f <= cols + 1 -> row f <= rows -> 0 <= len f)
  /\ (forall i f g,
        nth_error (parse_readbuffer_ascii lines rows cols) i = Some f ->
        nth_error (parse_readbuffer_ascii lines rows cols) (S i) = Some g ->
        span_end cols f <= offset cols g)
  /\ (map col (parse_readbuffer_ascii scenario_dump 1 80) = [5; 20]
      /\ map len (tl (parse_readbuffer_ascii scenario_dump 1 80)) = [61]).
Proof.
  split; [apply parse_readbuffer_ascii_count|].
  split.
  { pose proof (parse_readbuffer_ascii_fits rows cols lines) as H.
    rewrite Forall_forall in H. intros f Hf. exact (H f Hf). }
  split.
  { intros i f g. apply disjoint_spans_nth, parse_readbuffer_ascii_spans. }
  split; reflexivity.
Qed.

Lemma parse_readbuffer_ascii_exhaustive_witness :
  length (parse_readbuffer_ascii scenario_dump 1 80) = 2%nat
  /\ Forall (fun f => 0 <= len f) (parse_readbuffer_ascii scenario_dump 1 80).
Proof.
  destruct (parse_readbuffer_ascii_exhaustive scenario_dump 1 80)
    as [Hn [Hfit _]].
  split; [exact Hn|].
  apply Forall_forall. intros f Hf. apply Hfit; [exact Hf| |].
  - destruct Hf as [<-|[<-|[]]]; vm_compute; discriminate.
  - destruct Hf as [<-|[<-|[]]]; vm_compute; discriminate.
Defined.

End ParserFacts.

(** ** observability.py: redaction *)

Module ObservabilityFacts.
Import Observability.

(** The recursive call: a nested dictionary under a key that is not
    sensitive is redacted by [_redact_params] itself. *)
Lemma redact_item_dict (key : Py.str) (d : dict) :
  Py.any_in redact_keys (Py.lower key) = false ->
  redact_item key (VDict d) = VDict (_redact_params d).
Proof.
  intros Hk. cbn [redact_item]. rewrite Hk. reflexivity.
Qed.

Lemma in_redact_params (params : dict) (k : Py.str) (v : value) :
  In (k, v) params -> In (k, redact_item k v) (_redact_params params).
Proof.
  induction params as [|[k' v'] params IH]; [intros []|].
  intros [H|H]; cbn [_redact_params].
  - inversion H; subst. now left.
  - right. now apply IH.
Qed.

(** A parameter is sensitive when its key, or its value if that is a
    string, contains one of the sensitive words. *)
Definition sensitive_key (k : Py.str) : Prop :=
  exists r, In r redact_keys /\ Py.contains r k = true.

Definition sensitive_value (v : value) : Prop :=
  exists s r, v = VStr s /\ In r redact_keys /\ Py.contains r s = true.

(** The claim of C2 as the specification states it, at one dictionary. *)
Definition redaction_total (params : dict) : Prop :=
  forall k v, In (k, v) params -> sensitive_key k \/ sensitive_value v ->
  In (k, VStr REDACTED) (_redact_params params).

Definition username_params : dict :=
  [("user" : Py.str, VStr "secret-token-1234")].

(** C2, refuted as stated.  A string longer than four characters under a
    key that contains "user" or "id" is logged as it is, sensitive words
    and all. *)
Theorem redaction_total_refuted : ~ redaction_total username_params.
Proof.
  intros H.
  specialize (H ("user" : Py.str) (VStr "secret-token-1234")).
  assert (Hin : In ("user" : Py.str, VStr "secret-token-1234") username_params)
    by now left.
  assert (Hs : sensitive_key "user" \/ sensitive_value (VStr "secret-token-1234")).
  { right. exists ("secret-token-1234" : Py.str), ("secret" : Py.str).
    split; [reflexivity|]. split; [|reflexivity].
    right. right. right. right. now left. }
  specialize (H Hin Hs). vm_compute in H.
  destruct H as [H|[]]. discriminate H.
Qed.

Lemma startswith_lower (p t : Py.str) :
  Py.lower p = p -> Py.startswith p t = true ->
  Py.startswith p (Py.lower t) = true.
Proof.
  revert t. induction p as [|a p IHp]; intros t Hp; [reflexivity|].
  destruct t as [|b t]; [discriminate|].
  cbn [Py.lower map] in Hp. injection Hp as Ha Hp'.
  cbn [Py.startswith Py.lower map]. intros H.
  apply andb_true_iff in H as [Hab Ht].
  apply Ascii.eqb_eq in Hab. subst b.
  rewrite Ha, Ascii.eqb_refl. cbn [andb].
  apply (IHp t Hp' Ht).
Qed.

Lemma contains_lower (r s : Py.str) :
  Py.lower r = r -> Py.contains r s = true ->
  Py.contains r (Py.lower s) = true.
Proof.
  intros Hr. induction s as [|c s IH]; cbn [Py.contains]; intros H.
  - apply orb_true_iff in H as [H|H]; [|discriminate].
    destruct r; [reflexivity | discriminate].
  - apply orb_true_iff in H as [H|H].
    + change (Py.lower (c :: s)) with (Py.lower_char c :: Py.lower s).
      pose proof (startswith_lower r (c :: s) Hr H) as Hs.
      change (Py.lower (c :: s)) with (Py.lower_char c :: Py.lower s) in Hs.
      cbn [Py.contains]. now rewrite Hs.
    + change (Py.lower (c :: s)) with (Py.lower_char c :: Py.lower s).
      cbn [Py.contains]. rewrite (IH H). apply orb_true_r.
Qed.

Lemma redact_keys_lower (r : Py.str) : In r redact_keys -> Py.lower r = r.
Proof.
  intros H. repeat (destruct H as [<-|H]; [reflexivity|]). destruct H.
Qed.

Lemma sensitive_any_in (s : Py.str) :
  (exists r, In r redact_keys /\ Py.contains r s = true) ->
  Py.any_in redact_keys (Py.lower s) = true.
Proof.
  intros [r [Hr Hc]]. unfold Py.any_in. apply existsb_exists.
  exists r. split; [exact Hr|].
  apply contains_lower; [now apply redact_keys_lower | exact Hc].
Qed.

(** The test of the code: a sensitive word in the text, in any letter
    case. *)
Definition mentions_secret (s : Py.str) : bool :=
  Py.any_in redact_keys (Py.lower s).

Lemma sensitive_key_mentions (k : Py.str) :
  sensitive_key k -> mentions_secret k = true.
Proof. apply sensitive_any_in. Qed.

Lemma sensitive_value_mentions (v : value) :
  sensitive_value v -> exists s, v = VStr s /\ mentions_secret s = true.
Proof.
  intros [s [r [-> [Hr Hc]]]]. exists s. split; [reflexivity|].
  apply sensitive_any_in. exists r. now split.
Qed.

(** The exemption of user names: a string of more than four characters
    under a key that contains "user" or "id". *)
Definition kept_as_username (k : Py.str) (v : value) : Prop :=
  exists s, v = VStr s
    /\ (4 < Z.of_nat (length s))
    /\ Py.any_in ["user" : Py.str; "id" : Py.str] (Py.lower k) = true.

(** C2, amended.  A parameter whose key contains a sensitive word, in any
    letter case, is replaced by the placeholder; so is a parameter whose
    string value contains one, unless the value is longer than four
    characters and the key contains "user" or "id": such a value, under a key
    that is not itself sensitive, is kept as it is.  A dictionary under a key
    that is not sensitive is redacted in the same way, recursively. *)
Theorem redact_params_sensitive (params : dict) (k : Py.str) (v : value) :
  In (k, v) params ->
  (mentions_secret k = true -> In (k, VStr REDACTED) (_redact_params params))
  /\ (forall s, v = VStr s -> mentions_secret s = true ->
      ~ kept_as_username k v ->
      In (k, VStr REDACTED) (_redact_params params))
  /\ (kept_as_username k v -> mentions_secret k = false ->
      In (k, v) (_redact_params params))
  /\ (forall d, v = VDict d -> mentions_secret k = false ->
      In (k, VDict (_redact_params d)) (_redact_params params)).
Proof.
  intros Hin. apply in_redact_params in Hin. unfold mentions_secret.
  split; [|split; [|split]].
  - intros Hk.
    destruct v; cbn [redact_item] in Hin; rewrite Hk in Hin; exact Hin.
  - intros s -> Hs Hkeep.
    cbn [redact_item] in Hin.
    destruct (Py.any_in redact_keys (Py.lower k)); [exact Hin|].
    destruct ((4 <? Z.of_nat (length s))
              && Py.any_in ["user" : Py.str; "id" : Py.str] (Py.lower k))
      eqn:E.
    + exfalso. apply Hkeep. exists s. apply andb_true_iff in E as [E1 E2].
      split; [reflexivity|]. split; [now apply Z.ltb_lt | exact E2].
    + now rewrite Hs in Hin.
  - intros [s [-> [Hlen Hu]]] Hk.
    cbn [redact_item] in Hin. rewrite Hk, Hu in Hin.
    apply Z.ltb_lt in Hlen. now rewrite Hlen in Hin.
  - intros d -> Hk. now rewrite redact_item_dict in Hin.
Qed.

Lemma redact_params_sensitive_witness :
  In (("password" : Py.str), VStr REDACTED)
     (_redact_params [("row" : Py.str, VInt 5);
                      ("password" : Py.str, VStr "hunter2")])
  /\ In (("text" : Py.str), VStr REDACTED)
        (_redact_params [("text" : Py.str, VStr "my token is 1234")]).
Proof.
  split.
  - apply (redact_params_sensitive
             [("row" : Py.str, VInt 5); ("password" : Py.str, VStr "hunter2")]
             "password" (VStr "hunter2")); [right; now left | reflexivity].
  - refine (proj1 (proj2 (redact_params_sensitive
             [("text" : Py.str, VStr "my token is 1234")]
             "text" (VStr "my token is 1234") _))
             "my token is 1234" eq_refl eq_refl _); [now left|].
    intros [s [_ [_ H]]]. discriminate H.
Defined.

End ObservabilityFacts.

(** ** screen_fingerprint.py: matching *)

Module MatcherFacts.
Import Fingerprint.

(** A rule of an [any] or [all] list without a predicate key. *)
Definition no_predicate (rule : Rule) : Prop :=
  ascii_contains rule = None /\ ascii_regex rule = None.

(** A list of sub-rules, absent or holding no predicate key at all. *)
Definition no_predicates (rules : option (list Rule)) : Prop :=
  forall rs, rules = Some rs -> Forall no_predicate rs.

Section Matching.
Variable re_search : Py.str -> Py.str -> Py.result bool.

Lemma any_rules_none (text : Py.str) (rs : list Rule) :
  Forall no_predicate rs -> any_rules re_search text rs = Ok None.
Proof.
  induction 1 as [|r rs [Hc Hr] _ IH]; [reflexivity|].
  cbn [any_rules]. unfold rule_any. rewrite Hc, Hr. exact IH.
Qed.

Lemma all_rules_none (text : Py.str) (rs : list Rule) :
  Forall no_predicate rs ->
  exists b, all_rules re_search text rs [] = Ok (b, []).
Proof.
  destruct 1 as [|r rs [Hc Hr] _].
  - exists true. reflexivity.
  - exists false. cbn [all_rules]. now rewrite Hc, Hr.
Qed.

Lemma match_content_fail_closed (text : Py.str) (sid : ScreenId) :
  sid_ascii_contains sid = None -> sid_ascii_regex sid = None ->
  no_predicates (sid_any sid) ->
  (forall m, sid_match sid = Some m ->
             no_predicates (m_any m) /\ no_predicates (m_all m)) ->
  match_content re_search text sid = Ok (false, None).
Proof.
  intros Hc Hr Hany Hm. unfold match_content. rewrite Hc, Hr.
  assert (Htop :
    match sid_any sid with
    | Some rules =>
        hit <- any_rules re_search text rules ;;
        Ok (match hit with Some d => (true, Some d) | None => (false, None) end)
    | None => Ok (false, None)
    end = Ok (false, @None Py.str)).
  { destruct (sid_any sid) as [rs|]; [|reflexivity].
    now rewrite any_rules_none by now apply Hany. }
  destruct (sid_match sid) as [m|]; [|exact Htop].
  destruct (Hm m eq_refl) as [Ha Hl].
  assert (Hall :
    match m_all m with
    | Some rules =>
        st <- all_rules re_search text rules [] ;;
        let '(all_matched, matched_rules) := st in
        if all_matched && negb (Nat.eqb (length matched_rules) 0)
        then Ok (true, Some (Py.join " AND " matched_rules))
        else
          match sid_any sid with
          | Some rules =>
              hit <- any_rules re_search text rules ;;
              Ok (match hit with
                  | Some d => (true, Some d) | None => (false, None) end)
          | None => Ok (false, None)
          end
    | None =>
        match sid_any sid with
        | Some rules =>
            hit <- any_rules re_search text rules ;;
            Ok (match hit with
                | Some d => (true, Some d) | None => (false, None) end)
        | None => Ok (false, None)
        end
    end = Ok (false, @None Py.str)).
  { destruct (m_all m) as [rs|]; [|exact Htop].
    destruct (all_rules_none text rs (Hl rs eq_refl)) as [b ->].
    cbn [Py.bind length Nat.eqb negb]. rewrite andb_false_r. exact Htop. }
  destruct (m_any m) as [rs|]; [|exact Hall].
  rewrite any_rules_none by now apply Ha. exact Hall.
Qed.

End Matching.

(** C7.  Match rules fail closed: a screen ID without a recognized
    predicate key -- no [ascii_contains] and no [ascii_regex], neither on the
    rule itself nor on any sub-rule of [any], [match.any] or [match.all],
    these lists being absent or not -- matches no snapshot:
    [match_screen] returns [(False, None)], whatever the regex engine. *)
Theorem match_screen_fail_closed
        (re_search : Py.str -> Py.str -> Py.result bool)
        (snapshot : Snapshot) (screen_id : ScreenId) :
  sid_ascii_contains screen_id = None ->
  sid_ascii_regex screen_id = None ->
  no_predicates (sid_any screen_id) ->
  (forall m, sid_match screen_id = Some m ->
             no_predicates (m_any m) /\ no_predicates (m_all m)) ->
  match_screen re_search snapshot screen_id = Ok (false, None).
Proof.
  intros Hc Hr Hany Hm. unfold match_screen.
  destruct (match sid_match screen_id with
            | Some match_rules => _ | None => false end); [reflexivity|].
  destruct (match sid_stability screen_id with
            | Some stability => _ | None => false end); [reflexivity|].
  now apply match_content_fail_closed.
Qed.

(** A screen ID with nothing but dimensions and a stability bound. *)
Definition dims_only : ScreenId :=
  mkScreenId (Some (mkMatchRules (Some 80) (Some 24) None None))
             (Some (mkStability (Some 3))) None None None.

Definition ready_screen : Snapshot :=
  mkSnapshot (Some 24) (Some 80) (Some (0, 0)) (Some ("READY" : Py.str))
             (Some []) None.

Lemma match_screen_fail_closed_witness :
  match_screen (fun _ _ => Ok true) ready_screen dims_only = Ok (false, None).
Proof.
  apply (match_screen_fail_closed (fun _ _ => Ok true) ready_screen dims_only).
  - reflexivity.
  - reflexivity.
  - intros rs H. discriminate H.
  - intros m H. inversion H; subst m. split; intros rs H'; discriminate H'.
Defined.

(** The scenario of the specification: the first hit of [match.any] wins
    and is reported. *)
Example match_screen_scenario :
  match_screen (fun _ _ => Ok false)
    (mkSnapshot None None None (Some ("TSO/E LOGON ... " : Py.str)) None None)
    (mkScreenId
       (Some (mkMatchRules None None
                (Some [mkRule (Some ("TSO/E LOGON" : Py.str)) None]) None))
       None None None None)
  = Ok (true, Some ("ascii_contains: TSO/E LOGON" : Py.str)).
Proof. reflexivity. Qed.

End MatcherFacts.

(** ** session.py: connect *)

Module SessionFacts.
Import Session.





Section Driver.
Variable Proc : Type.
Variable popen : option Py.str -> Py.result Proc.
Variable running : Proc -> bool.
Variable exchange : Py.str -> Proc -> Proc * list Py.str.
Variable parse : Py.str -> option StatusLine.

Let connect := connect Proc popen running exchange parse.



End Driver.


End SessionFacts.

(** ** flow_runner.py *)

Module FlowFacts.
Import Fingerprint FlowRunner.

(** The step kinds [execute_step] knows. *)
Definition known_kinds : list Py.str :=
  [ "wait_ready" : Py.str; "wait_change" : Py.str; "press" : Py.str;
    "fill_at" : Py.str; "fill_by_label" : Py.str; "assert_screen" : Py.str;
    "assert_not_screen" : Py.str; "snapshot" : Py.str; "golden:save" : Py.str;
    "golden:assert" : Py.str; "sleep_ms" : Py.str ].

Definition known_kind (step_type : Py.str) : bool :=
  existsb (Py.str_eqb step_type) known_kinds.

Section Run.
Context {W : Type} (drv : Driver W).

Lemma dispatch_unknown (step_type : Py.str) (params : Params) :
  known_kind step_type = false ->
  dispatch drv step_type params =
  (log_transcript drv ("unknown step: " ++ step_type) "SKIPPED" false ;;;
   Eff.ret true).
Proof.
  unfold known_kind, known_kinds. cbn [existsb]. intros H.
  repeat (apply orb_false_elim in H; destruct H as [?E H]).
  unfold dispatch.
  repeat match goal with E : Py.str_eqb _ _ = false |- _ =>
    rewrite E; clear E end.
  reflexivity.
Qed.

(** The transcript after one call of [log_transcript]. *)
Lemma transcript_logged (ts action result : Py.str) (secret : bool)
      (r : Runner W) :
  transcript (logged ts action result secret r)
  = transcript r
    ++ [mkEntry ts action
          (if secret && negb (Py.blank_str result)
           then "***REDACTED***" : Py.str else result)
          (short_digest (current_digest r))].
Proof. unfold logged. cbn. now destruct (trace r). Qed.

End Run.

(** C8.  A step whose kind is none of the eleven known ones is a no-op
    that succeeds: [execute_step] returns True without raising, appends the
    one entry "unknown step: <kind>" / "SKIPPED" to the transcript, calls
    nothing but the clock of that entry, and writes no file. *)
Theorem execute_step_unknown_kind
        (W : Type) (drv : Driver W) (step_type : Py.str) (v : StepValue)
        (rest : Step) (r : Runner W) :
  known_kind step_type = false ->
  exists r',
    execute_step drv ((step_type, v) :: rest) r = (r', Ok true)
    /\ transcript r'
       = transcript r
         ++ [mkEntry (snd (now_iso drv (world r)))
                     ("unknown step: " ++ step_type) "SKIPPED"
                     (short_digest (current_digest r))]
    /\ world r' = fst (now_iso drv (world r))
    /\ goldens r' = goldens r
    /\ failure_files r' = failure_files r
    /\ current_digest r' = current_digest r.
Proof.
  intros H. unfold execute_step.
  rewrite (dispatch_unknown drv step_type _ H).
  unfold Eff.try_except, Eff.mbind, log_transcript, Eff.mbind, call,
    Eff.modify, Eff.ret.
  destruct (now_iso drv (world r)) as [w ts]. cbn [fst snd].
  eexists. split; [reflexivity|].
  rewrite transcript_logged. cbn.
  repeat split; unfold logged; cbn; now destruct (trace r).
Qed.

(** *** What a method appends to the transcript *)

Section Transcript.
Context {W : Type} (drv : Driver W).

(** The method only appends to the transcript. *)
Definition keeps {A : Type} (c : Eff.M (Runner W) A) : Prop :=
  forall r r' x, c r = (r', x) ->
  exists es, transcript r' = transcript r ++ es.

(** The method only appends, and at least one entry when it returns. *)
Definition adds {A : Type} (c : Eff.M (Runner W) A) : Prop :=
  forall r r' x, c r = (r', x) ->
  exists es, transcript r' = transcript r ++ es
             /\ (forall a, x = Ok a -> es <> []).

Lemma adds_keeps {A : Type} (c : Eff.M (Runner W) A) : adds c -> keeps c.
Proof. intros H r r' x E. destruct (H r r' x E) as [es [? _]]. now exists es. Qed.

Lemma keeps_ret {A : Type} (a : A) : keeps (Eff.ret a).
Proof. intros r r' x E. inversion E. exists []. now rewrite app_nil_r. Qed.

Lemma keeps_raise {A : Type} (e : Py.exn) : keeps (@Eff.raise _ A e).
Proof. intros r r' x E. inversion E. exists []. now rewrite app_nil_r. Qed.

Lemma keeps_gets {A : Type} (f : Runner W -> A) : keeps (Eff.gets f).
Proof. intros r r' x E. inversion E. exists []. now rewrite app_nil_r. Qed.

Lemma keeps_pure {A : Type} (f : Runner W -> Py.result A) :
  keeps (fun r => (r, f r)).
Proof. intros r r' x E. inversion E. exists []. now rewrite app_nil_r. Qed.

Lemma keeps_modify (f : Runner W -> Runner W) :
  (forall r, transcript (f r) = transcript r) -> keeps (Eff.modify f).
Proof.
  intros Hf r r' x E. inversion E. exists []. now rewrite app_nil_r, Hf.
Qed.

Lemma keeps_call {A : Type} (f : W -> W * A) : keeps (call f).
Proof.
  intros r r' x E. unfold call in E. destruct (f (world r)) as [w a].
  inversion E. exists []. now rewrite app_nil_r.
Qed.

Lemma keeps_call_result {A : Type} (f : W -> W * Py.result A) :
  keeps (call_result f).
Proof.
  intros r r' x E. unfold call_result in E. destruct (f (world r)) as [w a].
  inversion E. exists []. now rewrite app_nil_r.
Qed.

Lemma keeps_bind {A B : Type} (c : Eff.M (Runner W) A)
      (k : A -> Eff.M (Runner W) B) :
  keeps c -> (forall a, keeps (k a)) -> keeps (Eff.mbind c k).
Proof.
  intros Hc Hk r r' x E. unfold Eff.mbind in E.
  destruct (c r) as [r1 [a|e]] eqn:Ec.
  - destruct (Hc _ _ _ Ec) as [es1 H1]. destruct (Hk a _ _ _ E) as [es2 H2].
    exists (es1 ++ es2). now rewrite H2, H1, app_assoc.
  - inversion E; subst. apply (Hc _ _ _ Ec).
Qed.

Lemma keeps_try {A : Type} (c : Eff.M (Runner W) A)
      (h : Py.exn -> Eff.M (Runner W) A) :
  keeps c -> (forall e, keeps (h e)) -> keeps (Eff.try_except c h).
Proof.
  intros Hc Hh r r' x E. unfold Eff.try_except in E.
  destruct (c r) as [r1 [a|e]] eqn:Ec.
  - inversion E; subst. apply (Hc _ _ _ Ec).
  - destruct (Hc _ _ _ Ec) as [es1 H1]. destruct (Hh e _ _ _ E) as [es2 H2].
    exists (es1 ++ es2). now rewrite H2, H1, app_assoc.
Qed.

Lemma adds_bind_l {A B : Type} (c : Eff.M (Runner W) A)
      (k : A -> Eff.M (Runner W) B) :
  adds c -> (forall a, keeps (k a)) -> adds (Eff.mbind c k).
Proof.
  intros Hc Hk r r' x E. unfold Eff.mbind in E.
  destruct (c r) as [r1 [a|e]] eqn:Ec.
  - destruct (Hc _ _ _ Ec) as [es1 [H1 N1]].
    destruct (Hk a _ _ _ E) as [es2 H2].
    exists (es1 ++ es2). split; [now rewrite H2, H1, app_assoc|].
    intros _ _ Hnil. apply app_eq_nil in Hnil as [Hnil _].
    now apply (N1 a).
  - inversion E; subst. destruct (Hc _ _ _ Ec) as [es1 [H1 _]].
    exists es1. split; [exact H1 | discriminate].
Qed.

Lemma adds_bind_r {A B : Type} (c : Eff.M (Runner W) A)
      (k : A -> Eff.M (Runner W) B) :
  keeps c -> (forall a, adds (k a)) -> adds (Eff.mbind c k).
Proof.
  intros Hc Hk r r' x E. unfold Eff.mbind in E.
  destruct (c r) as [r1 [a|e]] eqn:Ec.
  - destruct (Hc _ _ _ Ec) as [es1 H1].
    destruct (Hk a _ _ _ E) as [es2 [H2 N2]].
    exists (es1 ++ es2). split; [now rewrite H2, H1, app_assoc|].
    intros b Hb Hnil. apply app_eq_nil in Hnil as [_ Hnil].
    now apply (N2 b).
  - inversion E; subst. destruct (Hc _ _ _ Ec) as [es1 H1].
    exists es1. split; [exact H1 | discriminate].
Qed.

Lemma adds_try {A : Type} (c : Eff.M (Runner W) A)
      (h : Py.exn -> Eff.M (Runner W) A) :
  adds c -> (forall e, adds (h e)) -> adds (Eff.try_except c h).
Proof.
  intros Hc Hh r r' x E. unfold Eff.try_except in E.
  destruct (c r) as [r1 [a|e]] eqn:Ec.
  - inversion E; subst. apply (Hc _ _ _ Ec).
  - destruct (Hc _ _ _ Ec) as [es1 [H1 _]].
    destruct (Hh e _ _ _ E) as [es2 [H2 N2]].
    exists (es1 ++ es2). split; [now rewrite H2, H1, app_assoc|].
    intros b Hb Hnil. apply app_eq_nil in Hnil as [_ Hnil].
    now apply (N2 b).
Qed.

Lemma adds_log (action result : Py.str) (secret : bool) :
  adds (log_transcript drv action result secret).
Proof.
  intros r r' x E.
  unfold log_transcript, Eff.mbind, call, Eff.modify in E.
  destruct (now_iso drv (world r)) as [w ts]. inversion E; subst.
  rewrite transcript_logged. cbn. eexists. split; [reflexivity|].
  intros _ _ H. discriminate H.
Qed.

End Transcript.

Create HintDb transcript.

(** A proof that a method keeps the transcript: by its structure, and by
    the lemmas of the database for the methods it calls. *)
Ltac keeps_tac :=
  lazymatch goal with
  | |- keeps (Eff.mbind _ _) => apply keeps_bind; [keeps_tac | intro; keeps_tac]
  | |- keeps (Eff.try_except _ _) =>
      apply keeps_try; [keeps_tac | intro; keeps_tac]
  | |- keeps (log_transcript _ _ _ _) => apply adds_keeps, adds_log
  | |- keeps (Eff.modify _) => apply keeps_modify; intro; reflexivity
  | |- keeps (Eff.ret _) => apply keeps_ret
  | |- keeps (Eff.raise _) => apply keeps_raise
  | |- keeps (Eff.gets _) => apply keeps_gets
  | |- keeps (call _) => apply keeps_call
  | |- keeps (call_result _) => apply keeps_call_result
  | |- keeps (fun _ => (_, _)) => apply keeps_pure
  | |- keeps (if ?b then _ else _) => destruct b; keeps_tac
  | |- keeps (match ?x with _ => _ end) => destruct x; keeps_tac
  | |- keeps _ => solve [auto 1 with transcript]
  end.

(** A proof that a method adds to the transcript: one of the methods it
    runs in sequence adds, the others keep. *)
Ltac adds_tac :=
  lazymatch goal with
  | |- adds (Eff.mbind (log_transcript _ _ _ _) _) =>
      apply adds_bind_l; [apply adds_log | intro; keeps_tac]
  | |- adds (Eff.mbind _ _) =>
      first [ apply adds_bind_r; [solve [keeps_tac] | intro; adds_tac]
            | apply adds_bind_l; [adds_tac | intro; keeps_tac] ]
  | |- adds (Eff.try_except _ _) => apply adds_try; [adds_tac | intro; adds_tac]
  | |- adds (log_transcript _ _ _ _) => apply adds_log
  | |- adds (if ?b then _ else _) => destruct b; adds_tac
  | |- adds (match ?x with _ => _ end) => destruct x; adds_tac
  | |- adds _ => solve [auto 1 with transcript]
  end.

Section Steps.
Context {W : Type} (drv : Driver W).

Lemma keeps_get_screen : keeps (get_screen drv).
Proof. unfold get_screen. keeps_tac. Qed.

Lemma keeps_save_failure_screen (n t : Py.str) :
  keeps (save_failure_screen drv n t).
Proof. unfold save_failure_screen. keeps_tac. Qed.

Lemma keeps_wait_ready_loop (polls : nat) (start timeout : Z) :
  keeps (wait_ready_loop drv polls start timeout).
Proof.
  induction polls as [|polls IH]; cbn [wait_ready_loop]; [keeps_tac|].
  apply keeps_bind; [keeps_tac | intro now].
  destruct (now - start <? timeout); [|keeps_tac].
  apply keeps_bind; [keeps_tac | intros [|]]; [keeps_tac|].
  apply keeps_bind; [keeps_tac | intro; exact IH].
Qed.

Lemma keeps_wait_change_loop (polls : nat) (start timeout : Z)
      (d : option Py.str) :
  keeps (wait_change_loop drv polls start timeout d).
Proof.
  induction polls as [|polls IH]; cbn [wait_change_loop]; [keeps_tac|].
  apply keeps_bind; [keeps_tac | intro now].
  destruct (now - start <? timeout); [|keeps_tac].
  apply keeps_bind; [apply keeps_get_screen | intro snapshot].
  destruct (negb (opt_str_eqb (snap_digest snapshot) d)); [keeps_tac|].
  apply keeps_bind; [keeps_tac | intro; exact IH].
Qed.

Lemma keeps_wait_ready (t : Z) : keeps (wait_ready drv t).
Proof.
  unfold wait_ready. apply keeps_bind; [keeps_tac | intro].
  apply keeps_wait_ready_loop.
Qed.

Lemma keeps_wait_change (t : Z) : keeps (wait_change drv t).
Proof.
  unfold wait_change. apply keeps_bind; [keeps_tac | intro].
  apply keeps_bind; [keeps_tac | intro]. apply keeps_wait_change_loop.
Qed.

Lemma keeps_item {A : Type} (o : option A) (key : Py.str) :
  keeps (@item W A o key).
Proof. unfold item. keeps_tac. Qed.

Lemma keeps_fill_value (params : Params) : keeps (@fill_value W params).
Proof. unfold fill_value. keeps_tac. Qed.

End Steps.

#[local] Hint Resolve keeps_get_screen keeps_save_failure_screen
  keeps_wait_ready keeps_wait_change keeps_item keeps_fill_value : transcript.

Section Flow.
Context {W : Type} (drv : Driver W).

Lemma adds_press (aid : Py.str) : adds (press drv aid).
Proof. unfold press. adds_tac. Qed.

Lemma adds_fill_at (row col : Z) (value : Py.str) (secret : bool) :
  adds (fill_at drv row col value secret).
Proof. unfold fill_at. adds_tac. Qed.

Lemma adds_fill_by_label (label : Py.str) (offset : Z) (value : Py.str)
      (secret : bool) :
  adds (fill_by_label drv label offset value secret).
Proof. unfold fill_by_label. adds_tac. Qed.

#[local] Hint Resolve adds_press adds_fill_at adds_fill_by_label : transcript.

Lemma adds_dispatch (step_type : Py.str) (params : Params) :
  adds (dispatch drv step_type params).
Proof. unfold dispatch. adds_tac. Qed.

(** Every attempt of a step that returns leaves at least one entry. *)
Lemma adds_execute_step (step : Step) : adds (execute_step drv step).
Proof.
  unfold execute_step. destruct step as [|[step_type v] rest].
  - intros r r' x E. inversion E. exists []. split;
      [now rewrite app_nil_r | discriminate].
  - apply adds_try; [apply adds_dispatch | intro e]. adds_tac.
Qed.

(** The actions of a rule that all succeed leave at least an entry each. *)
Lemma run_actions_entries (actions : list Step) (r r' : Runner W) :
  run_actions drv actions r = (r', Ok true) ->
  exists es, transcript r' = transcript r ++ es
             /\ (length actions <= length es)%nat.
Proof.
  revert r. induction actions as [|a actions IH]; intros r E.
  - inversion E. exists []. split; [now rewrite app_nil_r | reflexivity].
  - cbn [run_actions] in E. unfold Eff.mbind in E.
    destruct (execute_step drv a r) as [r1 [ok|e]] eqn:Ea; [|discriminate].
    destruct ok; [|discriminate].
    destruct (adds_execute_step a _ _ _ Ea) as [es1 [H1 N1]].
    destruct (IH _ E) as [es2 [H2 L2]].
    exists (es1 ++ es2). split; [now rewrite H2, H1, app_assoc|].
    rewrite length_app. cbn [length].
    destruct es1; [now destruct (N1 true eq_refl) | cbn [length]; lia].
Qed.

(** A recovery rule is triggered by a screen text. *)
Definition triggered (ascii_text : Py.str) (rule : RecoveryRule) : bool :=
  match when_ascii_contains rule with
  | Some t => Py.contains t ascii_text
  | None => false
  end.

(** [handle_recovery] runs the first rule the screen triggers. *)
Lemma scan_rules_first (ascii_text : Py.str)
      (before after : list RecoveryRule) (rule : RecoveryRule) (t : Py.str) :
  Forall (fun p => triggered ascii_text p = false) before ->
  when_ascii_contains rule = Some t -> Py.contains t ascii_text = true ->
  scan_rules drv ascii_text (before ++ rule :: after)
  = (log_transcript drv ("Recovery triggered: " ++ t) "" false ;;;
     run_actions drv (get_default (rule_do rule) [])).
Proof.
  intros Hb Ht Hc. induction Hb as [|p before Hp _ IH]; cbn [app scan_rules].
  - now rewrite Ht, Hc.
  - unfold triggered in Hp. destruct (when_ascii_contains p); [|exact IH].
    now rewrite Hp.
Qed.

(** The loop of [execute_flow] on a step that fails: recovery decides. *)
Lemma run_steps_failed (recovery : option (list RecoveryRule)) (i : nat)
      (step : Step) (rest : list Step) (r r1 : Runner W) :
  execute_step drv step r = (r1, Ok false) ->
  run_steps drv recovery i (step :: rest) r
  = (recovered <~ match recovery with
                  | Some rules => handle_recovery drv rules
                  | None => Eff.ret false
                  end ;;
     if recovered then run_steps drv recovery (S i) rest
     else
       log_transcript drv ("Flow failed at step "
                           ++ Py.str_of_int (Z.of_nat i + 1)) "" false ;;;
       Eff.ret false) r1.
Proof.
  intros E. cbn [run_steps]. unfold Eff.mbind at 1. now rewrite E.
Qed.

End Flow.

(** *** Fixtures: a bridge that always shows the same screen *)

Definition fixed_screen (text : Py.str) : Snapshot :=
  mkSnapshot (Some 24) (Some 80) (Some (1, 1)) (Some text) (Some [])
             (Some ("5f2a11c09d3e4b7a8c6d" : Py.str)).

(** Every request succeeds, the clocks stand still, no regex matches and
    the diff is empty. *)
Definition fixed_driver (text : Py.str) : Driver unit :=
  mkDriver unit
    (fun w => (w, Ok (fixed_screen text)))
    (fun w => (w, Ok true))
    (fun _ w => (w, Ok 200))
    (fun _ _ _ w => (w, Ok 200))
    (fun _ _ _ w => (w, Ok 200))
    (fun w => (w, "2024-01-01T00:00:00" : Py.str))
    (fun w => (w, "20240101_000000" : Py.str))
    (fun w => (w, 0))
    (fun _ w => w)
    (fun _ _ => Ok false)
    (fun _ _ _ _ => [])
    3.

(** A runner that has logged nothing yet. *)
Definition fresh (dir : GoldenDir) : Runner unit :=
  mkRunner false [] None [] false false dir [] [] tt.

Definition named (name : Py.str) : Params :=
  mkParams None None None None None None None None None (Some name) None
           (mkScreenId None None None None None).

Definition golden_assert_step (name : Py.str) : Step :=
  [("golden:assert" : Py.str, SDict (named name))].

Definition assert_contains (text : Py.str) : Step :=
  [("assert_screen" : Py.str,
    SDict (mkParams None None None None None None None None None None None
                    (mkScreenId None None (Some text) None None)))].

Definition press_enter : Step := [("press" : Py.str, SDict no_params)].

(** A golden recorded from another screen. *)
Definition old_golden : GoldenDir :=
  [("ready" : Py.str,
    mkGoldenFiles "OLD SCREEN" (Some (compute_digest "OLD SCREEN")) 24 80 0
                  (0, 0))].

(** *** Golden mismatches and recovery *)

(** The claim of C3 as the specification states it: a golden:assert step
    that fails on a digest mismatch fails the flow, recovery or not. *)
Definition golden_mismatch_never_recovered {W : Type} (drv : Driver W) : Prop :=
  forall recovery i name rest (r r1 : Runner W),
    lookup name (goldens r) <> None ->
    execute_step drv (golden_assert_step name) r = (r1, Ok false) ->
    snd (run_steps drv recovery i (golden_assert_step name :: rest) r)
    = Ok false.

(** C3, refuted as stated.  The screen differs from the golden "ready",
    the step fails, the recovery rule of the flow is triggered by the
    screen, and the flow goes on and completes. *)
Theorem golden_mismatch_recovered :
  ~ golden_mismatch_never_recovered (fixed_driver "NEW SCREEN").
Proof.
  intros H.
  specialize (H (Some [mkRecoveryRule (Some ("NEW" : Py.str)) (Some [])])
                0%nat ("ready" : Py.str) [] (fresh old_golden)
                (fst (execute_step (fixed_driver "NEW SCREEN")
                                   (golden_assert_step "ready")
                                   (fresh old_golden)))).
  assert (H1 : lookup "ready" (goldens (fresh old_golden)) <> None)
    by (vm_compute; discriminate).
  assert (H2 : execute_step (fixed_driver "NEW SCREEN")
                 (golden_assert_step "ready") (fresh old_golden)
               = (fst (execute_step (fixed_driver "NEW SCREEN")
                                    (golden_assert_step "ready")
                                    (fresh old_golden)), Ok false))
    by (vm_compute; reflexivity).
  specialize (H H1 H2). vm_compute in H. discriminate H.
Qed.

Section Golden.
Context {W : Type} (drv : Driver W).

Lemma dispatch_golden_assert (params : Params) :
  dispatch drv "golden:assert" params =
  (name <~ item (p_name params) "name" ;;
   snapshot <~ get_screen drv ;;
   res <~ Eff.gets (fun r => assert_golden (unified_diff drv) name snapshot
                                           (goldens r)) ;;
   let '(matches, diff) := res in
   (if matches then
      log_transcript drv ("golden:assert: " ++ name) "matches" false
    else
      log_transcript drv ("golden:assert: " ++ name) "FAILED" false ;;;
      tr <~ Eff.gets trace ;;
      if tr then Eff.modify (print ("Diff:" ++ [newline] ++ diff))
      else Eff.ret tt) ;;;
   Eff.ret matches).
Proof. reflexivity. Qed.

(** [get_screen] that returns: the state it leaves. *)
Lemma get_screen_ok (r r' : Runner W) (snap : Snapshot) :
  get_screen drv r = (r', Ok snap) ->
  r' = set_current_digest (snap_digest snap)
                          (set_world (fst (api_screen drv (world r))) r)
  /\ api_screen drv (world r) = (fst (api_screen drv (world r)), Ok snap).
Proof.
  unfold get_screen, Eff.mbind, call_result, Eff.modify, Eff.ret.
  destruct (api_screen drv (world r)) as [w [s|e]]; [|discriminate].
  intros E. inversion E; subst. now split.
Qed.

Lemma get_screen_of_api (r : Runner W) (w : W) (snap : Snapshot) :
  api_screen drv (world r) = (w, Ok snap) ->
  get_screen drv r
  = (set_current_digest (snap_digest snap) (set_world w r), Ok snap).
Proof.
  intros E. unfold get_screen, Eff.mbind, call_result, Eff.modify, Eff.ret.
  now rewrite E.
Qed.

End Golden.

(** C3, amended.  When the screen read by a golden:assert step differs
    from the golden, the step returns False after appending the one entry
    "golden:assert: <name>" / "FAILED" to the transcript; the line-level diff
    is printed only in trace mode; and the failure is handled like that of
    any other step: the recovery rules of the flow are consulted, the flow
    goes on with the next step if they recover, and fails otherwise. *)
Theorem golden_assert_mismatch_routed
        (W : Type) (drv : Driver W)
        (recovery : option (list RecoveryRule)) (i : nat) (name : Py.str)
        (rest : list Step) (r : Runner W) (w : W) (snap : Snapshot)
        (diff : Py.str) :
  api_screen drv (world r) = (w, Ok snap) ->
  assert_golden (unified_diff drv) name snap (goldens r) = (false, diff) ->
  exists r1,
    execute_step drv (golden_assert_step name) r = (r1, Ok false)
    /\ transcript r1
       = transcript r
         ++ [mkEntry (snd (now_iso drv w)) ("golden:assert: " ++ name)
                     "FAILED" (short_digest (snap_digest snap))]
    /\ stdout r1
       = stdout r
         ++ (if trace r
             then [ "[" ++ snd (now_iso drv w) ++ "] golden:assert: " ++ name
                    ++ ": FAILED";
                    "Diff:" ++ [newline] ++ diff ]
             else [])
    /\ run_steps drv recovery i (golden_assert_step name :: rest) r
       = (recovered <~ match recovery with
                       | Some rules => handle_recovery drv rules
                       | None => Eff.ret false
                       end ;;
          if recovered then run_steps drv recovery (S i) rest
          else
            log_transcript drv ("Flow failed at step "
                                ++ Py.str_of_int (Z.of_nat i + 1)) "" false ;;;
            Eff.ret false) r1.
Proof.
  intros Hscreen Hgolden.
  assert (Hstep : exists r1,
    execute_step drv (golden_assert_step name) r = (r1, Ok false)
    /\ transcript r1
       = transcript r
         ++ [mkEntry (snd (now_iso drv w)) ("golden:assert: " ++ name)
                     "FAILED" (short_digest (snap_digest snap))]
    /\ stdout r1
       = stdout r
         ++ (if trace r
             then [ "[" ++ snd (now_iso drv w) ++ "] golden:assert: " ++ name
                    ++ ": FAILED";
                    "Diff:" ++ [newline] ++ diff ]
             else [])).
  { unfold execute_step, golden_assert_step.
    rewrite dispatch_golden_assert.
    unfold Eff.try_except, Eff.mbind at 1. cbn [named p_name item Eff.ret].
    unfold Eff.mbind at 1. rewrite (get_screen_of_api drv r w snap Hscreen).
    unfold Eff.mbind at 1. unfold Eff.gets at 1.
    cbn [goldens set_current_digest set_world]. rewrite Hgolden.
    unfold Eff.mbind, log_transcript, Eff.mbind, call, Eff.modify, Eff.gets,
      Eff.ret.
    cbn [world set_current_digest set_world].
    destruct (now_iso drv w) as [w' ts]. cbn [snd].
    unfold logged. cbn [andb].
    cbn [trace current_digest transcript stdout world set_world
         set_current_digest add_entry print].
    destruct (trace r) eqn:Et;
      do 3 (cbn [trace current_digest transcript stdout world set_world
                 set_current_digest add_entry print]; rewrite ?Et);
      (eexists; split; [reflexivity|]);
      cbn [trace current_digest transcript stdout world set_world
           set_current_digest add_entry print].
    - rewrite <- app_assoc. split; reflexivity.
    - rewrite app_nil_r. split; reflexivity. }
  destruct Hstep as [r1 [E [Ht Hs]]]. exists r1.
  repeat split; try assumption.
  now apply run_steps_failed.
Qed.

Lemma golden_assert_mismatch_routed_witness :
  exists r1,
    execute_step (fixed_driver "NEW SCREEN") (golden_assert_step "ready")
                 (fresh old_golden) = (r1, Ok false)
    /\ map e_result (transcript r1) = ["FAILED" : Py.str]
    /\ stdout r1 = [].
Proof.
  destruct (golden_assert_mismatch_routed unit (fixed_driver "NEW SCREEN")
              None 0%nat "ready" [] (fresh old_golden) tt
              (fixed_screen "NEW SCREEN") [])
    as [r1 [E [Ht [Hs _]]]]; [reflexivity | vm_compute; reflexivity |].
  exists r1. split; [exact E|]. split.
  - rewrite Ht. reflexivity.
  - rewrite Hs. reflexivity.
Defined.

(** *** Recovery *)

(** The actions of a rule, run once its trigger has been logged. *)
Definition remedy {W : Type} (drv : Driver W) (rule : RecoveryRule)
  : Eff.M (Runner W) bool :=
  log_transcript drv
    ("Recovery triggered: " ++ get_default (when_ascii_contains rule) "")
    "" false ;;;
  run_actions drv (get_default (rule_do rule) []).

(** The claim of C4 as the specification states it: when step i fails and
    some rule of the recovery list is triggered by the screen and has
    actions that all succeed, the loop goes on with step i+1. *)
Definition recovery_continues {W : Type} (drv : Driver W) : Prop :=
  forall rules i step rest (r r1 r2 r3 : Runner W) snap rule,
    execute_step drv step r = (r1, Ok false) ->
    get_screen drv r1 = (r2, Ok snap) ->
    In rule rules -> triggered (ascii_of snap) rule = true ->
    remedy drv rule r2 = (r3, Ok true) ->
    exists r', run_steps drv (Some rules) i (step :: rest) r
               = run_steps drv (Some rules) (S i) rest r'.

(** Two rules triggered by the logon screen: the actions of the first
    fail, the second has nothing to do. *)
Definition two_rules : list RecoveryRule :=
  [ mkRecoveryRule (Some ("LOGON" : Py.str)) (Some [assert_contains "READY"]);
    mkRecoveryRule (Some ("LOGON" : Py.str)) (Some []) ].

(** C4, refuted as stated.  The second rule is triggered and its (empty)
    action list succeeds, but the first rule is triggered too and is the one
    that runs; its action fails and the flow is aborted. *)
Theorem recovery_continues_refuted :
  ~ recovery_continues (fixed_driver "TSO/E LOGON").
Proof.
  intros H.
  pose (drv := fixed_driver "TSO/E LOGON").
  pose (r1 := fst (execute_step drv (assert_contains "READY") (fresh []))).
  pose (r2 := fst (get_screen drv r1)).
  pose (rule := mkRecoveryRule (Some ("LOGON" : Py.str)) (Some [])).
  pose (r3 := fst (remedy drv rule r2)).
  destruct (H two_rules 0%nat (assert_contains "READY") [] (fresh []) r1 r2 r3
              (fixed_screen "TSO/E LOGON") rule) as [r' E].
  - vm_compute. reflexivity.
  - vm_compute. reflexivity.
  - right. now left.
  - vm_compute. reflexivity.
  - vm_compute. reflexivity.
  - cbn [run_steps] in E. unfold Eff.ret at 3 in E.
    apply (f_equal snd) in E. cbn [snd] in E.
    vm_compute in E. discriminate E.
Qed.

Section Recovery.
Context {W : Type} (drv : Driver W).

Lemma handle_recovery_first (rules before after : list RecoveryRule)
      (rule : RecoveryRule) (r r2 : Runner W) (snap : Snapshot) :
  get_screen drv r = (r2, Ok snap) ->
  rules = before ++ rule :: after ->
  Forall (fun p => triggered (ascii_of snap) p = false) before ->
  triggered (ascii_of snap) rule = true ->
  handle_recovery drv rules r = remedy drv rule r2.
Proof.
  intros Hs -> Hb Ht. unfold handle_recovery, Eff.mbind at 1. rewrite Hs.
  unfold triggered in Ht.
  destruct (when_ascii_contains rule) as [t|] eqn:Et; [|discriminate].
  rewrite (scan_rules_first drv _ before after rule t Hb Et Ht).
  unfold remedy. now rewrite Et.
Qed.

Lemma remedy_entries (rule : RecoveryRule) (r r' : Runner W) :
  remedy drv rule r = (r', Ok true) ->
  exists es,
    transcript r'
    = transcript r
      ++ mkEntry (snd (now_iso drv (world r)))
                 ("Recovery triggered: "
                  ++ get_default (when_ascii_contains rule) "")
                 "" (short_digest (current_digest r)) :: es
    /\ (length (get_default (rule_do rule) []) <= length es)%nat.
Proof.
  unfold remedy, Eff.mbind at 1, log_transcript, Eff.mbind at 1, call,
    Eff.modify.
  destruct (now_iso drv (world r)) as [w ts]. cbn [snd]. intros E.
  destruct (run_actions_entries drv _ _ _ E) as [es [Ht Hl]].
  exists es. split; [|exact Hl].
  rewrite Ht, transcript_logged. cbn [andb].
  cbn [transcript current_digest set_world]. now rewrite <- app_assoc.
Qed.

End Recovery.

(** C4, amended.  When step i fails and the first rule of the recovery
    list that the then-current screen triggers has actions that all succeed,
    the loop goes on with step i+1, from the state the recovery left: step i
    is not run again and the flow is not aborted.  The transcript then holds
    the entries of the failed step (at least one), the entry of the trigger,
    and the entries of the recovery actions (at least one each). *)
Theorem recovery_then_next_step
        (W : Type) (drv : Driver W)
        (rules before after : list RecoveryRule) (rule : RecoveryRule)
        (i : nat) (step : Step) (rest : list Step)
        (r r1 r2 r3 : Runner W) (snap : Snapshot) :
  execute_step drv step r = (r1, Ok false) ->
  get_screen drv r1 = (r2, Ok snap) ->
  rules = before ++ rule :: after ->
  Forall (fun p => triggered (ascii_of snap) p = false) before ->
  triggered (ascii_of snap) rule = true ->
  remedy drv rule r2 = (r3, Ok true) ->
  run_steps drv (Some rules) i (step :: rest) r
  = run_steps drv (Some rules) (S i) rest r3
  /\ exists failed recovered,
       failed <> []
       /\ transcript r1 = transcript r ++ failed
       /\ transcript r3
          = transcript r1
            ++ mkEntry (snd (now_iso drv (world r2)))
                       ("Recovery triggered: "
                        ++ get_default (when_ascii_contains rule) "")
                       "" (short_digest (snap_digest snap)) :: recovered
       /\ (length (get_default (rule_do rule) []) <= length recovered)%nat.
Proof.
  intros Hstep Hscreen Hrules Hbefore Htrig Hrem. split.
  - rewrite (run_steps_failed drv _ i step rest r r1 Hstep).
    unfold Eff.mbind at 1.
    rewrite (handle_recovery_first drv rules before after rule r1 r2 snap
               Hscreen Hrules Hbefore Htrig).
    now rewrite Hrem.
  - destruct (adds_execute_step drv step _ _ _ Hstep) as [failed [Hf Hne]].
    destruct (remedy_entries drv rule _ _ Hrem) as [recovered [Hr Hl]].
    destruct (get_screen_ok drv _ _ _ Hscreen) as [-> _].
    exists failed, recovered. split; [now apply (Hne false)|].
    split; [exact Hf|]. split; [exact Hr | exact Hl].
Qed.

(** The scenario of the specification: the assertion fails on the logon
    screen, the rule presses Enter, and the flow goes on and completes with
    both in its transcript. *)
Definition logon_rule : RecoveryRule :=
  mkRecoveryRule (Some ("LOGON" : Py.str)) (Some [press_enter]).

Lemma recovery_then_next_step_witness :
  snd (run_steps (fixed_driver "TSO/E LOGON") (Some [logon_rule]) 0
                 [assert_contains "READY"] (fresh [])) = Ok true
  /\ map (fun e => (e_action e, e_result e))
         (transcript
            (fst (run_steps (fixed_driver "TSO/E LOGON") (Some [logon_rule]) 0
                            [assert_contains "READY"] (fresh []))))
     = [ ("assert_screen" : Py.str, "FAILED" : Py.str);
         ("Recovery triggered: LOGON" : Py.str, "" : Py.str);
         ("press: Enter" : Py.str, "" : Py.str) ].
Proof.
  pose (drv := fixed_driver "TSO/E LOGON").
  pose (r1 := fst (execute_step drv (assert_contains "READY") (fresh []))).
  pose (r2 := fst (get_screen drv r1)).
  pose (r3 := fst (remedy drv logon_rule r2)).
  destruct (recovery_then_next_step unit drv [logon_rule] [] [] logon_rule
              0%nat (assert_contains "READY") [] (fresh []) r1 r2 r3
              (fixed_screen "TSO/E LOGON")) as [E _];
    try (vm_compute; reflexivity).
  - constructor.
  - fold drv. rewrite E. split; vm_compute; reflexivity.
Defined.

Lemma execute_step_unknown_kind_witness :
  exists r',
    execute_step (fixed_driver "READY")
                 [("frobnicate" : Py.str, SInt 7)] (fresh []) = (r', Ok true)
    /\ map (fun e => (e_action e, e_result e)) (transcript r')
       = [("unknown step: frobnicate" : Py.str, "SKIPPED" : Py.str)].
Proof.
  destruct (execute_step_unknown_kind unit (fixed_driver "READY")
              "frobnicate" (SInt 7) [] (fresh []))
    as [r' [E [Ht _]]]; [reflexivity|].
  exists r'. split; [exact E|]. rewrite Ht. reflexivity.
Defined.

(** The two scenarios as whole flows. *)
Example execute_flow_recovers :
  let run := execute_flow (fixed_driver "TSO/E LOGON")
               (mkFlow (Some ("logon" : Py.str)) None
                       (Some [assert_contains "READY"])
                       (Some [logon_rule]))
               (fresh []) in
  snd run = Ok true
  /\ map e_action (transcript (fst run))
     = [ "Starting flow: logon" : Py.str; "assert_screen" : Py.str;
         "Recovery triggered: LOGON" : Py.str; "press: Enter" : Py.str;
         "Flow completed: logon" : Py.str ].
Proof. vm_compute. split; reflexivity. Qed.

Example execute_flow_golden_mismatch_recovered :
  let run := execute_flow (fixed_driver "NEW SCREEN")
               (mkFlow (Some ("regress" : Py.str)) None
                       (Some [golden_assert_step "ready"])
                       (Some [mkRecoveryRule (Some ("NEW" : Py.str)) (Some [])]))
               (fresh old_golden) in
  snd run = Ok true
  /\ map (fun e => (e_action e, e_result e)) (transcript (fst run))
     = [ ("Starting flow: regress" : Py.str, "" : Py.str);
         ("golden:assert: ready" : Py.str, "FAILED" : Py.str);
         ("Recovery triggered: NEW" : Py.str, "" : Py.str);
         ("Flow completed: regress" : Py.str, "" : Py.str) ].
Proof. vm_compute. split; reflexivity. Qed.

(** Without a recovery rule the same mismatch fails the flow. *)
Example execute_flow_golden_mismatch_fails :
  let run := execute_flow (fixed_driver "NEW SCREEN")
               (mkFlow (Some ("regress" : Py.str)) None
                       (Some [golden_assert_step "ready"]) None)
               (fresh old_golden) in
  snd run = Ok false
  /\ map (fun e => (e_action e, e_result e)) (transcript (fst run))
     = [ ("Starting flow: regress" : Py.str, "" : Py.str);
         ("golden:assert: ready" : Py.str, "FAILED" : Py.str);
         ("Flow failed at step 1" : Py.str, "" : Py.str) ].
Proof. vm_compute. split; reflexivity. Qed.

End FlowFacts.

(** ** session.py: a process that records what it is sent *)

Module SessionDemo.
Import Session SessionFacts.

(** The process is the list of the commands written to it; it answers
    every command with a status line of a connected terminal. *)
Definition recorder_popen (trace_file : option Py.str)
  : Py.result (list Py.str) := Ok [].

Definition recorder_exchange (command : Py.str) (p : list Py.str)
  : list Py.str * list Py.str :=
  (p ++ [command],
   ["U F U C(127.0.0.1) I 2 24 80 0 0 0x0 0.000" : Py.str; "ok" : Py.str]).

Definition connected_status : StatusLine :=
  mkStatusLine "U" "F" "U" "C" "I" "2" 24 80 0 0 "0x0".

Definition idle : S3270Session (list Py.str) :=
  mkSession (list Py.str) None None false None "3278-2".

Definition recorder_connect (host : Py.str) :=
  connect (list Py.str) recorder_popen (fun _ => true) recorder_exchange
          (fun _ => Some connected_status) host idle.

(** A loopback host gets its Connect command, and the session is marked
    connected. *)
Example connect_loopback :
  option_map (fun p => p) (process _ (fst (recorder_connect "localhost:3270")))
  = Some ["Connect(localhost:3270)" : Py.str; "Wait(InputField)" : Py.str]
  /\ snd (recorder_connect "localhost:3270") = Ok true.
Proof. split; reflexivity. Qed.


End SessionDemo.

(** ** parser.py: what the scan keeps, and the queries on its result *)

Module FieldFacts.
Import Parser ParserFacts FieldQueries.

(** *** Lines that are not data lines *)

Lemma fold_on_line_filter (cols : Z) (lines : list Py.str) (sc : Scan) :
  fold_left (on_line cols) (filter is_data lines) sc
  = fold_left (on_line cols) lines sc.
Proof.
  revert sc. induction lines as [|l lines IH]; intros sc; [reflexivity|].
  cbn [filter]. destruct (is_data l) eqn:E; cbn [fold_left].
  - apply IH.
  - rewrite IH. f_equal. unfold on_line. now rewrite E.
Qed.

(** X1.  The lines of a dump that are not data lines -- empty lines, "ok",
    "error", status lines, anything that does not start with "data:" --
    have no effect on the fields extracted: they do not even count as
    rows. *)
Theorem parse_readbuffer_ascii_data_lines_only
        (lines : list Py.str) (rows cols : Z) :
  parse_readbuffer_ascii lines rows cols
  = parse_readbuffer_ascii (filter is_data lines) rows cols.
Proof.
  unfold parse_readbuffer_ascii. now rewrite fold_on_line_filter.
Qed.

(** *** Consecutive elements of a list *)

Fixpoint consec {A : Type} (R : A -> A -> Prop) (l : list A) : Prop :=
  match l with
  | [] => True
  | a :: l' =>
      match l' with
      | [] => True
      | b :: _ => R a b /\ consec R l'
      end
  end.

Lemma consec_snoc {A : Type} (R : A -> A -> Prop) (l : list A) (x y : A) :
  R x y -> consec R (l ++ [x]) -> consec R ((l ++ [x]) ++ [y]).
Proof.
  intros Hxy. induction l as [|a l IH]; [intros _; now split|].
  destruct l as [|b l].
  - intros [Hax _]. repeat split; assumption.
  - intros [Hab H]. split; [exact Hab | now apply IH].
Qed.

Lemma consec_last {A : Type} (R : A -> A -> Prop) (l : list A) (x x' : A) :
  (forall z, R z x -> R z x') ->
  consec R (l ++ [x]) -> consec R (l ++ [x']).
Proof.
  intros Hx. induction l as [|a l IH]; [trivial|].
  destruct l as [|b l].
  - intros [Hax _]. split; [now apply Hx | exact I].
  - intros [Hab H]. split; [exact Hab | now apply IH].
Qed.

Lemma consec_nth {A : Type} (R : A -> A -> Prop) (l : list A) (i : nat)
      (a b : A) :
  consec R l -> nth_error l i = Some a -> nth_error l (S i) = Some b -> R a b.
Proof.
  revert i. induction l as [|x l IH]; intros i H Ha Hb;
    [destruct i; discriminate|].
  destruct l as [|y l]; [destruct i as [|[|i]]; discriminate|].
  destruct H as [Hxy H]. destruct i as [|i].
  - cbn in Ha, Hb. inversion Ha; inversion Hb; subst. exact Hxy.
  - apply (IH i H); assumption.
Qed.

(** *** The fields are in scan order, on the rows of the data lines *)

(** [g] starts after [f] in scan order. *)
Definition before (f g : Field) : Prop :=
  row f < row g \/ (row f = row g /\ col f < col g).

(** The position of a field is on a data line, and its two records of the
    protection agree. *)
Definition placed (top : Z) (f : Field) : Prop :=
  1 <= row f <= top /\ 1 <= col f
  /\ field_protected f = protected (attrs f).

Section Order.
Variable cols : Z.

Record order_inv (lb : nat) (sc : Scan) (off : Z) : Prop := mkOrderInv {
  oi_col : current_col sc = 1;
  oi_off : 0 <= off;
  oi_row : 1 <= current_row sc;
  oi_placed : Forall (placed (current_row sc)) (open_fields sc);
  oi_consec : consec before (open_fields sc);
  oi_none : current_field sc = None -> fields sc = [];
  oi_cur : forall cf, current_field sc = Some cf ->
      row cf = current_row sc -> col cf <= off + Z.of_nat lb }.

Lemma placed_set_len (top : Z) (f : Field) (n : Z) :
  placed top f -> placed top (set_len f n).
Proof. trivial. Qed.

Lemma on_marker_order (lb : nat) (sc : Scan) (off : Z) (m : Match) :
  order_inv lb sc off -> (lb <= m_start m)%nat -> (1 <= m_len m)%nat ->
  order_inv (m_start m + m_len m) (fst (on_marker cols (sc, off) m))
            (snd (on_marker cols (sc, off) m))
  /\ current_row (fst (on_marker cols (sc, off) m)) = current_row sc.
Proof.
  intros [Hcol Hoff Hrow Hpl Hco Hnone Hcur] Hlb Hlen.
  unfold on_marker. cbn [fst snd]. split; [|reflexivity].
  assert (Hnew : placed (current_row sc)
            (mkField (current_row sc)
                     (current_col sc + off + Z.of_nat (m_start m)) 0
                     (protected (parse_field_attributes (m_group1 m)))
                     (parse_field_attributes (m_group1 m)))).
  { unfold placed. cbn [row col field_protected attrs].
    split; [lia|]. split; [lia | reflexivity]. }
  unfold open_fields in *.
  destruct (current_field sc) as [cf|] eqn:E; cbn [opt_list] in *.
  - apply Forall_app in Hpl as [Hpl Hcf]. inversion Hcf as [|? ? Hcf' _]; subst.
    constructor; cbn [current_col fields current_field current_row opt_list];
      try assumption; try lia.
    + apply Forall_app. split.
      * apply Forall_app. split; [exact Hpl|].
        constructor; [exact Hcf' | constructor].
      * constructor; [exact Hnew | constructor].
    + apply consec_snoc.
      * unfold before. cbn [row col set_len].
        destruct Hcf' as [[_ Hle] _].
        destruct (Z.eq_dec (row cf) (current_row sc)) as [Heq|Hne].
        -- right. split; [exact Heq|]. specialize (Hcur cf eq_refl Heq). lia.
        -- left. lia.
      * apply (consec_last before (fields sc) cf); [|exact Hco].
        intros z Hz. exact Hz.
    + intros H. discriminate H.
    + intros nf Hnf _. inversion Hnf; subst nf. cbn [col]. lia.
  - rewrite (Hnone eq_refl) in *.
    constructor; cbn [current_col fields current_field current_row opt_list app];
      try assumption; try lia; try exact I; try (intros H; discriminate H).
    + constructor; [exact Hnew | constructor].
    + intros nf Hnf _. inversion Hnf; subst nf. cbn [col]. lia.
Qed.

Lemma fold_on_marker_order (ms : list Match) (lb : nat) (sc : Scan) (off : Z) :
  ordered lb ms -> order_inv lb sc off ->
  exists lb',
    order_inv lb' (fst (fold_left (on_marker cols) ms (sc, off)))
              (snd (fold_left (on_marker cols) ms (sc, off)))
    /\ current_row (fst (fold_left (on_marker cols) ms (sc, off)))
       = current_row sc.
Proof.
  revert lb sc off. induction ms as [|m ms IH]; intros lb sc off Hord Hinv.
  - exists lb. now split.
  - destruct Hord as [Hlb [Hlen Hord]].
    destruct (on_marker_order lb sc off m Hinv Hlb Hlen) as [Hinv' Hrow].
    cbn [fold_left].
    destruct (on_marker cols (sc, off) m) as [sc1 off1]. cbn [fst snd] in *.
    destruct (IH _ sc1 off1 Hord Hinv') as [lb' [Hi Hr]].
    exists lb'. split; [exact Hi | congruence].
Qed.

(** Between two lines: [n] data lines have been read. *)
Record order_line_inv (n : nat) (sc : Scan) : Prop := mkOrderLineInv {
  ol_col : current_col sc = 1;
  ol_row : current_row sc = 1 + Z.of_nat n;
  ol_placed : Forall (placed (Z.of_nat n)) (open_fields sc);
  ol_consec : consec before (open_fields sc);
  ol_none : current_field sc = None -> fields sc = [] }.

Lemma placed_weaken (top top' : Z) (f : Field) :
  top <= top' -> placed top f -> placed top' f.
Proof. unfold placed. intuition lia. Qed.

Lemma on_line_order (n : nat) (sc : Scan) (line : Py.str) :
  order_line_inv n sc ->
  order_line_inv (n + length (filter is_data [line])) (on_line cols sc line).
Proof.
  intros [Hcol Hrow Hpl Hco Hnone]. unfold on_line. cbn [filter].
  destruct (is_data line); cbn [length].
  2:{ rewrite Nat.add_0_r. now constructor. }
  assert (Hinv : order_inv 0 sc 0).
  { constructor; try assumption; try lia.
    - assert (Hle : Z.of_nat n <= current_row sc) by lia.
      apply (Forall_impl _ (fun f => placed_weaken _ _ f Hle) Hpl).
    - intros cf Hcf Heq. exfalso.
      assert (Hin : In cf (open_fields sc)).
      { unfold open_fields. rewrite Hcf. apply in_or_app. right. now left. }
      rewrite Forall_forall in Hpl. destruct (Hpl cf Hin) as [[_ Hle] _]. lia. }
  pose proof (finditer_SF_ordered (skipn 5 line) 0 0) as Hord.
  destruct (fold_on_marker_order _ _ _ _ Hord Hinv) as [lb' [Hi Hr]].
  destruct (fold_left (on_marker cols) (finditer_SF 0 0 (skipn 5 line)) (sc, 0))
    as [sc' off']. cbn [fst snd] in *.
  destruct Hi as [_ _ _ Hpl' Hco' Hnone' _].
  constructor; cbn [current_col fields current_field current_row];
    try assumption; try reflexivity; try lia.
  unfold open_fields in *. cbn [fields current_field].
  assert (Hle : current_row sc' <= Z.of_nat (n + 1)) by lia.
  apply (Forall_impl _ (fun f => placed_weaken _ _ f Hle) Hpl').
Qed.

Lemma fold_on_line_order (lines : list Py.str) (n : nat) (sc : Scan) :
  order_line_inv n sc ->
  order_line_inv (n + length (filter is_data lines))
                 (fold_left (on_line cols) lines sc).
Proof.
  revert n sc. induction lines as [|l lines IH]; intros n sc H.
  - cbn. now rewrite Nat.add_0_r.
  - cbn [fold_left]. apply (on_line_order n sc l) in H.
    apply IH in H. cbn [filter length] in *.
    destruct (is_data l); cbn [length] in *.
    + now replace (n + S (length (filter is_data lines)))%nat
        with (n + 1 + length (filter is_data lines))%nat by lia.
    + now rewrite Nat.add_0_r in H.
Qed.

Lemma parse_readbuffer_ascii_order (lines : list Py.str) (rows : Z) :
  Forall (placed (Z.of_nat (length (filter is_data lines))))
         (parse_readbuffer_ascii lines rows cols)
  /\ consec before (parse_readbuffer_ascii lines rows cols).
Proof.
  unfold parse_readbuffer_ascii.
  assert (H0 : order_line_inv 0 (mkScan [] None 1 1)).
  { constructor; cbn; try reflexivity; try constructor. }
  destruct (fold_on_line_order lines 0 _ H0) as [_ _ Hpl Hco _].
  cbn [Nat.add] in Hpl. unfold open_fields in *.
  destruct (current_field (fold_left (on_line cols) lines (mkScan [] None 1 1)))
    as [cf|]; cbn [opt_list] in *.
  - split.
    + apply Forall_app in Hpl as [Hpl Hcf]. apply Forall_app. split; [exact Hpl|].
      inversion Hcf; subst. constructor; [assumption | constructor].
    + apply (consec_last before _ cf); [|exact Hco]. intros z Hz. exact Hz.
  - rewrite app_nil_r in Hpl, Hco. now split.
Qed.

End Order.

(** X2.  The fields come out in scan order: each field lies on the row of
    a data line (rows are numbered from 1 over the data lines only) and at a
    column of at least 1, its [protected] entry is the one of its attributes,
    and of two consecutive fields the second is on a later row, or on the
    same row at a greater column. *)
Theorem parse_readbuffer_ascii_scan_order
        (lines : list Py.str) (rows cols : Z) :
  (forall f, In f (parse_readbuffer_ascii lines rows cols) ->
     1 <= row f <= Z.of_nat (length (filter is_data lines))
     /\ 1 <= col f
     /\ field_protected f = protected (attrs f))
  /\ (forall i f g,
        nth_error (parse_readbuffer_ascii lines rows cols) i = Some f ->
        nth_error (parse_readbuffer_ascii lines rows cols) (S i) = Some g ->
        row f < row g \/ (row f = row g /\ col f < col g)).
Proof.
  destruct (parse_readbuffer_ascii_order cols lines rows) as [Hpl Hco]. split.
  - rewrite Forall_forall in Hpl. exact Hpl.
  - intros i f g. now apply (consec_nth before).
Qed.

(** *** [find_fields_at_position] *)

(** The span of [f], on 80 columns, holds the position. *)
Definition covers (row col : Z) (f : Field) : bool :=
  (((Parser.row f - 1) * 80 + Parser.col f) <=? ((row - 1) * 80 + col))
  && (((row - 1) * 80 + col) <? ((Parser.row f - 1) * 80 + Parser.col f + len f)).

Lemma find_fields_at_position_first (fields : list Field) (row col : Z) :
  find_fields_at_position fields row col = first_such (covers row col) fields.
Proof.
  induction fields as [|f fields IH]; [reflexivity|].
  cbn [find_fields_at_position first_such]. unfold covers at 1.
  now rewrite IH.
Qed.

Lemma first_such_some {A : Type} (p : A -> bool) (l : list A) (x : A) :
  first_such p l = Some x <->
  exists l1 l2, l = l1 ++ x :: l2 /\ p x = true
                /\ Forall (fun y => p y = false) l1.
Proof.
  induction l as [|a l IH]; cbn [first_such].
  - split; [discriminate|]. intros [l1 [l2 [H _]]]. now destruct l1.
  - destruct (p a) eqn:E; split.
    + intros H. inversion H; subst. exists [], l. repeat split; [exact E|constructor].
    + intros [l1 [l2 [H [Hx Hl1]]]]. destruct l1 as [|b l1].
      * inversion H; subst. reflexivity.
      * inversion H; subst. inversion Hl1; subst. congruence.
    + intros H. apply IH in H as [l1 [l2 [-> [Hx Hl1]]]].
      exists (a :: l1), l2. repeat split; [exact Hx | now constructor].
    + intros [l1 [l2 [H [Hx Hl1]]]]. apply IH. destruct l1 as [|b l1].
      * inversion H; subst. congruence.
      * inversion H; subst. inversion Hl1; subst. now exists l1, l2.
Qed.

Lemma first_such_none {A : Type} (p : A -> bool) (l : list A) :
  first_such p l = None <-> Forall (fun y => p y = false) l.
Proof.
  induction l as [|a l IH]; cbn [first_such].
  - split; [constructor | reflexivity].
  - destruct (p a) eqn:E; split.
    + discriminate.
    + intros H. inversion H; subst. congruence.
    + intros H. constructor; [exact E | now apply IH].
    + intros H. inversion H; subst. now apply IH.
Qed.

(** X3.  [find_fields_at_position] returns the first field of the list
    whose span [start, start + len), counted on 80 columns, holds the
    position, and None exactly when no span holds it; a field of length zero
    or less is never returned. *)
Theorem find_fields_at_position_spec (fields : list Field) (row col : Z) :
  (forall f, find_fields_at_position fields row col = Some f <->
     exists before_f after_f,
       fields = before_f ++ f :: after_f
       /\ covers row col f = true
       /\ Forall (fun g => covers row col g = false) before_f)
  /\ (find_fields_at_position fields row col = None <->
      Forall (fun g => covers row col g = false) fields)
  /\ (forall f, find_fields_at_position fields row col = Some f -> 0 < len f).
Proof.
  rewrite find_fields_at_position_first. split; [|split].
  - intros f. apply first_such_some.
  - apply first_such_none.
  - intros f H. apply first_such_some in H as [l1 [l2 [_ [Hc _]]]].
    unfold covers in Hc. apply andb_true_iff in Hc as [H1 H2].
    apply Z.leb_le in H1. apply Z.ltb_lt in H2. lia.
Qed.

(** Starts never go down along a chain of spans of lengths not negative. *)
Lemma chain_spans_lower (cols e : Z) (fs : list Field) :
  chain_spans cols e fs -> Forall (fun f => 0 <= len f) fs ->
  Forall (fun f => e <= offset cols f) fs.
Proof.
  revert e. induction fs as [|a fs IH]; intros e H Hn; [constructor|].
  destruct H as [Ha H]. inversion Hn as [|? ? Hla Hn']; subst.
  constructor; [exact Ha|].
  apply (IH _ H) in Hn'. revert Hn'. apply Forall_impl.
  intros f Hf. unfold span_end in Hf. lia.
Qed.

Lemma find_own_start (fs : list Field) (i : nat) (f : Field) :
  disjoint_spans 80 fs -> Forall (fun g => 0 <= len g) fs ->
  nth_error fs i = Some f -> 0 < len f ->
  find_fields_at_position fs (row f) (col f) = Some f.
Proof.
  revert i. induction fs as [|a fs IH]; intros i Hd Hn Hi Hl;
    [destruct i; discriminate|].
  inversion Hn as [|? ? Hla Hn']; subst.
  cbn [find_fields_at_position]. destruct i as [|i].
  - cbn in Hi. inversion Hi; subst a.
    replace ((row f - 1) * 80 + col f <=? (row f - 1) * 80 + col f) with true
      by (symmetry; apply Z.leb_le; lia).
    replace ((row f - 1) * 80 + col f <? (row f - 1) * 80 + col f + len f)
      with true by (symmetry; apply Z.ltb_lt; lia).
    reflexivity.
  - cbn in Hi. cbn [disjoint_spans] in Hd.
    pose proof (chain_spans_lower 80 _ fs Hd Hn') as Hlow.
    rewrite Forall_forall in Hlow.
    specialize (Hlow f (nth_error_In _ _ Hi)).
    unfold span_end, offset in Hlow.
    replace ((row f - 1) * 80 + col f <? (row a - 1) * 80 + col a + len a)
      with false by (symmetry; apply Z.ltb_ge; lia).
    rewrite andb_false_r. apply (IH i); try assumption.
    destruct fs as [|b fs]; [exact I|]. now destruct Hd.
Qed.

(** X4.  On a dump read with 80 columns whose fields all have a length
    that is not negative, looking up the position where a field of positive
    length starts finds that very field. *)
Theorem find_fields_at_position_of_parsed
        (lines : list Py.str) (rows : Z) (i : nat) (f : Field) :
  Forall (fun g => 0 <= len g) (parse_readbuffer_ascii lines rows 80) ->
  nth_error (parse_readbuffer_ascii lines rows 80) i = Some f ->
  0 < len f ->
  find_fields_at_position (parse_readbuffer_ascii lines rows 80) (row f) (col f)
  = Some f.
Proof.
  intros Hn Hi Hl. apply (find_own_start _ i); try assumption.
  apply parse_readbuffer_ascii_spans.
Qed.

(** Two rows of a 24x80 screen, with three fields. *)
Definition two_row_dump : list Py.str :=
  [ "data:SF(c0=20)USERID SF(c0=00)" : Py.str; "ok" : Py.str;
    "data:  SF(c0=0c)" : Py.str ].

Lemma find_fields_at_position_of_parsed_witness :
  map (fun f => (row f, col f, len f))
      (parse_readbuffer_ascii two_row_dump 24 80)
  = [(1, 1, 24); (1, 26, 57); (2, 3, 1838)]
  /\ option_map col
       (find_fields_at_position (parse_readbuffer_ascii two_row_dump 24 80) 1 26)
     = Some 26.
Proof.
  split; [reflexivity|].
  pose (fs := parse_readbuffer_ascii two_row_dump 24 80).
  assert (Hf : exists f, nth_error fs 1 = Some f /\ row f = 1 /\ col f = 26
                         /\ 0 < len f).
  { eexists. split; [reflexivity|]. repeat split. }
  destruct Hf as [f [Hi [Hr [Hc Hl]]]].
  rewrite <- Hr at 1. rewrite <- Hc at 1.
  rewrite (find_fields_at_position_of_parsed two_row_dump 24 1 f);
    [cbn; now rewrite Hc | | exact Hi | exact Hl].
  vm_compute. repeat constructor; discriminate.
Defined.

(** *** The input fields *)

(** X5.  On the fields of a parsed dump the two selections of input
    fields agree: [find_input_fields] of the fingerprint module, which reads
    the [protected] entry of a field, and [find_unprotected_fields] of the
    parser, which reads its attributes; both keep the scan order and return
    unprotected fields only. *)
Theorem find_input_fields_of_parsed
        (lines : list Py.str) (rows cols : Z)
        (r c : option Z) (cur : option (Z * Z)) (text d : option Py.str) :
  find_input_fields
    (Fingerprint.mkSnapshot r c cur text
       (Some (parse_readbuffer_ascii lines rows cols)) d)
  = find_unprotected_fields (parse_readbuffer_ascii lines rows cols)
  /\ Forall (fun f => protected (attrs f) = false /\ field_protected f = false)
            (find_unprotected_fields (parse_readbuffer_ascii lines rows cols)).
Proof.
  destruct (parse_readbuffer_ascii_order cols lines rows) as [Hpl _].
  rewrite Forall_forall in Hpl. split.
  - unfold find_input_fields, find_unprotected_fields. cbn.
    apply filter_ext_in. intros f Hf. destruct (Hpl f Hf) as [_ [_ ->]].
    reflexivity.
  - apply Forall_forall. intros f Hf. unfold find_unprotected_fields in Hf.
    apply filter_In in Hf as [Hf Hu]. destruct (Hpl f Hf) as [_ [_ Hp]].
    rewrite Hp. apply negb_true_iff in Hu. now split.
Qed.

(** *** [find_field_by_preceding_text] *)

(** A field that follows a label found on line [r]: on that line after
    the label, or on a later line. *)
Definition follows (label line : Py.str) (r : Z) (f : Field) : Prop :=
  (row f = r
   /\ Z.of_nat (index label line) + Z.of_nat (length label) < col f)
  \/ r < row f.

Lemma first_such_in {A : Type} (p : A -> bool) (l : list A) (x : A) :
  first_such p l = Some x -> In x l /\ p x = true.
Proof.
  intros H. apply first_such_some in H as [l1 [l2 [-> [Hx _]]]].
  split; [apply in_or_app; right; now left | exact Hx].
Qed.

Lemma preceding_text_loop_sound (fields : list Field) (label : Py.str)
      (lines : list Py.str) (r0 : Z) (f : Field) :
  preceding_text_loop fields label r0 lines = Some f ->
  In f fields /\ protected (attrs f) = false
  /\ exists k line, nth_error lines k = Some line
       /\ Py.contains label line = true
       /\ follows label line (r0 + Z.of_nat k) f.
Proof.
  revert r0. induction lines as [|line lines IH]; intros r0 H; [discriminate|].
  cbn [preceding_text_loop] in H.
  assert (Hrest : preceding_text_loop fields label (r0 + 1) lines = Some f ->
    In f fields /\ protected (attrs f) = false
    /\ exists k l, nth_error (line :: lines) k = Some l
         /\ Py.contains label l = true
         /\ follows label l (r0 + Z.of_nat k) f).
  { intros H'. destruct (IH _ H') as [Hin [Hu [k [l [Hk [Hc Hf]]]]]].
    split; [exact Hin|]. split; [exact Hu|]. exists (S k), l.
    split; [exact Hk|]. split; [exact Hc|].
    now replace (r0 + Z.of_nat (S k)) with (r0 + 1 + Z.of_nat k) by lia. }
  destruct (Py.contains label line) eqn:Ec; [|now apply Hrest].
  assert (Hhit : forall p, first_such p (find_unprotected_fields fields) = Some f ->
                           In f fields /\ protected (attrs f) = false /\ p f = true).
  { intros p Hp. apply first_such_in in Hp as [Hin Hp].
    unfold find_unprotected_fields in Hin. apply filter_In in Hin as [Hin Hu].
    apply negb_true_iff in Hu. now repeat split. }
  destruct (first_such _ (find_unprotected_fields fields)) as [g|] eqn:E1.
  - inversion H; subst g. destruct (Hhit _ E1) as [Hin [Hu Hp]].
    split; [exact Hin|]. split; [exact Hu|]. exists O, line.
    split; [reflexivity|]. split; [exact Ec|]. left.
    apply andb_true_iff in Hp as [Hr Hcol].
    apply Z.eqb_eq in Hr. apply Z.ltb_lt in Hcol. cbn. split; lia.
  - destruct (first_such (fun f0 => r0 <? row f0)
                         (find_unprotected_fields fields)) as [g|] eqn:E2.
    + inversion H; subst g. destruct (Hhit _ E2) as [Hin [Hu Hp]].
      split; [exact Hin|]. split; [exact Hu|]. exists O, line.
      split; [reflexivity|]. split; [exact Ec|]. right.
      apply Z.ltb_lt in Hp. cbn. lia.
    + now apply Hrest.
Qed.

Lemma preceding_text_loop_absent (fields : list Field) (label : Py.str)
      (lines : list Py.str) (r0 : Z) :
  Forall (fun line => Py.contains label line = false) lines ->
  preceding_text_loop fields label r0 lines = None.
Proof.
  intros H. revert r0. induction H as [|line lines Hl _ IH]; intros r0;
    [reflexivity|].
  cbn [preceding_text_loop]. rewrite Hl. apply IH.
Qed.

(** X6.  A field returned by [find_field_by_preceding_text] is an
    unprotected field of the list, and it follows an occurrence of the label
    on some line of the text: on the same row at a column beyond the end of
    the label, or on a later row.  When no line holds the label, or no field
    is unprotected, nothing is returned. *)
Theorem find_field_by_preceding_text_spec
        (fields : list Field) (ascii_text label : Py.str) :
  (forall f, find_field_by_preceding_text fields ascii_text label = Some f ->
     In f fields /\ protected (attrs f) = false
     /\ exists k line,
          nth_error (Py.split Fingerprint.newline ascii_text) k = Some line
          /\ Py.contains label line = true
          /\ follows label line (Z.of_nat k + 1) f)
  /\ (Forall (fun line => Py.contains label line = false)
             (Py.split Fingerprint.newline ascii_text) ->
      find_field_by_preceding_text fields ascii_text label = None)
  /\ (find_unprotected_fields fields = [] ->
      find_field_by_preceding_text fields ascii_text label = None).
Proof.
  unfold find_field_by_preceding_text. split; [|split].
  - intros f H. apply preceding_text_loop_sound in H
      as [Hin [Hu [k [line [Hk [Hc Hf]]]]]].
    split; [exact Hin|]. split; [exact Hu|]. exists k, line.
    split; [exact Hk|]. split; [exact Hc|].
    now replace (Z.of_nat k + 1) with (1 + Z.of_nat k) by lia.
  - apply preceding_text_loop_absent.
  - intros He. generalize 1.
    induction (Py.split Fingerprint.newline ascii_text) as [|line lines IH];
      intros r0; [reflexivity|].
    cbn [preceding_text_loop]. rewrite He. cbn [first_such].
    destruct (Py.contains label line); apply IH.
Qed.

End FieldFacts.

(** ** parser.py: which c0 pair decides the flags *)

Module AttrOrderFacts.
Import Parser AttrFacts.

(** The six flags a c0 byte stands for, in the order of [flags]. *)
Definition decode (attr_byte : Z) : list bool :=
  [ bit attr_byte 0x20; bit attr_byte 0x10; bit attr_byte 0x08;
    Z.land attr_byte 0x0C =? 0x0C; bit attr_byte 0x01; bit attr_byte 0x04 ].

(** The c0 bytes of an attribute string that parse, in order. *)
Definition parsed_c0 (pairs : list Py.str) : list Z :=
  flat_map (fun pair =>
              match c0_value pair with
              | Some v => match int16 v with Some b => [b] | None => [] end
              | None => []
              end) pairs.

Lemma last_cons {A : Type} (x d : A) (l : list A) :
  last (x :: l) d = last l x.
Proof.
  revert x d. induction l as [|y l IH]; intros x d; [reflexivity|].
  change (last (x :: y :: l) d) with (last (y :: l) d).
  rewrite IH. symmetry. apply IH.
Qed.

Lemma parse_pair_decode (a : Attrs) (pair : Py.str) :
  flags (parse_pair a pair)
  = last (map decode (parsed_c0 [pair])) (flags a).
Proof.
  unfold parsed_c0, c0_value, parse_pair. cbn [flat_map].
  destruct (Py.split1 "=" (Py.strip pair)) as [[key value]|]; [|reflexivity].
  destruct (Py.str_eqb (Py.strip key) "c0").
  - destruct (int16 (Py.strip value)); reflexivity.
  - destruct (Py.str_eqb (Py.strip key) "41"); [reflexivity|].
    destruct (Py.str_eqb (Py.strip key) "42"); [reflexivity|].
    destruct (Py.str_eqb (Py.strip key) "45"); reflexivity.
Qed.

Lemma last_app_default {A : Type} (l1 l2 : list A) (d : A) :
  last (l1 ++ l2) d = last l2 (last l1 d).
Proof.
  revert d. induction l1 as [|x l1 IH]; intros d; [reflexivity|].
  change ((x :: l1) ++ l2) with (x :: (l1 ++ l2)).
  now rewrite !last_cons, IH.
Qed.

Lemma fold_parse_pair_decode (pairs : list Py.str) (a : Attrs) :
  flags (fold_left parse_pair pairs a)
  = last (map decode (parsed_c0 pairs)) (flags a).
Proof.
  revert a. induction pairs as [|p pairs IH]; intros a; [reflexivity|].
  cbn [fold_left]. rewrite IH, parse_pair_decode.
  replace (parsed_c0 (p :: pairs)) with (parsed_c0 [p] ++ parsed_c0 pairs).
  - now rewrite map_app, last_app_default.
  - unfold parsed_c0. cbn [flat_map]. now rewrite app_nil_r.
Qed.

(** X7.  The six flags of a decoded attribute string are those of the
    last c0 pair whose value parses as hexadecimal -- earlier c0 pairs, c0
    pairs that do not parse, and the pairs 41, 42 and 45 have no effect on
    them -- and all False when there is no such pair. *)
Theorem parse_field_attributes_last_c0 (attrs_str : Py.str) :
  flags (parse_field_attributes attrs_str)
  = last (map decode (parsed_c0 (Py.split "," attrs_str)))
         [false; false; false; false; false; false].
Proof. apply (fold_parse_pair_decode (Py.split "," attrs_str) attrs0). Qed.

Example parse_field_attributes_last_c0_example :
  flags (parse_field_attributes "c0=20, 42=f1 ,c0=1c,c0=xyz")
  = decode 0x1c.
Proof. reflexivity. Qed.

End AttrOrderFacts.

(** ** screen_fingerprint.py: the position of a label *)

Module LabelFacts.
Import Fingerprint LabelQueries.



Lemma wrap_loop_diverges (turns : nat) (cols r c : Z) :
  cols <= 0 -> cols < c -> wrap_loop turns cols r c = None.
Proof.
  intros Hcols. revert r c. induction turns as [|turns IH]; intros r c Hc;
    cbn [wrap_loop];
    assert (E : (c >? cols) = true) by (rewrite Z.gtb_ltb; apply Z.ltb_lt; lia);
    rewrite E; [reflexivity|].
  apply IH. lia.
Qed.

Lemma label_loop_first (turns : nat) (label : Py.str) (offset cols : Z)
      (above below : list Py.str) (line : Py.str) (row_idx : Z) :
  Forall (fun l => Py.contains label l = false) above ->
  Py.contains label line = true ->
  label_loop turns label offset cols row_idx (above ++ line :: below)
  = option_map Some
      (wrap_loop turns cols (row_idx + Z.of_nat (length above) + 1)
         (Z.of_nat (FieldQueries.index label line) + Z.of_nat (length label)
          + offset)).
Proof.
  intros Ha Hl. revert row_idx.
  induction Ha as [|l above Hc _ IH]; intros row_idx; cbn [app label_loop].
  - rewrite Hl. cbn [length]. now rewrite Z.add_0_r.
  - rewrite Hc, IH. cbn [length]. do 2 f_equal. lia.
Qed.

Lemma label_loop_absent (turns : nat) (label : Py.str) (offset cols : Z)
      (lines : list Py.str) (row_idx : Z) :
  Forall (fun l => Py.contains label l = false) lines ->
  label_loop turns label offset cols row_idx lines = Some None.
Proof.
  intros H. revert row_idx. induction H as [|l lines Hc _ IH]; intros row_idx;
    cbn [label_loop]; [reflexivity|].
  rewrite Hc. apply IH.
Qed.



(** X9.  With a screen width of zero or less in the snapshot, and a label
    found at a column greater than that width, the wrapping loop of
    [get_field_at_label] never ends: it has not returned after any number of
    turns.  When no line holds the label, the function returns None whatever
    the width. *)
Theorem get_field_at_label_no_width
        (snapshot : Snapshot) (label : Py.str) (offset : Z)
        (above below : list Py.str) (line : Py.str) :
  (Py.split newline (ascii_of snapshot) = above ++ line :: below ->
   Forall (fun l => Py.contains label l = false) above ->
   Py.contains label line = true ->
   opt_default (snap_cols snapshot) 80 <= 0 ->
   opt_default (snap_cols snapshot) 80
   < Z.of_nat (FieldQueries.index label line) + Z.of_nat (length label) + offset ->
   forall turns, get_field_at_label turns snapshot label offset = None)
  /\ (Forall (fun l => Py.contains label l = false)
             (Py.split newline (ascii_of snapshot)) ->
      forall turns, get_field_at_label turns snapshot label offset = Some None).
Proof.
  split.
  - intros Hs Ha Hl Hcols Hc turns. unfold get_field_at_label.
    rewrite Hs, (label_loop_first _ _ _ _ above below line 0 Ha Hl).
    now rewrite wrap_loop_diverges.
  - intros Ha turns. now apply label_loop_absent.
Qed.

Lemma get_field_at_label_no_width_witness :
  get_field_at_label 1000
    (mkSnapshot None (Some 0) None (Some ("READY" : Py.str)) None None)
    "READY" 1
  = None
  /\ get_field_at_label 0
       (mkSnapshot None (Some 0) None (Some ("READY" : Py.str)) None None)
       "LOGON" 1
     = Some None.
Proof.
  split.
  - apply (proj1 (get_field_at_label_no_width
                    (mkSnapshot None (Some 0) None (Some ("READY" : Py.str))
                                None None)
                    "READY" 1 [] [] "READY"));
      first [reflexivity | constructor | vm_compute; discriminate].
  - apply (proj2 (get_field_at_label_no_width
                    (mkSnapshot None (Some 0) None (Some ("READY" : Py.str))
                                None None)
                    "LOGON" 1 [] [] "READY")).
    repeat constructor.
Defined.

End LabelFacts.

(** ** screen_fingerprint.py: golden snapshots *)

Module GoldenFacts.
Import Fingerprint.

Lemma str_eqb_refl (s : Py.str) : Py.str_eqb s s = true.
Proof.
  induction s as [|c s IH]; [reflexivity|].
  cbn [Py.str_eqb]. now rewrite Ascii.eqb_refl, IH.
Qed.

Lemma str_eqb_eq (s t : Py.str) : Py.str_eqb s t = true <-> s = t.
Proof.
  split; [|intros ->; apply str_eqb_refl].
  revert t. induction s as [|a s IH]; intros [|b t] H; cbn [Py.str_eqb] in H;
    try discriminate; [reflexivity|].
  apply andb_prop in H as [Hab Hst].
  apply Ascii.eqb_eq in Hab. apply IH in Hst. now subst.
Qed.


(** The digest [save_golden] writes: the one the snapshot carries, or else
    the one computed from its text. *)
Definition saved_digest (snapshot : Snapshot) : Py.str :=
  opt_default (snap_digest snapshot) (compute_digest (ascii_of snapshot)).

Lemma load_golden_saved (name : Py.str) (snapshot : Snapshot) (dir : GoldenDir) :
  load_golden name (save_golden name snapshot dir)
  = Some (mkSnapshot (Some (opt_default (snap_rows snapshot) 24))
                     (Some (opt_default (snap_cols snapshot) 80))
                     (Some (opt_default (snap_cursor snapshot) (0, 0)))
                     (Some (ascii_of snapshot))
                     (Some [])
                     (Some (saved_digest snapshot))).
Proof.
  unfold load_golden, save_golden. cbn [lookup]. now rewrite str_eqb_refl.
Qed.


Section Golden.

Variable unified_diff :
  list Py.str -> list Py.str -> Py.str -> Py.str -> list Py.str.

(** X11.  [assert_golden] against a golden saved from [saved] matches
    exactly when the digest computed from the text of the current snapshot
    is the digest that was saved.  So a snapshot that carries a digest
    computed in another way than [compute_digest] does not match the golden
    saved from itself, whereas a golden saved from a snapshot without a
    digest is matched by every snapshot of the same normalized text.  A name
    with no golden gives a mismatch with a message, not an exception. *)
Theorem assert_golden_after_save
        (name : Py.str) (saved current : Snapshot) (dir : GoldenDir) :
  (fst (assert_golden unified_diff name current (save_golden name saved dir)) = true
   <-> compute_digest (ascii_of current) = saved_digest saved)
  /\ (snap_digest saved = None ->
      normalize_screen (ascii_of current) = normalize_screen (ascii_of saved) ->
      assert_golden unified_diff name current (save_golden name saved dir)
      = (true, "Digests match" : Py.str))
  /\ (lookup name dir = None ->
      assert_golden unified_diff name current dir
      = (false, "Golden '" ++ name ++ "' not found")).
Proof.
  assert (E : assert_golden unified_diff name current (save_golden name saved dir)
              = if Py.str_eqb (compute_digest (ascii_of current)) (saved_digest saved)
                then (true, "Digests match" : Py.str)
                else (false,
                      Py.join [newline]
                        (unified_diff (splitlines (ascii_of saved))
                           (splitlines (ascii_of current))
                           ("golden/" ++ name) "current"))).
  { unfold assert_golden.
    rewrite (load_golden_saved name saved dir).
    reflexivity. }
  split; [|split].
  - rewrite E.
    destruct (Py.str_eqb (compute_digest (ascii_of current)) (saved_digest saved))
      eqn:Ed; cbn [fst].
    + split; [intros _; now apply str_eqb_eq|reflexivity].
    + split; [discriminate|]. intros H. apply str_eqb_eq in H. congruence.
  - intros Hd Hn. rewrite E. unfold saved_digest. rewrite Hd. cbn [opt_default].
    unfold compute_digest. rewrite Hn. now rewrite str_eqb_refl.
  - intros Hl. unfold assert_golden, load_golden. now rewrite Hl.
Qed.

End Golden.

End GoldenFacts.

(** ** screen_fingerprint.py: what a match reports *)

Module MatchSoundFacts.
Import Fingerprint.

(** The dimensions the screen ID asks for are those of the snapshot. *)
Definition dims_agree (snapshot : Snapshot) (screen_id : ScreenId) : Prop :=
  forall m, sid_match screen_id = Some m ->
    (forall c, m_cols m = Some c -> snap_cols snapshot = Some c)
    /\ (forall r, m_rows m = Some r -> snap_rows snapshot = Some r).

(** The text has the characters the screen ID asks for, blanks and
    newlines apart. *)
Definition stable (snapshot : Snapshot) (screen_id : ScreenId) : Prop :=
  forall st n, sid_stability screen_id = Some st -> min_chars st = Some n ->
    n <= count_chars (ascii_of snapshot).

Lemma opt_Z_eqb_eq (a : option Z) (b : Z) : opt_Z_eqb a b = true <-> a = Some b.
Proof.
  destruct a as [x|]; cbn [opt_Z_eqb].
  - rewrite Z.eqb_eq. split; congruence.
  - split; discriminate.
Qed.

Section Matching.
Variable re_search : Py.str -> Py.str -> Py.result bool.
Variable text : Py.str.

(** A description, as [match_screen] writes it, of a predicate that holds
    of the text. *)
Inductive holds : Py.str -> Prop :=
| holds_contains (t : Py.str) :
    Py.contains t text = true -> holds ("ascii_contains: " ++ t)
| holds_regex (p : Py.str) :
    re_search p text = Ok true -> holds ("ascii_regex: " ++ p).

(** What a positive result reports: one such description, or several of
    them joined by [" AND "]. *)
Definition reported (s : Py.str) : Prop :=
  holds s
  \/ exists ds, ds <> [] /\ Forall holds ds /\ s = Py.join " AND " ds.

(** A sub-rule with a predicate that holds of the text. *)
Definition rule_holds (rule : Rule) : Prop :=
  (exists t, ascii_contains rule = Some t /\ Py.contains t text = true)
  \/ (exists p, ascii_regex rule = Some p /\ re_search p text = Ok true).

(** Every pattern of the rules compiles. *)
Definition compiles (rules : list Rule) : Prop :=
  forall rule p, In rule rules -> ascii_regex rule = Some p ->
                 exists b, re_search p text = Ok b.

Definition good (r : Py.result (bool * option Py.str)) : Prop :=
  forall b d, r = Ok (b, d) ->
    (b = false /\ d = None) \/ (b = true /\ exists s, d = Some s /\ reported s).

Lemma good_raise (e : Py.exn) : good (Raise e).
Proof. intros b d H. discriminate H. Qed.

Lemma good_no : good (Ok (false, None)).
Proof. intros b d H. injection H as <- <-. now left. Qed.

Lemma good_yes (s : Py.str) : reported s -> good (Ok (true, Some s)).
Proof. intros Hs b d H. injection H as <- <-. right. split; [reflexivity|]. now exists s. Qed.

Lemma rule_any_sound (rule : Rule) (d : Py.str) :
  rule_any re_search text rule = Ok (Some d) -> holds d.
Proof.
  unfold rule_any. intros H.
  assert (Hr : match ascii_regex rule with
               | Some p =>
                   b <- re_search p text ;;
                   Ok (if b then Some ("ascii_regex: " ++ p) else None)
               | None => Ok None
               end = Ok (Some d) -> holds d).
  { destruct (ascii_regex rule) as [p|]; [|discriminate].
    destruct (re_search p text) as [[|]|e] eqn:E; cbn [Py.bind];
      try discriminate.
    intros H'. injection H' as <-. now apply holds_regex. }
  destruct (ascii_contains rule) as [t|]; [|now apply Hr].
  destruct (Py.contains t text) eqn:E; [|now apply Hr].
  injection H as <-. now apply holds_contains.
Qed.

Lemma any_rules_sound (rules : list Rule) (d : Py.str) :
  any_rules re_search text rules = Ok (Some d) -> holds d.
Proof.
  induction rules as [|rule rules IH]; cbn [any_rules]; [discriminate|].
  destruct (rule_any re_search text rule) as [[d'|]|e] eqn:E; cbn [Py.bind];
    try discriminate.
  - intros H. injection H as <-. now apply rule_any_sound in E.
  - exact IH.
Qed.

(** One turn of the loop over an [all] list. *)
Lemma all_rules_cons (rule : Rule) (rules : list Rule) (acc : list Py.str) :
  all_rules re_search text (rule :: rules) acc
  = match ascii_contains rule, ascii_regex rule with
    | Some t, Some p =>
        b <- re_search p text ;;
        if Py.contains t text then
          all_rules re_search text rules
            (if b then (acc ++ ["ascii_contains: " ++ t]) ++ ["ascii_regex: " ++ p]
             else acc ++ ["ascii_contains: " ++ t])
        else if b then all_rules re_search text rules (acc ++ ["ascii_regex: " ++ p])
             else Ok (false, acc)
    | Some t, None =>
        if Py.contains t text
        then all_rules re_search text rules (acc ++ ["ascii_contains: " ++ t])
        else Ok (false, acc)
    | None, Some p =>
        b <- re_search p text ;;
        if b then all_rules re_search text rules (acc ++ ["ascii_regex: " ++ p])
        else Ok (false, acc)
    | None, None => Ok (false, acc)
    end.
Proof.
  cbn [all_rules].
  destruct (ascii_contains rule) as [t|], (ascii_regex rule) as [p|];
    try destruct (Py.contains t text);
    try (destruct (re_search p text) as [[|]|e]); reflexivity.
Qed.

Lemma all_rules_sound (rules : list Rule) (acc acc' : list Py.str) (b : bool) :
  Forall holds acc ->
  all_rules re_search text rules acc = Ok (b, acc') ->
  Forall holds acc'.
Proof.
  revert acc. induction rules as [|rule rules IH]; intros acc Hacc.
  - cbn [all_rules]. intros H. now injection H as <- <-.
  - rewrite all_rules_cons.
    destruct (ascii_contains rule) as [t|], (ascii_regex rule) as [p|].
    + destruct (re_search p text) as [r|e] eqn:Er; cbn [Py.bind];
        [|discriminate].
      destruct (Py.contains t text) eqn:Ec.
      * apply IH. destruct r.
        -- repeat (apply Forall_app; split); trivial;
             repeat constructor; assumption.
        -- apply Forall_app; split; trivial. repeat constructor; assumption.
      * destruct r.
        -- apply IH. apply Forall_app; split; trivial.
           repeat constructor; assumption.
        -- intros H. now injection H as <- <-.
    + destruct (Py.contains t text) eqn:Ec.
      * apply IH. apply Forall_app; split; trivial.
        repeat constructor; assumption.
      * intros H. now injection H as <- <-.
    + destruct (re_search p text) as [[|]|e] eqn:Er; cbn [Py.bind];
        [| |discriminate].
      * apply IH. apply Forall_app; split; trivial.
        repeat constructor; assumption.
      * intros H. now injection H as <- <-.
    + intros H. now injection H as <- <-.
Qed.

Lemma good_top_any (rules : list Rule) :
  good (hit <- any_rules re_search text rules ;;
        Ok (match hit with
            | Some d => (true, Some d)
            | None => (false, None)
            end)).
Proof.
  destruct (any_rules re_search text rules) as [[d|]|e] eqn:E; cbn [Py.bind].
  - apply good_yes. left. now apply any_rules_sound in E.
  - apply good_no.
  - apply good_raise.
Qed.

Lemma good_any (rules : list Rule) (k : Py.result (bool * option Py.str)) :
  good k ->
  good (hit <- any_rules re_search text rules ;;
        match hit with
        | Some d => Ok (true, Some d)
        | None => k
        end).
Proof.
  intros Hk.
  destruct (any_rules re_search text rules) as [[d|]|e] eqn:E; cbn [Py.bind].
  - apply good_yes. left. now apply any_rules_sound in E.
  - exact Hk.
  - apply good_raise.
Qed.

Lemma good_all (rules : list Rule) (k : Py.result (bool * option Py.str)) :
  good k ->
  good (st <- all_rules re_search text rules [] ;;
        let '(all_matched, matched_rules) := st in
        if all_matched && negb (Nat.eqb (length matched_rules) 0)
        then Ok (true, Some (Py.join " AND " matched_rules))
        else k).
Proof.
  intros Hk.
  destruct (all_rules re_search text rules []) as [[a m]|e] eqn:E;
    cbn [Py.bind]; [|apply good_raise].
  destruct (a && negb (Nat.eqb (length m) 0)) eqn:Ea; [|exact Hk].
  apply andb_prop in Ea as [_ Hm].
  apply good_yes. right. exists m. split; [|split].
  - intros ->. discriminate Hm.
  - eapply all_rules_sound; [|exact E]. constructor.
  - reflexivity.
Qed.

Lemma match_content_good (screen_id : ScreenId) :
  good (match_content re_search text screen_id).
Proof.
  unfold match_content.
  assert (Htop : good match sid_any screen_id with
                      | Some rules =>
                          hit <- any_rules re_search text rules ;;
                          Ok (match hit with
                              | Some d => (true, Some d)
                              | None => (false, None)
                              end)
                      | None => Ok (false, None)
                      end).
  { destruct (sid_any screen_id); [apply good_top_any | apply good_no]. }
  set (top_any := match sid_any screen_id with Some _ => _ | None => _ end) in *.
  assert (Hin : good match sid_match screen_id with
                     | Some match_rules =>
                         match m_any match_rules with
                         | Some rules =>
                             hit <- any_rules re_search text rules ;;
                             match hit with
                             | Some d => Ok (true, Some d)
                             | None =>
                                 match m_all match_rules with
                                 | Some rules =>
                                     st <- all_rules re_search text rules [] ;;
                                     let '(all_matched, matched_rules) := st in
                                     if all_matched
                                        && negb (Nat.eqb (length matched_rules) 0)
                                     then Ok (true, Some (Py.join " AND " matched_rules))
                                     else top_any
                                 | None => top_any
                                 end
                             end
                         | None =>
                             match m_all match_rules with
                             | Some rules =>
                                 st <- all_rules re_search text rules [] ;;
                                 let '(all_matched, matched_rules) := st in
                                 if all_matched
                                    && negb (Nat.eqb (length matched_rules) 0)
                                 then Ok (true, Some (Py.join " AND " matched_rules))
                                 else top_any
                             | None => top_any
                             end
                         end
                     | None => top_any
                     end).
  { destruct (sid_match screen_id) as [m|]; [|exact Htop].
    assert (Hall : good match m_all m with
                        | Some rules =>
                            st <- all_rules re_search text rules [] ;;
                            let '(all_matched, matched_rules) := st in
                            if all_matched
                               && negb (Nat.eqb (length matched_rules) 0)
                            then Ok (true, Some (Py.join " AND " matched_rules))
                            else top_any
                        | None => top_any
                        end).
    { destruct (m_all m); [now apply good_all | exact Htop]. }
    destruct (m_any m); [now apply good_any | exact Hall]. }
  set (in_match := match sid_match screen_id with Some _ => _ | None => _ end) in *.
  assert (Hre : good match sid_ascii_regex screen_id with
                     | Some p =>
                         b <- re_search p text ;;
                         if b then Ok (true, Some ("ascii_regex: " ++ p))
                         else in_match
                     | None => in_match
                     end).
  { destruct (sid_ascii_regex screen_id) as [p|]; [|exact Hin].
    destruct (re_search p text) as [[|]|e] eqn:E; cbn [Py.bind].
    - apply good_yes. left. now apply holds_regex.
    - exact Hin.
    - apply good_raise. }
  destruct (sid_ascii_contains screen_id) as [t|]; [|exact Hre].
  destruct (Py.contains t text) eqn:E; [|exact Hre].
  apply good_yes. left. now apply holds_contains.
Qed.

Lemma all_rules_true (rules : list Rule) (acc acc' : list Py.str) :
  all_rules re_search text rules acc = Ok (true, acc') ->
  Forall rule_holds rules /\ (length acc + length rules <= length acc')%nat.
Proof.
  revert acc. induction rules as [|rule rules IH]; intros acc.
  - cbn [all_rules]. intros H. injection H as <-. split; [constructor|].
    cbn [length]. lia.
  - rewrite all_rules_cons. unfold rule_holds.
    destruct (ascii_contains rule) as [t|] eqn:Et,
             (ascii_regex rule) as [p|] eqn:Ep.
    + destruct (re_search p text) as [r|e] eqn:Er; cbn [Py.bind];
        [|discriminate].
      destruct (Py.contains t text) eqn:Ec.
      * intros H. apply IH in H as [Hr Hl]. split.
        -- constructor; [|exact Hr]. left. now exists t.
        -- destruct r; rewrite ?length_app in Hl; cbn [length] in *; lia.
      * destruct r; [|discriminate]. intros H. apply IH in H as [Hr Hl]. split.
        -- constructor; [|exact Hr]. right. now exists p.
        -- rewrite length_app in Hl. cbn [length] in *. lia.
    + destruct (Py.contains t text) eqn:Ec; [|discriminate].
      intros H. apply IH in H as [Hr Hl]. split.
      * constructor; [|exact Hr]. left. now exists t.
      * rewrite length_app in Hl. cbn [length] in *. lia.
    + destruct (re_search p text) as [[|]|e] eqn:Er; cbn [Py.bind];
        try discriminate.
      intros H. apply IH in H as [Hr Hl]. split.
      * constructor; [|exact Hr]. right. now exists p.
      * rewrite length_app in Hl. cbn [length] in *. lia.
    + discriminate.
Qed.

Lemma all_rules_complete (rules : list Rule) (acc : list Py.str) :
  Forall rule_holds rules -> compiles rules ->
  exists acc', all_rules re_search text rules acc = Ok (true, acc').
Proof.
  intros Hr. revert acc. induction Hr as [|rule rules Hh _ IH]; intros acc Hc.
  - exists acc. reflexivity.
  - assert (Hc' : compiles rules).
    { intros r p Hin. apply Hc. now right. }
    rewrite all_rules_cons.
    destruct (ascii_contains rule) as [t|] eqn:Et,
             (ascii_regex rule) as [p|] eqn:Ep.
    + destruct (Hc rule p (or_introl eq_refl) Ep) as [b Eb].
      rewrite Eb. cbn [Py.bind].
      destruct (Py.contains t text) eqn:Ec; [now apply IH|].
      destruct Hh as [[t' [Ht' Hct]]|[p' [Hp' Hrp]]].
      * congruence.
      * assert (b = true) by congruence. subst b. now apply IH.
    + destruct Hh as [[t' [Ht' Hct]]|[p' [Hp' _]]]; [|congruence].
      assert (t' = t) by congruence. subst t'. rewrite Hct. now apply IH.
    + destruct Hh as [[t' [Ht' _]]|[p' [Hp' Hrp]]]; [congruence|].
      assert (p' = p) by congruence. subst p'.
      rewrite Hrp. cbn [Py.bind]. now apply IH.
    + destruct Hh as [[t' [Ht' _]]|[p' [Hp' _]]]; congruence.
Qed.

End Matching.

Lemma match_screen_cases
      (re_search : Py.str -> Py.str -> Py.result bool)
      (snapshot : Snapshot) (screen_id : ScreenId) :
  (dims_agree snapshot screen_id /\ stable snapshot screen_id
   /\ match_screen re_search snapshot screen_id
      = match_content re_search (ascii_of snapshot) screen_id)
  \/ (~ (dims_agree snapshot screen_id /\ stable snapshot screen_id)
      /\ match_screen re_search snapshot screen_id = Ok (false, None)).
Proof.
  unfold match_screen.
  destruct (match sid_match screen_id with
            | Some match_rules => _ | None => false end) eqn:Ed.
  { right. split; [|reflexivity]. intros [Hd _].
    destruct (sid_match screen_id) as [m|] eqn:Em; [|discriminate].
    destruct (Hd m Em) as [Hc Hr].
    apply orb_prop in Ed as [Ed|Ed].
    - destruct (m_cols m) as [c|]; [|discriminate].
      apply negb_true_iff in Ed.
      specialize (Hc c eq_refl). apply opt_Z_eqb_eq in Hc. congruence.
    - destruct (m_rows m) as [r|]; [|discriminate].
      apply negb_true_iff in Ed.
      specialize (Hr r eq_refl). apply opt_Z_eqb_eq in Hr. congruence. }
  assert (Hd : dims_agree snapshot screen_id).
  { intros m Hm. rewrite Hm in Ed. apply orb_false_elim in Ed as [Ec Er].
    split.
    - intros c Hc. rewrite Hc in Ec. apply negb_false_iff in Ec.
      now apply opt_Z_eqb_eq.
    - intros r Hr. rewrite Hr in Er. apply negb_false_iff in Er.
      now apply opt_Z_eqb_eq. }
  destruct (match sid_stability screen_id with
            | Some stability => _ | None => false end) eqn:Es.
  { right. split; [|reflexivity]. intros [_ Hs].
    destruct (sid_stability screen_id) as [st|] eqn:Est; [|discriminate].
    destruct (min_chars st) as [n|] eqn:En; [|discriminate].
    specialize (Hs st n Est En). apply Z.ltb_lt in Es. lia. }
  left. split; [exact Hd|]. split; [|reflexivity].
  intros st n Hst Hn. rewrite Hst, Hn in Es. now apply Z.ltb_ge in Es.
Qed.

(** X12.  [match_screen] answers [(False, None)] or [(True, description)],
    nothing else.  A positive answer means that the dimensions asked for
    are those of the snapshot, that the text has the characters asked for,
    and that the description is that of a predicate which holds of the
    text, or the descriptions of several such predicates joined by
    [" AND "]. *)
Theorem match_screen_sound
        (re_search : Py.str -> Py.str -> Py.result bool)
        (snapshot : Snapshot) (screen_id : ScreenId)
        (matched : bool) (rule : option Py.str) :
  match_screen re_search snapshot screen_id = Ok (matched, rule) ->
  (matched = false /\ rule = None)
  \/ (matched = true
      /\ dims_agree snapshot screen_id
      /\ stable snapshot screen_id
      /\ exists s, rule = Some s /\ reported re_search (ascii_of snapshot) s).
Proof.
  intros H.
  destruct (match_screen_cases re_search snapshot screen_id)
    as [[Hd [Hs E]]|[_ E]]; rewrite E in H.
  - apply match_content_good in H as [Hno|[Hb Hrep]]; [now left|].
    right. split; [exact Hb|]. split; [exact Hd|]. split; [exact Hs|exact Hrep].
  - injection H as <- <-. now left.
Qed.

Lemma match_screen_sound_witness :
  (true = false /\ Some ("ascii_contains: READY" : Py.str) = None)
  \/ (true = true
      /\ dims_agree MatcherFacts.ready_screen
           (mkScreenId (Some (mkMatchRules (Some 80) (Some 24) None None))
                       None (Some ("READY" : Py.str)) None None)
      /\ stable MatcherFacts.ready_screen
           (mkScreenId (Some (mkMatchRules (Some 80) (Some 24) None None))
                       None (Some ("READY" : Py.str)) None None)
      /\ exists s, Some ("ascii_contains: READY" : Py.str) = Some s
                   /\ reported (fun _ _ => Ok false)
                               (ascii_of MatcherFacts.ready_screen) s).
Proof.
  apply (match_screen_sound (fun _ _ => Ok false) MatcherFacts.ready_screen
           (mkScreenId (Some (mkMatchRules (Some 80) (Some 24) None None))
                       None (Some ("READY" : Py.str)) None None)).
  reflexivity.
Defined.

(** X13.  For a screen ID whose only predicates are those of [match.all],
    with patterns that compile, [match_screen] is positive exactly when the
    dimensions and the stability bound are met, the list is not empty and
    every rule of it has a predicate that holds of the text.  In particular
    an empty [all] list matches nothing. *)
Theorem match_screen_all
        (re_search : Py.str -> Py.str -> Py.result bool)
        (snapshot : Snapshot) (screen_id : ScreenId)
        (m : MatchRules) (rules : list Rule) :
  sid_ascii_contains screen_id = None ->
  sid_ascii_regex screen_id = None ->
  sid_any screen_id = None ->
  sid_match screen_id = Some m ->
  m_any m = None ->
  m_all m = Some rules ->
  compiles re_search (ascii_of snapshot) rules ->
  ((exists d, match_screen re_search snapshot screen_id = Ok (true, d))
   <-> dims_agree snapshot screen_id
       /\ stable snapshot screen_id
       /\ rules <> []
       /\ Forall (rule_holds re_search (ascii_of snapshot)) rules).
Proof.
  intros Hc Hr Hany Hm Hma Hml Hcomp.
  assert (E : match_content re_search (ascii_of snapshot) screen_id
              = (st <- all_rules re_search (ascii_of snapshot) rules [] ;;
                 let '(all_matched, matched_rules) := st in
                 if all_matched && negb (Nat.eqb (length matched_rules) 0)
                 then Ok (true, Some (Py.join " AND " matched_rules))
                 else Ok (false, None))).
  { unfold match_content. now rewrite Hc, Hr, Hany, Hm, Hma, Hml. }
  destruct (match_screen_cases re_search snapshot screen_id)
    as [[Hd [Hs Em]]|[Hn Em]]; rewrite Em.
  - rewrite E. split.
    + intros [d H].
      split; [exact Hd|]. split; [exact Hs|]. split.
      * intros ->. discriminate H.
      * destruct (all_rules re_search (ascii_of snapshot) rules [])
          as [[a ms]|e] eqn:Ea; cbn [Py.bind] in H; [|discriminate].
        destruct a; [|discriminate].
        now apply all_rules_true in Ea as [Hh _].
    + intros [_ [_ [Hne Hh]]].
      destruct (all_rules_complete re_search (ascii_of snapshot) rules []
                                   Hh Hcomp) as [ms Ea].
      rewrite Ea. cbn [Py.bind andb].
      apply all_rules_true in Ea as [_ Hl].
      destruct ms as [|d ms].
      * destruct rules; [congruence|]. cbn [length] in Hl. lia.
      * eexists. reflexivity.
  - split.
    + intros [d H]. discriminate H.
    + intros [Hd [Hs _]]. exfalso. apply Hn. now split.
Qed.

(** The READY screen of the predefined screen IDs, with [re.search] as the
    test whether the text is READY between blanks. *)
Definition tso_ready : ScreenId :=
  mkScreenId
    (Some (mkMatchRules None None None
             (Some [mkRule (Some ("READY" : Py.str)) None;
                    mkRule None (Some ("^\s*READY\s*$" : Py.str))])))
    None None None None.

Lemma match_screen_all_witness :
  (exists d,
     match_screen (fun _ t => Ok (Py.str_eqb (Py.strip t) "READY"))
                  MatcherFacts.ready_screen tso_ready = Ok (true, d))
  <-> dims_agree MatcherFacts.ready_screen tso_ready
      /\ stable MatcherFacts.ready_screen tso_ready
      /\ [mkRule (Some ("READY" : Py.str)) None;
          mkRule None (Some ("^\s*READY\s*$" : Py.str))] <> []
      /\ Forall (rule_holds (fun _ t => Ok (Py.str_eqb (Py.strip t) "READY"))
                            (ascii_of MatcherFacts.ready_screen))
                [mkRule (Some ("READY" : Py.str)) None;
                 mkRule None (Some ("^\s*READY\s*$" : Py.str))].
Proof.
  apply (match_screen_all (fun _ t => Ok (Py.str_eqb (Py.strip t) "READY"))
           MatcherFacts.ready_screen tso_ready
           (mkMatchRules None None None
              (Some [mkRule (Some ("READY" : Py.str)) None;
                     mkRule None (Some ("^\s*READY\s*$" : Py.str))]))
           [mkRule (Some ("READY" : Py.str)) None;
            mkRule None (Some ("^\s*READY\s*$" : Py.str))]);
    try reflexivity.
  intros rule p _ _. eexists. reflexivity.
Defined.

End MatchSoundFacts.

(** ** screen_fingerprint.py: what normalization removes and keeps *)

Module NormalizeFacts.
Import Fingerprint PyFacts FingerprintFacts.

Section Rdropwhile.
Context {A : Type} (p : A -> bool).

Lemma rdropwhile_snoc (l : list A) (x : A) :
  Py.rdropwhile p (l ++ [x])
  = if p x then Py.rdropwhile p l else l ++ [x].
Proof.
  unfold Py.rdropwhile. rewrite rev_app_distr. cbn [rev app Py.dropwhile].
  destruct (p x); [reflexivity|].
  cbn [rev]. now rewrite rev_involutive.
Qed.

Lemma trim_snoc (l : list A) (x : A) :
  p x = true ->
  Py.rdropwhile p (Py.dropwhile p (l ++ [x]))
  = Py.rdropwhile p (Py.dropwhile p l).
Proof.
  intros Hx. induction l as [|y l IH]; cbn [app Py.dropwhile].
  - now rewrite Hx.
  - destruct (p y) eqn:Ey; [exact IH|].
    change (y :: l ++ [x]) with ((y :: l) ++ [x]).
    now rewrite rdropwhile_snoc, Hx.
Qed.

End Rdropwhile.

Lemma split_snoc (sep : ascii) (s : Py.str) :
  exists init l,
    Py.split sep s = init ++ [l]
    /\ (forall c, Ascii.eqb c sep = false ->
                  Py.split sep (s ++ [c]) = init ++ [l ++ [c]])
    /\ Py.split sep (s ++ [sep]) = init ++ [l; []].
Proof.
  induction s as [|a s [init [l [E [Hc Hs]]]]].
  - exists [], []. cbn [app Py.split]. rewrite Ascii.eqb_refl.
    split; [reflexivity|]. split; [|reflexivity].
    intros c Hne. now rewrite Hne.
  - cbn [app Py.split]. destruct (Ascii.eqb a sep) eqn:Ea.
    + exists ([] :: init), l. rewrite E, Hs. split; [reflexivity|].
      split; [|reflexivity]. intros c Hne. now rewrite Hc.
    + destruct init as [|i init].
      * exists [], (a :: l). rewrite E, Hs. cbn [app].
        split; [reflexivity|]. split; [|reflexivity].
        intros c Hne. now rewrite Hc.
      * exists ((a :: i) :: init), l. rewrite E, Hs. cbn [app].
        split; [reflexivity|]. split; [|reflexivity].
        intros c Hne. now rewrite Hc.
Qed.

Lemma isspace_newline : Py.isspace newline = true.
Proof. reflexivity. Qed.

Lemma normal_lines_snoc (t : Py.str) (c : ascii) :
  Py.isspace c = true -> normal_lines (t ++ [c]) = normal_lines t.
Proof.
  intros Hc. unfold normal_lines.
  destruct (split_snoc newline t) as [init [l [E [Hne Hnl]]]].
  destruct (Ascii.eqb c newline) eqn:Ec.
  - apply Ascii.eqb_eq in Ec. subst c. rewrite Hnl, E.
    change (init ++ [l; []]) with (init ++ [l] ++ [[]]).
    rewrite app_assoc, map_app. cbn [map].
    change (Py.rstrip []) with (@nil ascii).
    now apply trim_snoc.
  - rewrite (Hne c Ec), E, !map_app. cbn [map].
    unfold Py.rstrip at 2. now rewrite rdropwhile_snoc, Hc.
Qed.

Lemma normal_lines_trailing (t w : Py.str) :
  Forall (fun c => Py.isspace c = true) w ->
  normal_lines (t ++ w) = normal_lines t.
Proof.
  intros Hw. revert t. induction Hw as [|c w Hc _ IH]; intros t.
  - now rewrite app_nil_r.
  - change (c :: w) with ([c] ++ w). rewrite app_assoc, IH.
    now apply normal_lines_snoc.
Qed.

Lemma normal_lines_blank_line (u t : Py.str) :
  Forall (fun c => Py.isspace c = true) u -> ~ In newline u ->
  normal_lines (u ++ newline :: t) = normal_lines t.
Proof.
  intros Hu Hn. unfold normal_lines.
  rewrite split_app_sep by exact Hn. cbn [map].
  assert (E : Py.rstrip u = []).
  { apply rdropwhile_all. now apply forallb_forall, Forall_forall. }
  rewrite E. reflexivity.
Qed.

Lemma first_line (w : Py.str) :
  ~ In newline w
  \/ exists u v, w = u ++ newline :: v /\ ~ In newline u.
Proof.
  induction w as [|c w IH]; [left; intros []|].
  destruct (Ascii.eqb c newline) eqn:Ec.
  - apply Ascii.eqb_eq in Ec. subst c. right. exists [], w.
    split; [reflexivity | intros []].
  - assert (Hc : c <> newline).
    { intros ->. now rewrite Ascii.eqb_refl in Ec. }
    destruct IH as [Hn|[u [v [-> Hu]]]].
    + left. intros [H|H]; [now apply Hc | now apply Hn].
    + right. exists (c :: u), v. split; [reflexivity|].
      intros [H|H]; [now apply Hc | now apply Hu].
Qed.

Lemma normal_lines_leading (w t : Py.str) :
  Forall (fun c => Py.isspace c = true) w ->
  normal_lines (w ++ newline :: t) = normal_lines t.
Proof.
  remember (length w) as n eqn:Hn.
  assert (Hle : (length w <= n)%nat) by lia. clear Hn.
  revert w Hle. induction n as [|n IH]; intros w Hle Hw.
  - destruct w; [|cbn [length] in Hle; lia].
    apply (normal_lines_blank_line [] t); [constructor | intros []].
  - destruct (first_line w) as [Hn|[u [v [-> Hu]]]].
    + now apply normal_lines_blank_line.
    + apply Forall_app in Hw as [Hwu Hwv].
      inversion Hwv as [|? ? _ Hv]; subst.
      rewrite <- app_assoc. cbn [app].
      rewrite normal_lines_blank_line by assumption.
      apply IH; [|exact Hv].
      rewrite length_app in Hle. cbn [length] in Hle. lia.
Qed.

(** X14.  White space in front of the text, up to and including a
    newline, and white space behind it make no difference to
    [normalize_screen], and so none to [compute_digest]. *)
Theorem normalize_screen_frame (w T w' : Py.str) :
  Forall (fun c => Py.isspace c = true) w ->
  Forall (fun c => Py.isspace c = true) w' ->
  normalize_screen (T ++ w') = normalize_screen T
  /\ normalize_screen (w ++ newline :: T) = normalize_screen T
  /\ compute_digest (w ++ newline :: T ++ w') = compute_digest T.
Proof.
  intros Hw Hw'.
  assert (E1 : normalize_screen (T ++ w') = normalize_screen T).
  { rewrite !normalize_screen_eq. now rewrite normal_lines_trailing. }
  assert (E2 : forall t, normalize_screen (w ++ newline :: t) = normalize_screen t).
  { intros t. rewrite !normalize_screen_eq. now rewrite normal_lines_leading. }
  split; [exact E1|]. split; [apply E2|].
  unfold compute_digest. now rewrite E2, E1.
Qed.

Lemma normalize_screen_frame_witness :
  normalize_screen ("READY" ++ "  " ++ [newline]) = normalize_screen "READY"
  /\ normalize_screen ("   " ++ newline :: "READY") = normalize_screen "READY"
  /\ compute_digest ("   " ++ newline :: "READY" ++ "  " ++ [newline])
     = compute_digest "READY".
Proof.
  apply (normalize_screen_frame "   " "READY" ("  " ++ [newline]));
    repeat constructor.
Defined.

(** The texts that [normalize_screen] leaves as they are: lines without a
    newline and without white space at the end, the first and the last of
    them not empty. *)
Definition normalized (ls : list Py.str) : Prop :=
  Forall (fun l => ~ In newline l) ls
  /\ map Py.rstrip ls = ls
  /\ Py.dropwhile blank ls = ls
  /\ Py.rdropwhile blank ls = ls.

(** X15.  The fixed points of [normalize_screen] are exactly the texts
    made of lines that end in no white space, joined by a newline, with a
    first and a last line that are not empty.  White space at the start of
    a line and runs of blanks inside a line are kept. *)
Theorem normalize_screen_fixed_points (T : Py.str) :
  normalize_screen T = T
  <-> exists ls, normalized ls /\ T = Py.join [newline] ls.
Proof.
  split.
  - intros H. exists (normal_lines T). split.
    + split; [apply normal_lines_no_newline|].
      split; [apply normal_lines_rstripped|].
      split; [apply normal_lines_head | apply normal_lines_last].
    + now rewrite <- normalize_screen_eq.
  - intros [ls [[Hn [Hr [Hh Hl]]] ->]].
    rewrite normalize_screen_eq. f_equal.
    destruct ls as [|l ls]; [reflexivity|].
    unfold normal_lines. rewrite split_join; [|discriminate|exact Hn].
    now rewrite Hr, Hh.
Qed.

Example normalize_screen_keeps_blanks :
  normalize_screen ("  Logon   ===>" ++ [newline] ++ "   READY")
  = "  Logon   ===>" ++ [newline] ++ "   READY".
Proof. reflexivity. Qed.

(** *** Only white space is removed *)

Definition nonspace (c : ascii) : bool := negb (Py.isspace c).

Lemma join_split (sep : ascii) (s : Py.str) :
  Py.join [sep] (Py.split sep s) = s.
Proof.
  induction s as [|c s IH]; [reflexivity|].
  cbn [Py.split]. destruct (Ascii.eqb c sep) eqn:Ec.
  - apply Ascii.eqb_eq in Ec. subst c.
    pose proof (split_nonempty sep s) as Hne.
    destruct (Py.split sep s) as [|l ls]; [congruence|].
    change (Py.join [sep] ([] :: l :: ls)) with (sep :: Py.join [sep] (l :: ls)).
    now rewrite IH.
  - pose proof (split_nonempty sep s) as Hne.
    destruct (Py.split sep s) as [|l ls]; [congruence|].
    destruct ls as [|l' ls]; cbn [Py.join app] in *; now rewrite IH.
Qed.

Lemma filter_join (sep : ascii) (ls : list Py.str) :
  Py.isspace sep = true ->
  filter nonspace (Py.join [sep] ls) = concat (map (filter nonspace) ls).
Proof.
  intros Hs. induction ls as [|l ls IH]; [reflexivity|].
  destruct ls as [|l' ls].
  - cbn [Py.join map concat]. now rewrite app_nil_r.
  - change (Py.join [sep] (l :: l' :: ls))
      with (l ++ sep :: Py.join [sep] (l' :: ls)).
    rewrite filter_app. cbn [filter]. unfold nonspace at 2. rewrite Hs.
    cbn [negb]. rewrite IH. reflexivity.
Qed.

Lemma filter_rstrip (l : Py.str) :
  filter nonspace (Py.rstrip l) = filter nonspace l.
Proof.
  induction l as [|c l IH] using rev_ind; [reflexivity|].
  unfold Py.rstrip in *. rewrite rdropwhile_snoc.
  destruct (Py.isspace c) eqn:Ec; [|reflexivity].
  rewrite IH, filter_app. cbn [filter]. unfold nonspace at 3. rewrite Ec.
  cbn [negb]. now rewrite app_nil_r.
Qed.

Lemma blank_filter_lines (ls : list Py.str) :
  concat (map (filter nonspace) (Py.dropwhile blank ls))
  = concat (map (filter nonspace) ls).
Proof.
  induction ls as [|l ls IH]; [reflexivity|].
  cbn [Py.dropwhile]. destruct l; [exact IH | reflexivity].
Qed.

Lemma rblank_filter_lines (ls : list Py.str) :
  concat (map (filter nonspace) (Py.rdropwhile blank ls))
  = concat (map (filter nonspace) ls).
Proof.
  induction ls as [|l ls IH] using rev_ind; [reflexivity|].
  rewrite rdropwhile_snoc. destruct l as [|c l]; cbn [blank]; [|reflexivity].
  rewrite IH, map_app, concat_app. cbn [map filter concat].
  now rewrite !app_nil_r.
Qed.

(** X16.  [normalize_screen] removes white space and nothing else: the
    characters that are not white space are the same, in the same order,
    before and after. *)
Theorem normalize_screen_keeps_text (T : Py.str) :
  filter nonspace (normalize_screen T) = filter nonspace T.
Proof.
  rewrite normalize_screen_eq, (filter_join newline) by reflexivity.
  unfold normal_lines.
  rewrite rblank_filter_lines, blank_filter_lines, map_map.
  rewrite (map_ext _ (filter nonspace) filter_rstrip).
  rewrite <- (filter_join newline) by reflexivity.
  now rewrite join_split.
Qed.

End NormalizeFacts.

(** ** session.py: the operations on a connected session *)

Module SessionOpsFacts.
Import Session SessionOps.

(** What [send_text] makes of one character. *)
Definition escape_char (c : ascii) : Py.str :=
  if Ascii.eqb c dquote then [backslash; backslash; dquote]
  else if Ascii.eqb c backslash then [backslash; backslash]
  else [c].

(** The quotes of a text that no backslash escapes: those that follow an
    even number of backslashes. *)
Fixpoint bare_quotes (escaped : bool) (s : Py.str) : nat :=
  match s with
  | [] => 0
  | c :: s' =>
      if escaped then bare_quotes false s'
      else if Ascii.eqb c backslash then bare_quotes true s'
      else if Ascii.eqb c dquote then S (bare_quotes false s')
      else bare_quotes false s'
  end.

Lemma escape_cons (c : ascii) (text : Py.str) :
  escape (c :: text) = escape_char c ++ escape text.
Proof.
  unfold escape, replace_char, escape_char. cbn [flat_map].
  rewrite flat_map_app.
  destruct (Ascii.eqb c dquote) eqn:Eq.
  - reflexivity.
  - cbn [flat_map]. rewrite app_nil_r.
    destruct (Ascii.eqb c backslash); reflexivity.
Qed.

(** X17.  [send_text] writes each double quote of the text as two
    backslashes and a quote, and each backslash as two backslashes: the
    backslash meant for the quote is itself doubled.  So every quote of the
    text comes out after an even number of backslashes, escaped by none of
    them. *)
Theorem send_text_escape (text : Py.str) :
  escape text = flat_map escape_char text
  /\ bare_quotes false (escape text) = count_occ ascii_dec text dquote.
Proof.
  split.
  - induction text as [|c text IH]; [reflexivity|].
    rewrite escape_cons, IH. reflexivity.
  - induction text as [|c text IH]; [reflexivity|].
    rewrite escape_cons. unfold escape_char.
    destruct (Ascii.eqb c dquote) eqn:Eq.
    + apply Ascii.eqb_eq in Eq. subst c.
      cbn [app bare_quotes]. rewrite Ascii.eqb_refl.
      change (Ascii.eqb dquote backslash) with false. cbn iota.
      rewrite IH. cbn [count_occ].
      destruct (ascii_dec dquote dquote); [reflexivity | congruence].
    + assert (Hn : c <> dquote).
      { intros ->. now rewrite Ascii.eqb_refl in Eq. }
      cbn [count_occ]. destruct (ascii_dec c dquote) as [->|_]; [congruence|].
      destruct (Ascii.eqb c backslash) eqn:Eb.
      * apply Ascii.eqb_eq in Eb. subst c.
        cbn [app bare_quotes]. rewrite Ascii.eqb_refl. exact IH.
      * cbn [app bare_quotes]. now rewrite Eb, Eq.
Qed.

Example send_text_escape_quote :
  escape ("say " ++ [dquote] ++ "hi" ++ [dquote])
  = "say \\" ++ [dquote] ++ "hi\\" ++ [dquote].
Proof. reflexivity. Qed.



Section Driver.

Variable Proc : Type.
Variable popen : option Py.str -> Py.result Proc.
Variable running : Proc -> bool.
Variable exchange : Py.str -> Proc -> Proc * list Py.str.
Variable parse : Py.str -> option StatusLine.

Let S : Type := S3270Session Proc.

(** A command that went through: the process was running, and the session
    afterwards holds the process and the status the exchange left. *)
Definition sent (command : Py.str) (s s' : S) : Prop :=
  exists p, process Proc s = Some p /\ running p = true
    /\ s' = set_last_status Proc
              (fold_left (note_status parse) (snd (exchange command p))
                         (last_status Proc s))
              (set_process Proc (Some (fst (exchange command p))) s).

Lemma send_cases (command : Py.str) (s s' : S) (x : Py.result (list Py.str)) :
  send Proc running exchange parse command s = (s', x) ->
  (exists e, x = Raise e /\ s' = s)
  \/ (exists response, x = Ok response /\ sent command s s').
Proof.
  unfold send, _send_command. intros H.
  destruct (process Proc s) as [p|] eqn:Ep.
  - destruct (running p) eqn:Er; cbn [negb] in H.
    + destruct (exchange command p) as [p' response] eqn:Ex.
      injection H as <- <-. right. exists response. split; [reflexivity|].
      exists p. rewrite Ex. cbn [fst snd]. now repeat split.
    + injection H as <- <-. left. eexists. now split.
  - injection H as <- <-. left. eexists. now split.
Qed.

Lemma sent_connected (command : Py.str) (s s' : S) :
  sent command s s' -> connected Proc s' = connected Proc s.
Proof. intros [p [_ [_ ->]]]. reflexivity. Qed.

Lemma send_connected (command : Py.str) (s s' : S)
      (x : Py.result (list Py.str)) :
  send Proc running exchange parse command s = (s', x) ->
  connected Proc s' = connected Proc s.
Proof.
  intros H. apply send_cases in H as [[e [_ ->]]|[r [_ H]]]; [reflexivity|].
  now apply sent_connected in H.
Qed.

Lemma send_then_ret (command : Py.str) (s s' : S) (x : Py.result unit) :
  (send Proc running exchange parse command ;;; Eff.ret tt) s = (s', x) ->
  (forall e, x = Raise e -> s' = s)
  /\ (x = Ok tt -> sent command s s').
Proof.
  unfold Eff.mbind. intros H.
  destruct (send Proc running exchange parse command s) as [s1 r] eqn:E.
  apply send_cases in E as [[e [-> ->]]|[response [-> Hs]]].
  - injection H as <- <-. split; [reflexivity | discriminate].
  - injection H as <- <-. split; [discriminate | intros _; exact Hs].
Qed.

(** X19.  [press] sends one command or none: Enter, Clear, or PF or PA
    with the rest of the key name between the brackets.  That rest is
    passed on as it is, whatever it holds.  A [press] that raises -- the
    key is unknown, or the process is not running -- leaves the session as
    it was. *)
Theorem press_sends (aid : Py.str) :
  (forall s s' x,
     press Proc running exchange parse aid s = (s', x) ->
     (forall e, x = Raise e -> s' = s)
     /\ (x = Ok tt ->
         exists command, sent command s s'
           /\ (command = "Enter" \/ command = "Clear"
               \/ command = "PF(" ++ skipn 2 aid ++ ")"
               \/ command = "PA(" ++ skipn 2 aid ++ ")")))
  /\ (forall a b rest, aid = a :: b :: rest ->
      a = "P"%char \/ a = "p"%char ->
      (b = "F"%char \/ b = "f"%char ->
       press Proc running exchange parse aid
       = (send Proc running exchange parse ("PF(" ++ rest ++ ")") ;;;
          Eff.ret tt))
      /\ (b = "A"%char \/ b = "a"%char ->
          press Proc running exchange parse aid
          = (send Proc running exchange parse ("PA(" ++ rest ++ ")") ;;;
             Eff.ret tt))).
Proof.
  split.
  - intros s s' x. unfold press.
    destruct (codes_eqb (upper aid) (codes "ENTER")).
    { intros H. apply send_then_ret in H as [Hr Ho]. split; [exact Hr|].
      intros Hx. exists ("Enter" : Py.str). split; [now apply Ho | now left]. }
    destruct (codes_startswith (codes "PF") (upper aid)).
    { intros H. apply send_then_ret in H as [Hr Ho]. split; [exact Hr|].
      intros Hx. eexists. split; [now apply Ho|]. right. right. now left. }
    destruct (codes_startswith (codes "PA") (upper aid)).
    { intros H. apply send_then_ret in H as [Hr Ho]. split; [exact Hr|].
      intros Hx. eexists. split; [now apply Ho|]. right. right. now right. }
    destruct (codes_eqb (upper aid) (codes "CLEAR")).
    { intros H. apply send_then_ret in H as [Hr Ho]. split; [exact Hr|].
      intros Hx. exists ("Clear" : Py.str).
      split; [now apply Ho | right; now left]. }
    intros H. injection H as <- <-. split; [reflexivity | discriminate].
  - intros a b rest -> Ha. split; intros Hb;
      destruct Ha as [-> | ->]; destruct Hb as [-> | ->]; reflexivity.
Qed.

Lemma start_connected (s s' : S) (x : Py.result unit) :
  start Proc popen running s = (s', x) ->
  connected Proc s' = connected Proc s.
Proof.
  unfold start. intros H.
  destruct (match process Proc s with
            | Some p => running p | None => false end).
  - now injection H as <- <-.
  - destruct (popen (trace_file Proc s)); now injection H as <- <-.
Qed.

(** X20.  The flag [connected] of the session follows [connect] and
    [disconnect] only: no command changes it.  A [connect] that returns
    True has set it; one that returns False has left it as it was, set or
    not.  [disconnect] on a session that is not connected sends nothing; on
    a connected session it clears the flag when the command went through,
    and leaves the session as it was when the process is not running. *)
Theorem connected_flag (s s' : S) :
  (forall command x,
     send Proc running exchange parse command s = (s', x) ->
     connected Proc s' = connected Proc s)
  /\ (forall host b,
        connect Proc popen running exchange parse host s = (s', Ok b) ->
        connected Proc s' = (b || connected Proc s)%bool)
  /\ (connected Proc s = false ->
      disconnect Proc running exchange parse s = (s, Ok tt))
  /\ (forall x, connected Proc s = true ->
        disconnect Proc running exchange parse s = (s', x) ->
        (x = Ok tt /\ connected Proc s' = false
         /\ exists s1, sent "Disconnect" s s1
                       /\ s' = set_connected Proc false s1)
        \/ (exists e, x = Raise e /\ s' = s)).
Proof.
  split; [|split; [|split]].
  - intros command x. apply send_connected.
  - intros host b. unfold connect.
    destruct (negb (Py.startswith "127.0.0.1:" host
                    || Py.startswith "localhost:" host)); [discriminate|].
    unfold Eff.mbind at 1. unfold Eff.gets at 1.
    unfold Eff.mbind at 1.
    destruct ((if match process Proc s with
                  | Some _ => false | None => true end
               then start Proc popen running else Eff.ret tt) s)
      as [s0 r0] eqn:E0.
    assert (H0 : connected Proc s0 = connected Proc s).
    { destruct (match process Proc s with
                | Some _ => false | None => true end).
      - now apply start_connected in E0.
      - now injection E0 as <- _. }
    destruct r0 as [[]|e]; [|discriminate].
    unfold Eff.mbind at 1.
    destruct (_send_command Proc running exchange parse
                ("Connect(" ++ host ++ ")") s0) as [s1 r1] eqn:E1.
    pose proof (send_connected _ _ _ _ E1) as H1.
    destruct r1 as [response|e]; [|discriminate].
    unfold Eff.mbind at 1. unfold Eff.gets at 1.
    destruct (last_status Proc s1) as [st|].
    + destruct (Py.str_eqb (connection_state st) "C").
      * unfold Eff.mbind at 1. unfold Eff.modify at 1.
        unfold Eff.mbind at 1.
        destruct (_send_command Proc running exchange parse
                    "Wait(InputField)" (set_connected Proc true s1))
          as [s2 r2] eqn:E2.
        pose proof (send_connected _ _ _ _ E2) as H2.
        destruct r2 as [response2|e]; [|discriminate].
        intros H. injection H as <- <-. exact H2.
      * intros H. injection H as <- <-. cbn [orb]. congruence.
    + intros H. injection H as <- <-. cbn [orb]. congruence.
  - intros Hc. unfold disconnect, Eff.mbind, Eff.gets. now rewrite Hc.
  - intros x Hc. unfold disconnect. unfold Eff.mbind at 1. unfold Eff.gets.
    rewrite Hc. unfold Eff.mbind.
    destruct (send Proc running exchange parse "Disconnect" s)
      as [s1 r1] eqn:E1.
    apply send_cases in E1 as [[e [-> ->]]|[response [-> Hs]]].
    + intros H. injection H as <- <-. right. now exists e.
    + unfold Eff.modify. intros H. injection H as <- <-. left.
      split; [reflexivity|]. split; [reflexivity|]. now exists s1.
Qed.

End Driver.

End SessionOpsFacts.

(** ** observability.py: the shape of a redacted dictionary *)

Module RedactFacts.
Import Observability ObservabilityFacts.

Lemma redact_item_sensitive (key : Py.str) (v : value) :
  mentions_secret key = true -> redact_item key v = VStr REDACTED.
Proof.
  unfold mentions_secret. intros H. destruct v; cbn [redact_item]; now rewrite H.
Qed.

Lemma redact_item_str (key s : Py.str) :
  mentions_secret key = false ->
  redact_item key (VStr s) = VStr s \/ redact_item key (VStr s) = VStr REDACTED.
Proof.
  unfold mentions_secret. intros H. cbn [redact_item]. rewrite H.
  destruct ((4 <? Z.of_nat (length s))
            && Py.any_in ["user" : Py.str; "id" : Py.str] (Py.lower key));
    [now left|].
  destruct (Py.any_in redact_keys (Py.lower s)); [now right | now left].
Qed.

Lemma redact_item_other (key : Py.str) (v : value) :
  mentions_secret key = false ->
  match v with VStr _ | VDict _ => False | _ => True end ->
  redact_item key v = v.
Proof.
  unfold mentions_secret. intros H Hv.
  destruct v; cbn [redact_item]; rewrite H; try reflexivity; destruct Hv.
Qed.

(** What one turn of the loop stores: the value, the placeholder, or the
    redacted dictionary. *)
Lemma redact_item_cases (key : Py.str) (v : value) :
  redact_item key v = v
  \/ redact_item key v = VStr REDACTED
  \/ exists d, v = VDict d /\ redact_item key v = VDict (_redact_params d).
Proof.
  destruct (mentions_secret key) eqn:Hk.
  - right. left. now apply redact_item_sensitive.
  - destruct v as [| b | n | s | l | d];
      try (left; now apply redact_item_other).
    + destruct (redact_item_str key s Hk) as [H|H]; [now left | right; now left].
    + right. right. exists d. split; [reflexivity|].
      now apply redact_item_dict.
Qed.

(** X21.  [_redact_params] keeps the keys of the dictionary and their
    order.  The value under a key is left as it is, replaced by the
    placeholder, or, for a dictionary, redacted in the same way.  A list is
    never looked into: under a key that is not sensitive it is logged as it
    is, whatever its elements hold; so are numbers, booleans and None. *)
Theorem redact_params_shape (params : dict) :
  map fst (_redact_params params) = map fst params
  /\ (forall k v, In (k, v) (_redact_params params) ->
        exists v0, In (k, v0) params
          /\ (v = v0 \/ v = VStr REDACTED
              \/ exists d, v0 = VDict d /\ v = VDict (_redact_params d)))
  /\ (forall k v, In (k, v) params -> mentions_secret k = false ->
        match v with VStr _ | VDict _ => False | _ => True end ->
        In (k, v) (_redact_params params)).
Proof.
  split; [|split].
  - induction params as [|[k v] params IH]; [reflexivity|].
    cbn [_redact_params map fst]. now rewrite IH.
  - induction params as [|[k0 v0] params IH]; intros k v; [intros []|].
    cbn [_redact_params]. intros [H|H].
    + injection H as <- <-. exists v0. split; [now left|].
      destruct (redact_item_cases k0 v0) as [E|[E|[d [-> E]]]]; rewrite E.
      * now left.
      * right. now left.
      * right. right. now exists d.
    + destruct (IH k v H) as [v1 [Hin Hv]]. exists v1. split; [now right|].
      exact Hv.
  - intros k v Hin Hk Hv. apply in_redact_params in Hin.
    now rewrite redact_item_other in Hin.
Qed.

Example redact_params_list_kept :
  _redact_params [("lines" : Py.str, VList [VStr "password: hunter2"])]
  = [("lines" : Py.str, VList [VStr "password: hunter2"])].
Proof. reflexivity. Qed.

Lemma redacted_not_secret : mentions_secret REDACTED = false.
Proof. reflexivity. Qed.

Lemma redact_item_idem : forall (v : value) (key : Py.str),
  redact_item key (redact_item key v) = redact_item key v.
Proof.
  fix IH 1. intros v key.
  destruct (mentions_secret key) eqn:Hk.
  - now rewrite !redact_item_sensitive.
  - destruct v as [| b | n | s | l | d];
      try match goal with
          | |- redact_item _ (redact_item _ ?x) = _ =>
              lazymatch x with
              | VStr _ => fail
              | VDict _ => fail
              | _ => now rewrite !(redact_item_other key x Hk I)
              end
          end.
    + pose proof Hk as Hk'. unfold mentions_secret in Hk'.
      cbn [redact_item]. rewrite Hk'.
      destruct ((4 <? Z.of_nat (length s))
                && Py.any_in ["user" : Py.str; "id" : Py.str] (Py.lower key))
        eqn:Eu.
      * cbn [redact_item]. now rewrite Hk', Eu.
      * destruct (Py.any_in redact_keys (Py.lower s)) eqn:Es.
        -- cbn [redact_item]. rewrite Hk'.
           change (Py.any_in redact_keys (Py.lower REDACTED)) with false.
           now destruct ((4 <? Z.of_nat (length REDACTED))
                         && Py.any_in ["user" : Py.str; "id" : Py.str]
                                      (Py.lower key)).
        -- cbn [redact_item]. now rewrite Hk', Eu, Es.
    + rewrite !redact_item_dict by exact Hk. f_equal.
      revert d. fix IHd 1. intros [|[k x] d]; [reflexivity|].
      cbn [_redact_params]. now rewrite (IH x k), (IHd d).
Qed.

(** X22.  Redacting is idempotent: a dictionary that went through
    [_redact_params] goes through it again unchanged, nested dictionaries
    included.  The placeholder itself holds no sensitive word. *)
Theorem redact_params_idempotent (params : dict) :
  _redact_params (_redact_params params) = _redact_params params.
Proof.
  induction params as [|[k v] params IH]; [reflexivity|].
  cbn [_redact_params]. now rewrite redact_item_idem, IH.
Qed.

End RedactFacts.

(** ** flow_runner.py: steps, waits and the outcome of a flow *)

Module FlowMoreFacts.
Import Fingerprint FlowRunner FlowFacts.

(** The parameters [execute_step] reads from what the step holds. *)
Definition params_of (v : StepValue) : Params :=
  match v with SDict d => d | _ => no_params end.


Section Steps.
Context {W : Type} (drv : Driver W).

(** X23.  [execute_step] on a step that is not empty never raises:
    whatever the body raises -- a missing parameter, a request that fails,
    a pattern that does not compile -- becomes one entry "ERROR: <message>"
    under the name of the step, and the answer False; what the body did
    before raising stays done.  Only the empty step raises, before the
    [try]. *)
Theorem execute_step_catches
        (step_type : Py.str) (v : StepValue) (rest : Step) (r : Runner W) :
  (exists r' b, execute_step drv ((step_type, v) :: rest) r = (r', Ok b))
  /\ (forall r1 e,
        dispatch drv step_type (params_of v) r = (r1, Raise e) ->
        execute_step drv ((step_type, v) :: rest) r
        = (logged (snd (now_iso drv (world r1))) step_type
                  ("ERROR: " ++ exn_msg e) false
                  (set_world (fst (now_iso drv (world r1))) r1),
           Ok false))
  /\ (forall r1 b,
        dispatch drv step_type (params_of v) r = (r1, Ok b) ->
        execute_step drv ((step_type, v) :: rest) r = (r1, Ok b))
  /\ execute_step drv [] r
     = (r, Raise (Exn IndexError "list index out of range")).
Proof.
  assert (Hh : forall r1 e,
             (log_transcript drv step_type ("ERROR: " ++ exn_msg e) false ;;;
              Eff.ret false) r1
             = (logged (snd (now_iso drv (world r1))) step_type
                       ("ERROR: " ++ exn_msg e) false
                       (set_world (fst (now_iso drv (world r1))) r1),
                Ok false)).
  { intros r1 e. unfold Eff.mbind, log_transcript, Eff.mbind, call, Eff.modify,
      Eff.ret. now destruct (now_iso drv (world r1)). }
  unfold execute_step, Eff.try_except. fold (params_of v).
  split; [|split; [|split]].
  - destruct (dispatch drv step_type (params_of v) r) as [r1 [b|e]].
    + now exists r1, b.
    + rewrite Hh. eexists. now exists false.
  - intros r1 e E. rewrite E. apply Hh.
  - intros r1 b E. now rewrite E.
  - reflexivity.
Qed.

Lemma log_transcript_eq (action result : Py.str) (secret : bool)
      (r : Runner W) :
  log_transcript drv action result secret r
  = (logged (snd (now_iso drv (world r))) action result secret
            (set_world (fst (now_iso drv (world r))) r),
     Ok tt).
Proof.
  unfold log_transcript, Eff.mbind, call, Eff.modify.
  now destruct (now_iso drv (world r)).
Qed.

Lemma log_then {A : Type} (action result : Py.str) (secret : bool)
      (k : Eff.M (Runner W) A) (r : Runner W) :
  (log_transcript drv action result secret ;;; k) r
  = k (logged (snd (now_iso drv (world r))) action result secret
              (set_world (fst (now_iso drv (world r))) r)).
Proof. unfold Eff.mbind. now rewrite log_transcript_eq. Qed.

Lemma stdout_logged (ts action result : Py.str) (secret : bool)
      (r : Runner W) :
  stdout (logged ts action result secret r)
  = stdout r
    ++ (if trace r
        then ["[" ++ ts ++ "] " ++ action ++ ": "
              ++ (if secret && negb (Py.blank_str result)
                  then "***REDACTED***" : Py.str else result)]
        else []).
Proof.
  unfold logged. cbn [trace add_entry].
  destruct (trace r); cbn [stdout print add_entry]; [reflexivity|].
  now rewrite app_nil_r.
Qed.

Lemma after_call_result {A : Type} (f : W -> W * Py.result A)
      (k : A -> Eff.M (Runner W) bool) (r : Runner W) :
  (forall a r1, fst (k a r1) = r1) ->
  exists w, fst ((x <~ call_result f ;; k x) r) = set_world w r.
Proof.
  intros Hk. unfold Eff.mbind, call_result.
  destruct (f (world r)) as [w [a|e]]; exists w; [apply Hk | reflexivity].
Qed.

(** X24.  A fill marked as secret leaves the same transcript and the same
    output whatever the value: the one entry it adds, and the line it
    prints when tracing, show the placeholder in place of the value.  This
    holds for [fill_at] and for [fill_by_label]. *)
Theorem fill_secret_masked
        (row col : Z) (label : Py.str) (offset : Z) (value : Py.str)
        (r : Runner W) :
  let ts := snd (now_iso drv (world r)) in
  let at_action : Py.str :=
    "fill_at: (" ++ Py.str_of_int row ++ "," ++ Py.str_of_int col
    ++ ") = ***REDACTED***" in
  let label_action : Py.str :=
    "fill_by_label: " ++ label ++ "+" ++ Py.str_of_int offset
    ++ " = ***REDACTED***" in
  let after_at := fst (fill_at drv row col value true r) in
  let after_label := fst (fill_by_label drv label offset value true r) in
  transcript after_at
  = transcript r ++ [mkEntry ts at_action "" (short_digest (current_digest r))]
  /\ stdout after_at
     = stdout r ++ (if trace r
                    then ["[" ++ ts ++ "] " ++ at_action ++ ": "]
                    else [])
  /\ transcript after_label
     = transcript r
       ++ [mkEntry ts label_action "" (short_digest (current_digest r))]
  /\ stdout after_label
     = stdout r ++ (if trace r
                    then ["[" ++ ts ++ "] " ++ label_action ++ ": "]
                    else []).
Proof.
  cbv zeta.
  unfold fill_at, fill_by_label.
  rewrite !log_then.
  destruct (after_call_result (api_fill drv row col value)
              (fun status_code => Eff.ret (status_code =? 200))
              (logged (snd (now_iso drv (world r)))
                 ("fill_at: (" ++ Py.str_of_int row ++ ","
                  ++ Py.str_of_int col ++ ") = " ++ "***REDACTED***") "" true
                 (set_world (fst (now_iso drv (world r))) r))
              ltac:(reflexivity)) as [w1 ->].
  destruct (after_call_result (api_fill_by_label drv label offset value)
              (fun status_code => Eff.ret (status_code =? 200))
              (logged (snd (now_iso drv (world r)))
                 ("fill_by_label: " ++ label ++ "+" ++ Py.str_of_int offset
                  ++ " = " ++ "***REDACTED***") "" true
                 (set_world (fst (now_iso drv (world r))) r))
              ltac:(reflexivity)) as [w2 ->].
  cbn [transcript stdout set_world].
  rewrite !transcript_logged, !stdout_logged.
  cbn [andb negb Py.blank_str trace set_world current_digest transcript stdout].
  rewrite <- !app_assoc.
  repeat split; reflexivity.
Qed.

(** *** The two waits *)




End Steps.

(** *** The outcome of a flow, read off the transcript *)

(** The name [execute_flow] logs. *)
Definition flow_name (flow : Flow) : Py.str :=
  match flow with mkFlow name _ _ _ => get_default name "unnamed" end.

Definition started_entry (name : Py.str) (e : Entry) : Prop :=
  e_action e = "Starting flow: " ++ name /\ e_result e = "".

Definition completed_entry (name : Py.str) (e : Entry) : Prop :=
  e_action e = "Flow completed: " ++ name /\ e_result e = "".

Definition failed_entry (e : Entry) : Prop :=
  exists i, 1 <= i
    /\ e_action e = "Flow failed at step " ++ Py.str_of_int i
    /\ e_result e = "".

Section Outcome.
Context {W : Type} (drv : Driver W).

#[local] Hint Resolve keeps_get_screen keeps_save_failure_screen
  keeps_wait_ready keeps_wait_change keeps_item keeps_fill_value : transcript.

(** The transcript grew, and its last entry satisfies [p]. *)
Definition ends_with (p : Entry -> Prop) (r r' : Runner W) : Prop :=
  exists es e, transcript r' = transcript r ++ es ++ [e] /\ p e.

Lemma ends_with_after (p : Entry -> Prop) (r r1 r' : Runner W) :
  (exists es, transcript r1 = transcript r ++ es) ->
  ends_with p r1 r' -> ends_with p r r'.
Proof.
  intros [es1 H1] [es [e [H He]]]. exists (es1 ++ es), e.
  split; [|exact He]. now rewrite H, H1, <- !app_assoc.
Qed.

Lemma ends_with_log (p : Entry -> Prop) (action : Py.str) (b : bool)
      (r r' : Runner W) :
  (forall ts d, p (mkEntry ts action "" d)) ->
  (log_transcript drv action "" false ;;; Eff.ret b) r = (r', Ok b) ->
  ends_with p r r'.
Proof.
  intros Hp. rewrite log_then. unfold Eff.ret. intros H. injection H as <-.
  exists [], (mkEntry (snd (now_iso drv (world r))) action ""
                      (short_digest (current_digest r))).
  split; [|apply Hp]. now rewrite transcript_logged.
Qed.

Lemma keeps_run_actions (actions : list Step) : keeps (run_actions drv actions).
Proof.
  induction actions as [|a actions IH]; cbn [run_actions]; [keeps_tac|].
  apply keeps_bind; [apply adds_keeps, adds_execute_step|].
  intros [|]; [exact IH | keeps_tac].
Qed.

Lemma keeps_scan_rules (text : Py.str) (rules : list RecoveryRule) :
  keeps (scan_rules drv text rules).
Proof.
  induction rules as [|rule rules IH]; cbn [scan_rules]; [keeps_tac|].
  destruct (when_ascii_contains rule) as [t|]; [|exact IH].
  destruct (Py.contains t text); [|exact IH].
  apply keeps_bind; [keeps_tac | intro; apply keeps_run_actions].
Qed.

Lemma keeps_handle_recovery (rules : list RecoveryRule) :
  keeps (handle_recovery drv rules).
Proof.
  unfold handle_recovery.
  apply keeps_bind; [apply keeps_get_screen | intro; apply keeps_scan_rules].
Qed.

Lemma keeps_run_steps (recovery : option (list RecoveryRule)) (i : nat)
      (steps : list Step) :
  keeps (run_steps drv recovery i steps).
Proof.
  revert i. induction steps as [|step steps IH]; intros i; cbn [run_steps];
    [keeps_tac|].
  apply keeps_bind; [apply adds_keeps, adds_execute_step|].
  intros [|]; [apply IH|].
  apply keeps_bind.
  - destruct recovery; [apply keeps_handle_recovery | keeps_tac].
  - intros [|]; [apply IH | keeps_tac].
Qed.

Lemma run_steps_false (recovery : option (list RecoveryRule)) (i : nat)
      (steps : list Step) (r r' : Runner W) :
  run_steps drv recovery i steps r = (r', Ok false) ->
  ends_with failed_entry r r'.
Proof.
  revert i r. induction steps as [|step steps IH]; intros i r;
    cbn [run_steps]; [discriminate|].
  unfold Eff.mbind at 1.
  destruct (execute_step drv step r) as [r1 [ok|e]] eqn:E1; [|discriminate].
  pose proof (adds_keeps _ (adds_execute_step drv step) _ _ _ E1) as K1.
  destruct ok.
  { intros H. apply (ends_with_after _ r r1 r' K1). now apply IH in H. }
  unfold Eff.mbind at 1.
  destruct (match recovery with
            | Some rules => handle_recovery drv rules
            | None => Eff.ret false
            end r1) as [r2 [recovered|e]] eqn:E2; [|discriminate].
  assert (K2 : exists es, transcript r2 = transcript r1 ++ es).
  { destruct recovery as [rules|].
    - apply (keeps_handle_recovery rules _ _ _ E2).
    - injection E2 as <- _. exists []. now rewrite app_nil_r. }
  destruct recovered.
  { intros H. apply (ends_with_after _ r r1 r' K1).
    apply (ends_with_after _ r1 r2 r' K2). now apply IH in H. }
  intros H. apply (ends_with_after _ r r1 r' K1).
  apply (ends_with_after _ r1 r2 r' K2).
  apply (ends_with_log failed_entry _ false) in H; [exact H|].
  intros ts d. exists (Z.of_nat i + 1). cbn [e_action e_result].
  split; [lia|]. now split.
Qed.

(** The loop over the imports of [execute_flow]. *)
Fixpoint run_imports (l : list (Py.str * option Flow))
  : Eff.M (Runner W) bool :=
  match l with
  | [] => Eff.ret true
  | (import_file, Some imported) :: l' =>
      log_transcript drv ("Importing: " ++ import_file) "" false ;;;
      ok <~ execute_flow drv imported ;;
      if ok then run_imports l' else Eff.ret false
  | (_, None) :: l' => run_imports l'
  end.

Lemma execute_flow_eq (name : option Py.str)
      (imports : option (list (Py.str * option Flow)))
      (steps : option (list Step)) (recovery : option (list RecoveryRule)) :
  execute_flow drv (mkFlow name imports steps recovery)
  = (log_transcript drv ("Starting flow: " ++ get_default name "unnamed")
                    "" false ;;;
     imported_ok <~ match imports with
                    | Some l => run_imports l
                    | None => Eff.ret true
                    end ;;
     if negb imported_ok then Eff.ret false
     else
       ok <~ run_steps drv recovery 0 (get_default steps []) ;;
       if ok then
         log_transcript drv ("Flow completed: " ++ get_default name "unnamed")
                        "" false ;;;
         Eff.ret true
       else Eff.ret false).
Proof. destruct imports; reflexivity. Qed.

(** What holds of a flow and of the flows it imports. *)
Definition outcome (flow : Flow) : Prop :=
  keeps (execute_flow drv flow)
  /\ (forall r r' x, execute_flow drv flow r = (r', x) ->
        exists e es, transcript r' = transcript r ++ e :: es
                     /\ started_entry (flow_name flow) e)
  /\ (forall r r' b, execute_flow drv flow r = (r', Ok b) ->
        if b then ends_with (completed_entry (flow_name flow)) r r'
        else ends_with failed_entry r r').

Lemma run_imports_outcome (l : list (Py.str * option Flow)) :
  Forall (fun i => match snd i with Some f => outcome f | None => True end) l ->
  keeps (run_imports l)
  /\ forall r r', run_imports l r = (r', Ok false) ->
                  ends_with failed_entry r r'.
Proof.
  induction 1 as [|[file [f|]] l Hf _ [IHk IHf]]; cbn [run_imports].
  - split; [keeps_tac | discriminate].
  - cbn [snd] in Hf. destruct Hf as [Kf [_ Of]].
    split.
    + apply keeps_bind; [keeps_tac | intro].
      apply keeps_bind; [exact Kf | intros [|]]; [exact IHk | keeps_tac].
    + intros r r'. rewrite log_then.
      set (r0 := logged _ _ _ _ _).
      assert (K0 : exists es, transcript r0 = transcript r ++ es).
      { unfold r0. rewrite transcript_logged. now eexists. }
      unfold Eff.mbind.
      destruct (execute_flow drv f r0) as [r1 [ok|e]] eqn:E1; [|discriminate].
      destruct ok.
      * intros H. apply (ends_with_after _ r r0 r' K0).
        apply (ends_with_after _ r0 r1 r' (Kf _ _ _ E1)). now apply IHf.
      * intros H. injection H as <-.
        apply (ends_with_after _ r r0 r1 K0). apply (Of _ _ _ E1).
  - split; [exact IHk | exact IHf].
Qed.

Lemma flow_outcome : forall flow, outcome flow.
Proof.
  fix IH 1. intros [name imports steps recovery].
  assert (Himp : match imports with
                 | Some l =>
                     Forall (fun i => match snd i with
                                      | Some f => outcome f
                                      | None => True
                                      end) l
                 | None => True
                 end).
  { destruct imports as [l|]; [|exact I]. revert l. fix IHl 1.
    intros [|[file [f|]] l]; constructor; cbn [snd];
      try exact I; try apply IH; apply IHl. }
  assert (Hk : keeps (match imports with
                      | Some l => run_imports l
                      | None => Eff.ret true
                      end)).
  { destruct imports as [l|]; [|keeps_tac].
    now apply run_imports_outcome. }
  assert (Krest :
    keeps (imported_ok <~ match imports with
                          | Some l => run_imports l
                          | None => Eff.ret true
                          end ;;
           if negb imported_ok then Eff.ret false
           else
             ok <~ run_steps drv recovery 0 (get_default steps []) ;;
             if ok then
               log_transcript drv
                 ("Flow completed: " ++ get_default name "unnamed") "" false ;;;
               Eff.ret true
             else Eff.ret false)).
  { apply keeps_bind; [exact Hk | intros [|]]; cbn [negb]; [|keeps_tac].
    apply keeps_bind; [apply keeps_run_steps | intros [|]]; keeps_tac. }
  split; [|split].
  - rewrite execute_flow_eq.
    apply keeps_bind; [keeps_tac | intro; exact Krest].
  - intros r r' x. rewrite execute_flow_eq, log_then. intros H.
    destruct (Krest _ _ _ H) as [es E]. rewrite transcript_logged in E.
    eexists. exists es. split.
    + rewrite E, <- app_assoc. reflexivity.
    + cbn [flow_name]. now split.
  - intros r r' b. rewrite execute_flow_eq, log_then.
    set (r0 := logged _ _ _ _ _).
    assert (K0 : exists es, transcript r0 = transcript r ++ es).
    { unfold r0. rewrite transcript_logged. now eexists. }
    unfold Eff.mbind at 1.
    destruct (match imports with
              | Some l => run_imports l
              | None => Eff.ret true
              end r0) as [r1 [imported_ok|e]] eqn:E1; [|discriminate].
    pose proof (Hk _ _ _ E1) as K1.
    destruct imported_ok; cbn [negb].
    + unfold Eff.mbind at 1.
      destruct (run_steps drv recovery 0 (get_default steps []) r1)
        as [r2 [ok|e]] eqn:E2; [|discriminate].
      pose proof (keeps_run_steps _ _ _ _ _ _ E2) as K2.
      destruct ok.
      * intros H. assert (b = true) as ->.
        { rewrite log_then in H. now injection H as _ <-. }
        apply (ends_with_after _ r r0 r' K0).
        apply (ends_with_after _ r0 r1 r' K1).
        apply (ends_with_after _ r1 r2 r' K2).
        apply (ends_with_log (completed_entry (get_default name "unnamed"))
                             _ true) in H; [exact H|].
        intros ts d. now split.
      * intros H. injection H as <- <-.
        apply (ends_with_after _ r r0 r2 K0).
        apply (ends_with_after _ r0 r1 r2 K1).
        now apply run_steps_false in E2.
    + intros H. injection H as <- <-.
      apply (ends_with_after _ r r0 r1 K0).
      destruct imports as [l|]; [|discriminate].
      now apply (run_imports_outcome l Himp).
Qed.

(** X26.  The transcript of a flow is only added to, and tells the
    outcome: the first entry added is "Starting flow: <name>"; when
    [execute_flow] returns True the last entry is "Flow completed: <name>",
    and when it returns False the last entry is "Flow failed at step <i>",
    with [i] at least 1, be it of the flow or of a flow it imports. *)
Theorem execute_flow_outcome (flow : Flow) (r r' : Runner W) (b : bool) :
  execute_flow drv flow r = (r', Ok b) ->
  (exists e es, transcript r' = transcript r ++ e :: es
                /\ started_entry (flow_name flow) e)
  /\ (if b then ends_with (completed_entry (flow_name flow)) r r'
      else ends_with failed_entry r r').
Proof.
  intros H. destruct (flow_outcome flow) as [_ [Hs Ho]].
  split; [now apply (Hs r r' (Ok b)) | now apply Ho].
Qed.

(** *** Recovery that does not apply *)

Lemma scan_rules_none (text : Py.str) (rules : list RecoveryRule) :
  Forall (fun rule => triggered text rule = false) rules ->
  scan_rules drv text rules = Eff.ret false.
Proof.
  induction 1 as [|rule rules Hr _ IH]; cbn [scan_rules]; [reflexivity|].
  unfold triggered in Hr.
  destruct (when_ascii_contains rule) as [t|]; [|exact IH].
  now rewrite Hr.
Qed.

(** X27.  A rule without [when_ascii_contains] is never triggered, and a
    rule whose text is empty is triggered by every screen.  When no rule is
    triggered, [handle_recovery] reads the screen, logs nothing and
    answers False.  When the screen cannot be read, [handle_recovery]
    raises, and so does the loop of [execute_flow] on the step that failed:
    no "Flow failed" entry is written then. *)
Theorem handle_recovery_edges (rules : list RecoveryRule) (r : Runner W) :
  (forall text rule,
     (when_ascii_contains rule = None -> triggered text rule = false)
     /\ (when_ascii_contains rule = Some [] -> triggered text rule = true))
  /\ (forall w snap,
        api_screen drv (world r) = (w, Ok snap) ->
        Forall (fun rule => triggered (ascii_of snap) rule = false) rules ->
        handle_recovery drv rules r
        = (set_current_digest (snap_digest snap) (set_world w r), Ok false))
  /\ (forall w e,
        api_screen drv (world r) = (w, Raise e) ->
        handle_recovery drv rules r = (set_world w r, Raise e)
        /\ forall step rest i r0,
             execute_step drv step r0 = (r, Ok false) ->
             run_steps drv (Some rules) i (step :: rest) r0
             = (set_world w r, Raise e)).
Proof.
  split; [|split].
  - intros text rule. unfold triggered. split; intros ->; [reflexivity|].
    now destruct text.
  - intros w snap Ea Hn. unfold handle_recovery, Eff.mbind at 1.
    rewrite (get_screen_of_api drv r w snap Ea).
    now rewrite scan_rules_none.
  - intros w e Ea.
    assert (E : handle_recovery drv rules r = (set_world w r, Raise e)).
    { unfold handle_recovery, Eff.mbind at 1. unfold get_screen.
      unfold Eff.mbind at 1. unfold call_result. now rewrite Ea. }
    split; [exact E|].
    intros step rest i r0 Es.
    rewrite (run_steps_failed drv (Some rules) i step rest r0 r Es).
    unfold Eff.mbind. now rewrite E.
Qed.

End Outcome.

Lemma execute_flow_outcome_witness :
  (exists e es,
     transcript (fst (execute_flow (fixed_driver "READY")
                        (mkFlow (Some ("logon" : Py.str)) None
                                (Some [press_enter]) None)
                        (fresh [])))
     = transcript (fresh []) ++ e :: es
     /\ started_entry "logon" e)
  /\ ends_with (completed_entry "logon") (fresh [])
       (fst (execute_flow (fixed_driver "READY")
               (mkFlow (Some ("logon" : Py.str)) None
                       (Some [press_enter]) None)
               (fresh []))).
Proof.
  apply (execute_flow_outcome (fixed_driver "READY")
           (mkFlow (Some ("logon" : Py.str)) None (Some [press_enter]) None)
           (fresh [])
           (fst (execute_flow (fixed_driver "READY")
                   (mkFlow (Some ("logon" : Py.str)) None
                           (Some [press_enter]) None)
                   (fresh [])))
           true).
  vm_compute. reflexivity.
Defined.

End FlowMoreFacts.

(** ** flow_runner.py: running a flow file *)

Module FlowRunFacts.
Import Fingerprint FlowRunner FlowFacts FlowRun.

Section Run.
Context {W : Type} (br : Bridge W).

Let drv : Driver W := driver br.

(** What [run] has saved when the [try] is left: nothing or one
    transcript, named after the outcome, that holds the entries logged
    until then. *)
Definition saved (flow_name : Py.str) (b : bool) (files : list (Py.str * Py.str))
           (s1 : Run W) : Prop :=
  (b = true
   /\ exists w, log_files s1
                = files ++ [(flow_name ++ "_" ++ snd (now_stamp drv w)
                             ++ ".log",
                             render (transcript (runner s1)))])
  \/ (b = false
      /\ (log_files s1 = files
          \/ exists w, log_files s1
                       = files ++ [(flow_name ++ "_" ++ snd (now_stamp drv w)
                                    ++ "_fail.log",
                                    render (transcript (runner s1)))])).

Lemma save_transcript_eq (flow_name : Py.str) (success : bool) (s : Run W) :
  save_transcript br flow_name success s
  = (mkRun (set_world (fst (now_stamp drv (world (runner s)))) (runner s))
           (log_files s
            ++ [(flow_name ++ "_" ++ snd (now_stamp drv (world (runner s)))
                 ++ (if success then "" else "_fail") ++ ".log",
                 render (transcript (runner s)))]),
     Ok (logs_dir br ++ "/" ++ flow_name ++ "_"
         ++ snd (now_stamp drv (world (runner s)))
         ++ (if success then "" else "_fail") ++ ".log")).
Proof.
  unfold save_transcript, Eff.mbind, lift, call, Eff.modify, Eff.ret.
  fold drv. destruct (now_stamp drv (world (runner s))) as [w ts].
  reflexivity.
Qed.

(** A method that logs nothing. *)
Definition quiet {A : Type} (c : Eff.M (Runner W) A) : Prop :=
  forall r r' x, c r = (r', x) -> transcript r' = transcript r.

Lemma quiet_bind {A B : Type} (c : Eff.M (Runner W) A)
      (k : A -> Eff.M (Runner W) B) :
  quiet c -> (forall a, quiet (k a)) -> quiet (Eff.mbind c k).
Proof.
  intros Hc Hk r r' x. unfold Eff.mbind.
  destruct (c r) as [r1 [a|e]] eqn:Ec.
  - intros H. rewrite (Hk a _ _ _ H). apply (Hc _ _ _ Ec).
  - intros H. injection H as <- _. apply (Hc _ _ _ Ec).
Qed.

Lemma quiet_modify (f : Runner W -> Runner W) :
  (forall r, transcript (f r) = transcript r) -> quiet (Eff.modify f).
Proof. intros Hf r r' x H. injection H as <- _. apply Hf. Qed.

Lemma quiet_gets {A : Type} (f : Runner W -> A) : quiet (Eff.gets f).
Proof. intros r r' x H. now injection H as <- _. Qed.

Lemma quiet_call {A : Type} (f : W -> W * A) : quiet (call f).
Proof.
  intros r r' x. unfold call. destruct (f (world r)).
  intros H. now injection H as <- _.
Qed.

Lemma quiet_call_result {A : Type} (f : W -> W * Py.result A) :
  quiet (call_result f).
Proof.
  intros r r' x. unfold call_result. destruct (f (world r)).
  intros H. now injection H as <- _.
Qed.

Lemma quiet_failure_screen (flow_name : Py.str) :
  quiet (snapshot <~ get_screen drv ;;
         save_failure_screen drv flow_name (ascii_of snapshot) ;;;
         fail_file <~ Eff.gets (fun r => fst (last (failure_files r)
                                                   ([], []))) ;;
         Eff.modify (print ("Failure screen saved to: "
                            ++ logs_dir br ++ "/" ++ fail_file))).
Proof.
  apply quiet_bind; [|intro snapshot; apply quiet_bind; [|intros _]].
  - unfold get_screen. apply quiet_bind; [apply quiet_call_result | intro].
    apply quiet_bind; [now apply quiet_modify | intro].
    intros r r' x H. now injection H as <- _.
  - unfold save_failure_screen.
    apply quiet_bind; [apply quiet_call | intro].
    now apply quiet_modify.
  - apply quiet_bind; [apply quiet_gets | intro]. now apply quiet_modify.
Qed.

Lemma handler_saved (flow_name : Py.str) (e : Py.exn) (s : Run W) :
  exists s1,
    run_handler br flow_name e s = (s1, Ok false)
    /\ saved flow_name false (log_files s) s1.
Proof.
  unfold run_handler. fold drv.
  unfold Eff.mbind at 1. unfold lift at 1.
  rewrite FlowMoreFacts.log_transcript_eq.
  set (r1 := logged _ _ _ _ _).
  unfold Eff.mbind at 1. rewrite save_transcript_eq. cbn [runner log_files].
  set (ts := snd (now_stamp drv (world r1))).
  set (r2 := set_world _ r1).
  unfold Eff.mbind at 1. unfold lift at 1, Eff.modify at 1. cbn [runner log_files].
  unfold Eff.mbind at 1. unfold Eff.try_except, lift. cbn [runner log_files].
  set (r3 := print _ r2).
  destruct ((snapshot <~ get_screen drv ;;
             save_failure_screen drv flow_name (ascii_of snapshot) ;;;
             fail_file <~ Eff.gets (fun r => fst (last (failure_files r)
                                                       ([], []))) ;;
             Eff.modify (print ("Failure screen saved to: "
                                ++ logs_dir br ++ "/" ++ fail_file))) r3)
    as [r4 [[]|e4]] eqn:E4;
    pose proof (quiet_failure_screen flow_name _ _ _ E4) as Ht;
    (eexists; split; [reflexivity|]);
    right; (split; [reflexivity|]); right; exists (world r1);
    cbn [log_files runner]; rewrite Ht; reflexivity.
Qed.

Lemma try_saved (flow : Flow) (flow_name : Py.str) (s : Run W) :
  exists s1 b,
    Eff.try_except (run_body br flow flow_name) (run_handler br flow_name) s
    = (s1, Ok b)
    /\ saved flow_name b (log_files s) s1.
Proof.
  unfold Eff.try_except, run_body. fold drv.
  unfold Eff.mbind at 1. unfold lift at 1. unfold connect. fold drv.
  unfold Eff.mbind at 1. unfold call_result at 1.
  destruct (api_connect br (world (runner s))) as [w [code|e]].
  - destruct (code =? 200); cbn [negb].
    + rewrite FlowMoreFacts.log_then. unfold Eff.ret at 1. cbn [negb].
      set (r1 := logged _ _ _ _ _).
      unfold Eff.mbind at 1. unfold lift at 1. cbn [runner log_files].
      destruct (execute_flow drv flow r1) as [r2 [success|e]].
      * unfold Eff.mbind at 1. rewrite save_transcript_eq.
        cbn [runner log_files].
        unfold Eff.mbind, lift, Eff.modify, Eff.ret. cbn [runner log_files].
        eexists. exists success. split; [reflexivity|].
        destruct success; [left | right]; (split; [reflexivity|]);
          [|right]; eexists; cbn [log_files runner]; reflexivity.
      * destruct (handler_saved flow_name e (mkRun r2 (log_files s)))
          as [s1 [E Hs]].
        exists s1, false. split; [exact E | exact Hs].
    + unfold Eff.ret at 1. cbn [negb].
      unfold Eff.mbind, lift, Eff.modify, Eff.ret. cbn [runner log_files].
      eexists. exists false. split; [reflexivity|].
      right. split; [reflexivity|]. now left.
  - destruct (handler_saved flow_name e
                (mkRun (set_world w (runner s)) (log_files s)))
      as [s1 [E Hs]].
    exists s1, false. split; [exact E | exact Hs].
Qed.

(** X28.  [run] on a flow file that loads ends with the request to
    disconnect, whatever happened before, and raises only what that request
    raises.  When it returns, the last transcript entry is "Disconnected";
    True means that one transcript "<name>_<time>.log" was saved, False
    that none was saved (the bridge refused the connection) or one
    "<name>_<time>_fail.log", <time> being a reading of the clock; the saved
    text is the transcript without that last entry. *)
Theorem run_outcome
        (flow : Flow) (flow_name : Py.str) (env : list (Py.str * Py.str))
        (save_goldens assert_goldens : bool) (s s' : Run W)
        (x : Py.result bool) :
  run br (Ok flow) flow_name env save_goldens assert_goldens s = (s', x) ->
  ((exists b, x = Ok b)
   \/ (exists w e, snd (api_disconnect br w) = Raise e /\ x = Raise e))
  /\ (forall b, x = Ok b ->
        exists entries e,
          transcript (runner s') = entries ++ [e]
          /\ e_action e = "Disconnected"
          /\ ((b = true
               /\ exists w, log_files s'
                            = log_files s
                              ++ [(flow_name ++ "_"
                                   ++ snd (now_stamp (driver br) w) ++ ".log",
                                   render entries)])
              \/ (b = false
                  /\ (log_files s' = log_files s
                      \/ exists w, log_files s'
                                   = log_files s
                                     ++ [(flow_name ++ "_"
                                          ++ snd (now_stamp (driver br) w)
                                          ++ "_fail.log",
                                          render entries)])))).
Proof.
  unfold run. unfold Eff.mbind at 1. unfold lift at 1, Eff.modify at 1.
  set (s0 := mkRun _ (log_files s)).
  unfold finally.
  destruct (try_saved flow flow_name s0) as [s1 [b1 [E1 Hs]]].
  rewrite E1. unfold lift, disconnect. fold drv.
  unfold Eff.mbind at 1. unfold call_result.
  destruct (api_disconnect br (world (runner s1))) as [w [[]|e]] eqn:Ed.
  - rewrite FlowMoreFacts.log_transcript_eq.
    intros H. injection H as <- <-. split; [left; now exists b1|].
    intros b Hb. injection Hb as <-.
    eexists. eexists. cbn [runner]. rewrite transcript_logged.
    cbn [transcript set_world]. split; [reflexivity|].
    split; [reflexivity|]. cbn [log_files]. exact Hs.
  - intros H. injection H as <- <-. split.
    + right. exists (world (runner s1)), e. now rewrite Ed.
    + discriminate.
Qed.

End Run.

(** A bridge that accepts every request. *)
Definition fixed_bridge (text : Py.str) : Bridge unit :=
  mkBridge unit (fixed_driver text)
           (fun w => (w, Ok 200)) (fun w => (w, Ok tt))
           "/home/herc/herc/logs/flows".

Lemma run_outcome_witness :
  snd (run (fixed_bridge "READY")
           (Ok (mkFlow (Some ("logon" : Py.str)) None (Some [press_enter]) None))
           "logon" [] false false (mkRun (fresh []) []))
  = Ok true
  /\ map fst (log_files
                (fst (run (fixed_bridge "READY")
                          (Ok (mkFlow (Some ("logon" : Py.str)) None
                                      (Some [press_enter]) None))
                          "logon" [] false false (mkRun (fresh []) []))))
     = ["logon_20240101_000000.log" : Py.str].
Proof.
  destruct (run_outcome (fixed_bridge "READY")
              (mkFlow (Some ("logon" : Py.str)) None (Some [press_enter]) None)
              "logon" [] false false (mkRun (fresh []) [])
              (fst (run (fixed_bridge "READY")
                        (Ok (mkFlow (Some ("logon" : Py.str)) None
                                    (Some [press_enter]) None))
                        "logon" [] false false (mkRun (fresh []) [])))
              (Ok true)) as [_ _].
  - vm_compute. reflexivity.
  - split; vm_compute; reflexivity.
Defined.

End FlowRunFacts.

(** ** session.py: the status line *)

Module StatusParseFacts.
Import Session StatusParse.

Lemma split_ws_from_lstrip (s : Py.str) :
  split_ws_from [] (Py.lstrip s) = split_ws_from [] s.
Proof.
  unfold Py.lstrip. induction s as [|c s IH]; [reflexivity|].
  cbn [Py.dropwhile split_ws_from]. destruct (Py.isspace c) eqn:Ec.
  - exact IH.
  - cbn [split_ws_from]. now rewrite Ec.
Qed.

Lemma split_ws_from_snoc (cur s : Py.str) (c : ascii) :
  Py.isspace c = true ->
  split_ws_from cur (s ++ [c]) = split_ws_from cur s.
Proof.
  intros Hc. revert cur. induction s as [|a s IH]; intros cur.
  - cbn [app split_ws_from]. rewrite Hc. now destruct cur.
  - cbn [app split_ws_from]. destruct (Py.isspace a).
    + destruct cur; now rewrite IH.
    + apply IH.
Qed.

Lemma split_ws_from_rstrip (cur s : Py.str) :
  split_ws_from cur (Py.rstrip s) = split_ws_from cur s.
Proof.
  unfold Py.rstrip. induction s as [|c s IH] using rev_ind; [reflexivity|].
  rewrite NormalizeFacts.rdropwhile_snoc.
  destruct (Py.isspace c) eqn:Ec; [|reflexivity].
  now rewrite IH, split_ws_from_snoc.
Qed.

Lemma split_ws_strip (line : Py.str) :
  split_ws (Py.strip line) = split_ws line.
Proof.
  unfold split_ws, Py.strip.
  now rewrite split_ws_from_rstrip, split_ws_from_lstrip.
Qed.

Lemma second_or_single (default : Z) (word : Py.str) :
  ~ In ","%char word -> second_or default (Py.split "," word) = Some default.
Proof.
  intros H. now rewrite PyFacts.split_no_sep_id.
Qed.

Lemma connection_word_C (word : Py.str) :
  connection_word word = "C"
  <-> word = "C"
      \/ exists rest, word = "C"%char :: rest /\ In "("%char rest.
Proof.
  unfold connection_word.
  destruct (existsb (Ascii.eqb "(") word) eqn:Ep.
  - apply existsb_exists in Ep as [c [Hin Hc]].
    apply Ascii.eqb_eq in Hc. subst c.
    destruct word as [|a rest]; [destruct Hin|]. cbn [firstn].
    split.
    + intros H. injection H as ->. right. exists rest. split; [reflexivity|].
      destruct Hin as [H|H]; [discriminate H | exact H].
    + intros [H|[rest' [H _]]].
      * injection H as -> ->. destruct Hin as [H|[]]. discriminate H.
      * now injection H as -> _.
  - split; [now left|]. intros [H|[rest [-> Hin]]]; [exact H|].
    exfalso.
    assert (Ht : existsb (Ascii.eqb "(") ("C"%char :: rest) = true).
    { apply existsb_exists. exists "("%char. split; [now right|].
      apply Ascii.eqb_refl. }
    congruence.
Qed.

Section Parse.
Variable float_ok : Py.str -> bool.

(** X29.  [StatusLine.parse] raises exactly when the line has fewer than
    eleven words or its eleventh word is no float; on a line that
    [_send_command] takes for a status line, only the latter can happen.
    Rows, columns and cursor are the four numbers read from the 7th and the
    9th word when all four conversions succeed, and 24, 80, 0, 0 together
    as soon as one of them fails.  Without a comma in the 7th word the
    columns are 80, and without one in the 9th the cursor column is 0.  The
    connection state is "C" exactly for a 4th word "C" or one that starts
    with C and holds a bracket. *)
Theorem parse_status (line : Py.str) :
  let parts := split_ws (Py.strip line) in
  (parse float_ok line = None
   <-> (length parts < 11)%nat \/ float_ok (nth 10 parts []) = false)
  /\ (looks_like_status line = true ->
      (parse float_ok line = None
       <-> float_ok (nth 10 (split_ws line) []) = false))
  /\ (forall st, parse float_ok line = Some st ->
      (rows st, cols st, cursor_row st, cursor_col st)
      = match dimensions parts with
        | Some d => d
        | None => (24, 80, 0, 0)
        end
      /\ (dimensions parts = None
          <-> int_or 24 (nth 0 (Py.split "," (nth 6 parts [])) []) = None
              \/ second_or 80 (Py.split "," (nth 6 parts [])) = None
              \/ int_or 0 (nth 0 (Py.split "," (nth 8 parts [])) []) = None
              \/ second_or 0 (Py.split "," (nth 8 parts [])) = None)
      /\ (~ In ","%char (nth 6 parts []) -> cols st = 80)
      /\ (~ In ","%char (nth 8 parts []) -> cursor_col st = 0)
      /\ (connection_state st = "C"
          <-> nth 3 parts [] = "C"
              \/ exists rest, nth 3 parts [] = "C"%char :: rest
                              /\ In "("%char rest)).
Proof.
  cbv zeta. split; [|split].
  - unfold parse.
    destruct (length (split_ws (Py.strip line)) <? 11)%nat eqn:El.
    + apply Nat.ltb_lt in El. split; [now left | reflexivity].
    + apply Nat.ltb_ge in El.
      destruct (match dimensions (split_ws (Py.strip line)) with
                | Some d => d | None => (24, 80, 0, 0) end)
        as [[[r c] cr] cc].
      destruct (float_ok (nth 10 (split_ws (Py.strip line)) [])).
      * split; [discriminate|]. intros [H|H]; [lia | discriminate].
      * split; [now right | reflexivity].
  - intros Hl. unfold parse. rewrite split_ws_strip.
    unfold looks_like_status in Hl. destruct line as [|c0 line0]; [discriminate|].
    apply andb_prop in Hl as [_ Hl]. apply Nat.leb_le in Hl.
    destruct (length (split_ws (c0 :: line0)) <? 11)%nat eqn:El.
    { apply Nat.ltb_lt in El. lia. }
    destruct (match dimensions (split_ws (c0 :: line0)) with
              | Some d => d | None => (24, 80, 0, 0) end)
      as [[[r c] cr] cc].
    destruct (float_ok (nth 10 (split_ws (c0 :: line0)) []));
      split; (discriminate || reflexivity).
  - intros st. unfold parse.
    set (parts := split_ws (Py.strip line)).
    destruct (length parts <? 11)%nat; [discriminate|].
    assert (Hnone : dimensions parts = None
              <-> int_or 24 (nth 0 (Py.split "," (nth 6 parts [])) []) = None
                  \/ second_or 80 (Py.split "," (nth 6 parts [])) = None
                  \/ int_or 0 (nth 0 (Py.split "," (nth 8 parts [])) []) = None
                  \/ second_or 0 (Py.split "," (nth 8 parts [])) = None).
    { unfold dimensions.
      destruct (int_or 24 (nth 0 (Py.split "," (nth 6 parts [])) []));
        [|split; [now left | reflexivity]].
      destruct (second_or 80 (Py.split "," (nth 6 parts [])));
        [|split; [right; now left | reflexivity]].
      destruct (int_or 0 (nth 0 (Py.split "," (nth 8 parts [])) []));
        [|split; [right; right; now left | reflexivity]].
      destruct (second_or 0 (Py.split "," (nth 8 parts [])));
        [|split; [right; right; now right | reflexivity]].
      split; [discriminate|]. intros [H|[H|[H|H]]]; discriminate H. }
    assert (Hcols : ~ In ","%char (nth 6 parts []) ->
                    snd (fst (fst match dimensions parts with
                                  | Some d => d | None => (24, 80, 0, 0)
                                  end)) = 80).
    { intros Hn. unfold dimensions. rewrite (second_or_single 80 _ Hn).
      destruct (int_or 24 _); [|reflexivity].
      destruct (int_or 0 _); [|reflexivity].
      destruct (second_or 0 _); reflexivity. }
    assert (Hcc : ~ In ","%char (nth 8 parts []) ->
                  snd match dimensions parts with
                      | Some d => d | None => (24, 80, 0, 0)
                      end = 0).
    { intros Hn. unfold dimensions. rewrite (second_or_single 0 _ Hn).
      destruct (int_or 24 _); [|reflexivity].
      destruct (second_or 80 _); [|reflexivity].
      destruct (int_or 0 _); reflexivity. }
    destruct (match dimensions parts with
              | Some d => d | None => (24, 80, 0, 0) end)
      as [[[r c] cr] cc] eqn:Ed.
    destruct (float_ok (nth 10 parts [])); [|discriminate].
    intros H. injection H as <-.
    cbn [rows cols cursor_row cursor_col connection_state].
    split; [reflexivity|]. split; [exact Hnone|].
    split; [exact Hcols|]. split; [exact Hcc|].
    apply connection_word_C.
Qed.

End Parse.

(** A line in the layout the parser expects, and one with a bad cursor. *)
Example parse_status_example :
  option_map (fun st => (connection_state st, rows st, cols st,
                         cursor_row st, cursor_col st))
             (parse (fun _ => true)
                    "U F U C(127.0.0.1) I 4 43,80 x 5,7 0x0 0.01 -")
  = Some ("C" : Py.str, 43, 80, 5, 7)
  /\ option_map (fun st => (connection_state st, rows st, cols st,
                            cursor_row st, cursor_col st))
                (parse (fun _ => true)
                       "U F U C(127.0.0.1) I 4 43,80 x 5,? 0x0 0.01 -")
     = Some ("C" : Py.str, 24, 80, 0, 0).
Proof. split; vm_compute; reflexivity. Qed.

End StatusParseFacts.

(** ** observability.py: the metrics *)

Module MetricsFacts.
Import Metrics.

(** What is done to a collector. *)
Inductive Op : Type :=
| RecordAction (tool : Py.str) (latency_ms : Z) (outcome now : Py.str)
| RecordFallback
| EndSession (success : bool) (now_history now_updated now_start : Py.str).





Section Floats.
Variable F : Type.
Variable zero : F.
Variable quotient : Z -> Z -> F.
Variable mean2 : F -> F -> F.
Variable is_zero : F -> bool.

Let C : Type := Collector F.

Definition step (c : C) (op : Op) : C :=
  match op with
  | RecordAction tool latency_ms outcome now =>
      record_action F tool latency_ms outcome now c
  | RecordFallback => record_fallback F c
  | EndSession success t1 t2 t3 =>
      end_session F zero quotient mean2 is_zero success t1 t2 t3 c
  end.











End Floats.

End MetricsFacts.
